(** * Starlark value builders and the legacy-suite converters

    A shallow embedding of [infra/config/migration/starlark_conversions.py]
    and [infra/config/migration/post_migrate_targets_lib.py].

    Python values are an inductive type, Python exceptions an error type,
    and the mutable builder objects of the [values] module live in an
    explicit store that the converters thread through a state-and-error
    monad, so that two variables holding the same builder really share it. *)

From Stdlib Require Import ZArith String Ascii List Lia DecimalString DecimalPos DecimalZ.
From stdpp Require Import base list strings.

Set Warnings "-register-all".

Open Scope string_scope.
Open Scope list_scope.

(** ** Text *)

Module Text.

Definition LF : ascii := "010"%char.
Definition DQ : ascii := "034"%char.
Definition BS : ascii := "092"%char.

Definition nl : string := String LF "".
Definition dq : string := String DQ "".

(** [quoted s] is [s] between two double quotes, nothing else changed. *)
Definition quoted (s : string) : string := dq +:+ s +:+ dq.

(** Python's [s.startswith(p)]. *)
Definition startswith (s p : string) : bool := String.prefix p s.

(** Python's [s.replace(old, new)] for a non-empty [old]: occurrences are
    found left to right and do not overlap.  [skip] counts the characters
    of a matched occurrence that are still to be dropped. *)
Fixpoint replace_from (old new : string) (skip : nat) (s : string) : string :=
  match s with
  | "" => ""
  | String c r =>
      match skip with
      | S k => replace_from old new k r
      | O =>
          if String.prefix old s
          then new +:+ replace_from old new (String.length old - 1) r
          else String c (replace_from old new 0 r)
      end
  end.

Definition replace (s old new : string) : string := replace_from old new 0 s.

(** Python's [str(n)] for an integer. *)
Definition str_of_int (z : Z) : string := NilZero.string_of_int (Z.to_int z).

(** Python's [sep.join(ls)]. *)
Definition join (sep : string) (ls : list string) : string := String.concat sep ls.

Definition lines (ls : list string) : string := join nl ls.

End Text.

Import Text.

(** ** Python values and exceptions *)

(** The values a legacy [.pyl] file holds.  [PyOther] stands for a value of
    any other type that is not a container (a float, say): all the code
    below ever asks of it is its [repr] and its truth value; it has no
    [items] and no [startswith] and cannot be iterated. *)
Inductive PyAtom : Type :=
| PyNone
| PyBool (b : bool)
| PyInt (z : Z)
| PyStr (s : string)
| PyOther (repr : string) (truthy : bool).

(** Lists and dicts; a dict is the sequence of its items in iteration
    order, and its keys are hashable values, that is atoms. *)
Inductive PyVal : Type :=
| PyA (a : PyAtom)
| PyList (l : list PyVal)
| PyDict (d : list (PyAtom * PyVal)).

Coercion PyA : PyAtom >-> PyVal.

Inductive PyExc : Type :=
| Exception (msg : string)
| KeyError (key : string)
| AttributeError
| TypeError
| RecursionError.

Inductive result (A : Type) : Type :=
| Ok (a : A)
| Raise (e : PyExc).
Arguments Ok {A} a.
Arguments Raise {A} e.

(** [str(a)], as an f-string field formats it. *)
Definition py_str (a : PyAtom) : string :=
  match a with
  | PyNone => "None"
  | PyBool true => "True"
  | PyBool false => "False"
  | PyInt z => str_of_int z
  | PyStr s => s
  | PyOther r _ => r
  end.

(** [bool(v)]: empty containers, zero, [None] and [False] are false. *)
Definition py_truthy (v : PyVal) : bool :=
  match v with
  | PyA PyNone => false
  | PyA (PyBool b) => b
  | PyA (PyInt z) => negb (Z.eqb z 0)
  | PyA (PyStr s) => negb (String.eqb s "")
  | PyA (PyOther _ t) => t
  | PyList l => match l with [] => false | _ => true end
  | PyDict d => match d with [] => false | _ => true end
  end.

(** [key == name] for a string literal [name], as a [case 'name':] arm
    tests it. *)
Definition key_is (key : PyAtom) (name : string) : bool :=
  match key with
  | PyStr k => String.eqb k name
  | _ => false
  end.

(** [case 'a' | 'b' | ...:] *)
Definition key_in (key : PyAtom) (names : list string) : bool :=
  existsb (key_is key) names.

(** A Python dict [d] after [d[k] = v]: the value of an existing key is
    replaced in place, a new key goes to the end. *)
Fixpoint dict_set {V : Type} (k : string) (v : V) (d : list (string * V))
  : list (string * V) :=
  match d with
  | [] => [(k, v)]
  | (k', v') :: d' =>
      if String.eqb k' k then (k, v) :: d' else (k', v') :: dict_set k v d'
  end.

Fixpoint dict_get {V : Type} (k : string) (d : list (string * V)) : option V :=
  match d with
  | [] => None
  | (k', v') :: d' => if String.eqb k' k then Some v' else dict_get k d'
  end.

(** ** The [values] module: builders, the store, rendering *)

(** Modelled from the spec: the [Value] type of the [values] module, which
    is not among the sources.  A value is an atom, a string that already
    is target-language syntax, or a builder; a builder is a mutable object,
    so a value names it by its address in the store. *)
Inductive Value : Type :=
| Atom (text : string)
| Ref (r : nat).

(** Modelled from the spec: the three builder classes of the [values]
    module.  A list builder wraps an ordered sequence of values; a dict
    builder an ordered sequence of pairs whose keys are atoms; a call
    builder a call target, its keyword parameters in assignment order and
    an optional elision parameter name. *)
Inductive Builder : Type :=
| ListValueBuilder (elements : list Value)
| DictValueBuilder (items : list (string * Value))
| CallValueBuilder (function : string) (params : list (string * Value))
                   (elide_param : option string).

(** The store: the builders made so far, each at its address. *)
Abbreviation store := (list Builder).

(** Computations that read and write the store and may raise. *)
Definition M (A : Type) : Type := store -> result (A * store).

Definition ret {A : Type} (a : A) : M A := fun s => Ok (a, s).

Definition raise {A : Type} (e : PyExc) : M A := fun _ => Raise e.

Definition bind {A B : Type} (m : M A) (k : A -> M B) : M B :=
  fun s => match m s with
           | Ok (a, s') => k a s'
           | Raise e => Raise e
           end.

Definition lift {A : Type} (r : result A) : M A :=
  fun s => match r with Ok a => Ok (a, s) | Raise e => Raise e end.

Notation "'let*' x ':=' m 'in' k" := (bind m (fun x => k))
  (at level 10, x name, m at level 100, k at level 200).
Notation "'run' m 'in' k" := (bind m (fun _ => k))
  (at level 10, m at level 100, k at level 200).

(** [for x in xs: body(x)] *)
Fixpoint for_each {A : Type} (xs : list A) (body : A -> M unit) : M unit :=
  match xs with
  | [] => ret tt
  | x :: xs' => run body x in for_each xs' body
  end.

(** A [for] loop whose body reassigns a local variable. *)
Fixpoint fold_m {A S : Type} (xs : list A) (st : S) (body : S -> A -> M S)
  : M S :=
  match xs with
  | [] => ret st
  | x :: xs' => let* st' := body st x in fold_m xs' st' body
  end.

(** [[f(x) for x in xs]] *)
Definition map_m {A B : Type} (f : A -> M B) : list A -> M (list B) :=
  fix go (xs : list A) : M (list B) :=
    match xs with
    | [] => ret []
    | x :: xs' => let* y := f x in let* ys := go xs' in ret (y :: ys)
    end.

Module Values.

(** A new object gets the next free address. *)
Definition alloc (b : Builder) : M nat :=
  fun s => Ok (length s, s ++ [b]).

(** Modelled from the spec: the constructors of the builder classes of
    the absent [values] module; each call makes a fresh object. *)
Definition new_list (elements : list Value) : M nat :=
  alloc (ListValueBuilder elements).

Definition new_dict (items : list (string * Value)) : M nat :=
  alloc (DictValueBuilder items).

Definition new_call (function : string) (params : list (string * Value))
           (elide_param : option string) : M nat :=
  alloc (CallValueBuilder function params elide_param).

(** Modelled from the spec: [append] of the absent list builder class;
    insertion order is render order. *)
Definition append (r : nat) (v : Value) : M unit :=
  fun s => match s !! r with
           | Some (ListValueBuilder es) =>
               Ok (tt, <[r := ListValueBuilder (es ++ [v])]> s)
           | _ => Raise AttributeError
           end.

(** Modelled from the spec: key assignment [builder[key] = value] of the
    absent dict and call builder classes, with the semantics of mapping
    assignment: an assigned key keeps its position, a new one goes last. *)
Definition setitem (r : nat) (key : string) (v : Value) : M unit :=
  fun s => match s !! r with
           | Some (DictValueBuilder kvs) =>
               Ok (tt, <[r := DictValueBuilder (dict_set key v kvs)]> s)
           | Some (CallValueBuilder f ps el) =>
               Ok (tt, <[r := CallValueBuilder f (dict_set key v ps) el]> s)
           | _ => Raise TypeError
           end.

(** What a value is once every address in it is followed: the tree that
    rendering walks. *)
Inductive Tree : Type :=
| TAtom (text : string)
| TList (elements : list Tree)
| TDict (items : list (string * Tree))
| TCall (function : string) (params : list (string * Tree))
        (elide_param : option string).

(** Follows addresses to at most [fuel] builders deep. *)
Fixpoint snapshot (fuel : nat) (s : store) (v : Value) : option Tree :=
  match v with
  | Atom a => Some (TAtom a)
  | Ref r =>
      match fuel with
      | O => None
      | S n =>
          match s !! r with
          | None => None
          | Some (ListValueBuilder es) =>
              TList <$> mapM (snapshot n s) es
          | Some (DictValueBuilder kvs) =>
              TDict <$> mapM (fun kv => pair (fst kv) <$> snapshot n s (snd kv)) kvs
          | Some (CallValueBuilder f ps el) =>
              (fun ps' => TCall f ps' el)
                <$> mapM (fun kv => pair (fst kv) <$> snapshot n s (snd kv)) ps
          end
      end
  end.

(** Two spaces in front of every line of [s]. *)
Fixpoint indent_tail (s : string) : string :=
  match s with
  | "" => ""
  | String c r =>
      if Ascii.eqb c LF then String LF ("  " +:+ indent_tail r)
      else String c (indent_tail r)
  end.

Definition indent (s : string) : string := "  " +:+ indent_tail s.

(** One child of a container: indented, then a comma and a line end. *)
Definition entry (s : string) : string := indent s +:+ "," +:+ nl.

Definition entries (children : list string) : string :=
  String.concat "" (map entry children).

Definition block (opener closer : string) (children : list string) : string :=
  match children with
  | [] => opener +:+ closer
  | _ => opener +:+ nl +:+ entries children +:+ closer
  end.

(** The members of [l] that are there. *)
Fixpoint somes {A : Type} (l : list (option A)) : list A :=
  match l with
  | [] => []
  | Some a :: l' => a :: somes l'
  | None :: l' => somes l'
  end.

(** Modelled from the spec: the render operation of the absent [values]
    module (section 4.1 and the elision rule of section 3).  The result
    is [None] for a value that has nothing to output: the tests of
    [convert_basic_suite] show that a call builder without parameters puts
    no element into the list that holds it, so a container leaves out the
    children without output, and a call all of whose parameters are left
    out has no output itself.  An empty list renders as the empty
    literal.  Indentation follows the nesting depth alone: a container
    indents every line of each child by two spaces. *)
Fixpoint render (t : Tree) : option string :=
  match t with
  | TAtom a => Some a
  | TList es => Some (block "[" "]" (somes (map render es)))
  | TDict kvs =>
      Some (block "{" "}"
              (somes (map (fun kv =>
                             option_map (fun o => fst kv +:+ ": " +:+ o)
                                        (render (snd kv))) kvs)))
  | TCall f ps el =>
      let full :=
        match somes (map (fun pv =>
                            option_map (fun o => fst pv +:+ " = " +:+ o)
                                       (render (snd pv))) ps) with
        | [] => None
        | outs => Some (f +:+ block "(" ")" outs)
        end in
      match ps, el with
      | [(p, v)], Some e => if String.eqb p e then render v else full
      | _, _ => full
      end
  end.

(** Modelled from the spec: [to_output] of the absent [values] module, the
    single top-level render.  A chain of builders longer than the store
    has objects can only be a cycle, on which Python would exhaust its
    stack. *)
Definition to_output (v : Value) : M (option string) :=
  fun s => match snapshot (length s) s v with
           | Some t => Ok (render t, s)
           | None => Raise RecursionError
           end.

End Values.

Import Values.

(** ** What Python does with an ill-typed value *)

(** [v.items()] *)
Definition py_items (v : PyVal) : result (list (PyAtom * PyVal)) :=
  match v with
  | PyDict d => Ok d
  | _ => Raise AttributeError
  end.

Fixpoint chars (s : string) : list PyVal :=
  match s with
  | "" => []
  | String c r => PyA (PyStr (String c "")) :: chars r
  end.

(** [for x in v]: the elements of a list, the keys of a dict, the
    characters of a string. *)
Definition py_iter (v : PyVal) : result (list PyVal) :=
  match v with
  | PyList l => Ok l
  | PyDict d => Ok (map (fun kv => PyA (fst kv)) d)
  | PyA (PyStr s) => Ok (chars s)
  | PyA _ => Raise TypeError
  end.

(** ** [starlark_conversions.py] *)

Definition _MAGIC_ARG_MAPPING : list (string * string) :=
  [ ("$$MAGIC_SUBSTITUTION_AndroidDesktopTelemetryRemote",
     "ANDROID_DESKTOP_TELEMETRY_REMOTE");
    ("$$MAGIC_SUBSTITUTION_ChromeOSTelemetryRemote", "CROS_TELEMETRY_REMOTE");
    ("$$MAGIC_SUBSTITUTION_ChromeOSGtestFilterFile", "CROS_GTEST_FILTER_FILE");
    ("$$MAGIC_SUBSTITUTION_GPUExpectedVendorId", "GPU_EXPECTED_VENDOR_ID");
    ("$$MAGIC_SUBSTITUTION_GPUExpectedDeviceId", "GPU_EXPECTED_DEVICE_ID");
    ("$$MAGIC_SUBSTITUTION_GPUParallelJobs", "GPU_PARALLEL_JOBS");
    ("$$MAGIC_SUBSTITUTION_GPUTelemetryNoRootForUnrootedDevices",
     "GPU_TELEMETRY_NO_ROOT_FOR_UNROOTED_DEVICES");
    ("$$MAGIC_SUBSTITUTION_GPUWebGLRuntimeFile", "GPU_WEBGL_RUNTIME_FILE") ].

(** The branches of [convert_direct] for a value that is not a list or a
    dict: [str(value)] for [None], a bool or an int; the string between
    double quotes with each double quote of it replaced by a backslash and
    a double quote; an exception with the [repr] for anything else. *)
Definition convert_atom (value : PyAtom) : result string :=
  match value with
  | PyNone | PyBool _ | PyInt _ => Ok (py_str value)
  | PyStr s => Ok (dq +:+ replace s dq (String BS dq) +:+ dq)
  | PyOther r _ => Raise (Exception ("unhandled python value: " +:+ r))
  end.

(** [{convert_direct(k): convert_direct(v) for k, v in value.items()}]:
    the dict is filled item by item, the key converted before the value. *)
Definition comprehension (convert_value : PyVal -> M Value)
  : list (string * Value) -> list (PyAtom * PyVal) -> M (list (string * Value)) :=
  fix go (acc : list (string * Value)) (d : list (PyAtom * PyVal)) :=
    match d with
    | [] => ret acc
    | kv :: d' =>
        let* k' := lift (convert_atom (fst kv)) in
        let* v' := convert_value (snd kv) in
        go (dict_set k' v' acc) d'
    end.

Fixpoint convert_direct (value : PyVal) : M Value :=
  match value with
  | PyA a => let* t := lift (convert_atom a) in ret (Atom t)
  | PyList l =>
      let* es := map_m convert_direct l in
      let* r := new_list es in
      ret (Ref r)
  | PyDict d =>
      let* items := comprehension convert_direct [] d in
      let* r := new_dict items in
      ret (Ref r)
  end.

Definition convert_arg (arg : PyVal) : M Value :=
  match arg with
  | PyA (PyStr a) =>
      if startswith a "$$MAGIC_SUBSTITUTION_" then
        match dict_get a _MAGIC_ARG_MAPPING with
        | Some name => ret (Atom ("targets.magic_args." +:+ name))
        | None => raise (KeyError a)
        end
      else convert_direct arg
  | _ => raise AttributeError
  end.

Definition convert_args (args : PyVal) : M Value :=
  let* l := lift (py_iter args) in
  let* es := map_m convert_arg l in
  let* r := new_list es in
  ret (Ref r).

Definition unhandled_key (schema : string) (key : PyAtom) : PyExc :=
  Exception ("unhandled key in " +:+ schema +:+ ": " +:+ quoted (py_str key)).

Definition convert_resultdb (resultdb : PyVal) : M Value :=
  let* value_builder := new_call "targets.resultdb" [] None in
  let* items := lift (py_items resultdb) in
  run for_each items (fun kv =>
        let key := fst kv in
        let value := snd kv in
        if key_is key "enable" then
          let* v := convert_direct value in
          setitem value_builder (py_str key) v
        else raise (unhandled_key "resultdb" key)) in
  ret (Ref value_builder).

Definition convert_swarming (swarming : PyVal) : M Value :=
  let* value_builder := new_call "targets.swarming" [] None in
  let* items := lift (py_items swarming) in
  run for_each items (fun kv =>
        let key := fst kv in
        let value := snd kv in
        if key_in key ["dimensions"; "idempotent"; "service_account"; "shards"]
        then
          let* v := convert_direct value in
          setitem value_builder (py_str key) v
        else if key_is key "expiration" then
          let* v := convert_direct value in
          setitem value_builder "expiration_sec" v
        else if key_is key "hard_timeout" then
          let* v := convert_direct value in
          setitem value_builder "hard_timeout_sec" v
        else if key_is key "io_timeout" then
          let* v := convert_direct value in
          setitem value_builder "io_timeout_sec" v
        else raise (unhandled_key "swarming" key)) in
  ret (Ref value_builder).

Definition convert_skylab (skylab : PyVal) : M Value :=
  let* value_builder := new_call "targets.skylab" [] None in
  let* items := lift (py_items skylab) in
  run for_each items (fun kv =>
        let key := fst kv in
        let value := snd kv in
        if key_in key ["shards"; "timeout_sec"] then
          let* v := convert_direct value in
          setitem value_builder (py_str key) v
        else raise (unhandled_key "skylab" key)) in
  ret (Ref value_builder).

(** ** [post_migrate_targets_lib.py] *)

(** The first element of every [remove_mixins] list. *)
Definition remove_mixins_guard : string :=
  quoted "DO NOT SUBMIT ensure all remove mixins values are present".

(** One turn of the loop over the keys of a test definition.  The loop
    reassigns [mixins_builder], so the body returns its new value. *)
Definition test_key (anonymous_mixin_builder modifications_builder : nat)
           (mixins_builder : option nat) (kv : PyAtom * PyVal)
  : M (option nat) :=
  let key := fst kv in
  let value := snd kv in
  if key_in key ["results_handler"; "script"; "telemetry_test_name"; "test";
                 "test_common"] then
    ret mixins_builder
  else if key_in key ["ci_only"; "experiment_percentage";
                      "use_isolated_scripts_api"] then
    let* v := convert_direct value in
    run setitem anonymous_mixin_builder (py_str key) v in
    ret mixins_builder
  else if key_in key ["android_args"; "chromeos_args"; "desktop_args"; "args";
                      "lacros_args"; "linux_args"] then
    let* v := convert_args value in
    run setitem anonymous_mixin_builder (py_str key) v in
    ret mixins_builder
  else if key_is key "resultdb" then
    let* v := convert_resultdb value in
    run setitem anonymous_mixin_builder "resultdb" v in
    ret mixins_builder
  else if key_in key ["android_swarming"; "chromeos_swarming"; "swarming"] then
    let* v := convert_swarming value in
    run setitem anonymous_mixin_builder (py_str key) v in
    ret mixins_builder
  else if key_is key "skylab" then
    let* v := convert_skylab value in
    run setitem anonymous_mixin_builder (py_str key) v in
    ret mixins_builder
  else if key_is key "mixins" then
    let* mixins_builder' := new_list [Ref anonymous_mixin_builder] in
    let* es := lift (py_iter value) in
    run for_each es (fun e =>
          let* v := convert_direct e in
          append mixins_builder' v) in
    ret (Some mixins_builder')
  else if key_is key "remove_mixins" then
    let* remove_mixins_builder := new_list [Atom remove_mixins_guard] in
    run setitem modifications_builder "remove_mixins"
        (Ref remove_mixins_builder) in
    let* ms := lift (py_iter value) in
    run for_each ms (fun m =>
          let* v := convert_direct m in
          append remove_mixins_builder v) in
    ret mixins_builder
  else raise (unhandled_key "basic suite test definition" key).

(** One turn of the loop over the tests of a basic suite. *)
Definition suite_test (targets_builder per_test_modifications_builder : nat)
           (entry : PyAtom * PyVal) : M unit :=
  let* test_name := lift (convert_atom (fst entry)) in
  run append targets_builder (Atom test_name) in
  let* anonymous_mixin_builder := new_call "targets.mixin" [] None in
  let* modifications_builder :=
    new_call "targets.per_test_modification" [] (Some "mixins") in
  run setitem per_test_modifications_builder test_name
      (Ref modifications_builder) in
  let* keys := lift (py_items (snd entry)) in
  let* mixins_builder :=
    fold_m keys None (test_key anonymous_mixin_builder modifications_builder) in
  setitem modifications_builder "mixins"
          (match mixins_builder with
           | Some b => Ref b
           | None => Ref anonymous_mixin_builder
           end).

(** [convert_basic_suite] up to its [return]: the two builders it renders. *)
Definition build_basic_suite (suite : PyVal) : M (nat * nat) :=
  let* targets_builder := new_list [] in
  let* per_test_modifications_builder := new_dict [] in
  let* tests := lift (py_items suite) in
  run for_each tests
      (suite_test targets_builder per_test_modifications_builder) in
  ret (targets_builder, per_test_modifications_builder).

Definition convert_basic_suite (suite : PyVal)
  : M (list (string * option string)) :=
  let* bs := build_basic_suite suite in
  let* targets := to_output (Ref (fst bs)) in
  let* per_test_modifications := to_output (Ref (snd bs)) in
  ret [("targets", targets);
       ("per_test_modifications", per_test_modifications)].

Definition convert_compound_suite (suite : PyVal)
  : M (list (string * option string)) :=
  let* v := convert_direct suite in
  let* targets := to_output v in
  ret [("targets", targets)].

(** One turn of the loop over the keys of a matrix config. *)
Definition matrix_key (bundle_builder : nat) (kv : PyAtom * PyVal) : M unit :=
  let key := fst kv in
  let value := snd kv in
  if key_in key ["mixins"; "variants"] then
    let* v := convert_direct value in
    setitem bundle_builder (py_str key) v
  else raise (unhandled_key "matrix config" key).

(** One turn of the loop over the suites of a matrix compound suite. *)
Definition matrix_entry (targets_builder : nat) (entry : PyAtom * PyVal)
  : M unit :=
  let suite_name := fst entry in
  let matrix_config := snd entry in
  if negb (py_truthy matrix_config) then
    let* v := convert_direct suite_name in
    append targets_builder v
  else
    let* n := convert_direct suite_name in
    let* bundle_builder := new_call "targets.bundle" [("targets", n)] None in
    let* config := lift (py_items matrix_config) in
    run for_each config (matrix_key bundle_builder) in
    append targets_builder (Ref bundle_builder).

(** [convert_matrix_compound_suite] up to its [return]. *)
Definition build_matrix_compound_suite (suite : PyVal) : M nat :=
  let* targets_builder := new_list [] in
  let* entries := lift (py_items suite) in
  run for_each entries (matrix_entry targets_builder) in
  ret targets_builder.

Definition convert_matrix_compound_suite (suite : PyVal)
  : M (list (string * option string)) :=
  let* targets_builder := build_matrix_compound_suite suite in
  let* targets := to_output (Ref targets_builder) in
  ret [("targets", targets)].

(** A call from a caller that holds no builder yet. *)
Definition call {A : Type} (m : M A) : result A :=
  match m [] with
  | Ok (a, _) => Ok a
  | Raise e => Raise e
  end.

(** ** The specification's own words, to compare the code with *)

Module Spec.

(** Every double quote of [s] gets a backslash in front of it; no other
    character is touched. *)
Fixpoint escape_quotes (s : string) : string :=
  match s with
  | "" => ""
  | String c r =>
      if Ascii.eqb c DQ then String BS (String DQ (escape_quotes r))
      else String c (escape_quotes r)
  end.

(** The values the literal converter accepts at the top: null, a
    boolean, an integer, a string, a sequence, a mapping. *)
Definition is_literal (v : PyVal) : bool :=
  match v with
  | PyA (PyOther _ _) => false
  | _ => true
  end.

(** The debug representation of a value that is none of these. *)
Definition debug_repr (v : PyVal) : string :=
  match v with
  | PyA (PyOther r _) => r
  | _ => ""
  end.

Definition MAGIC_PREFIX : string := "$$MAGIC_SUBSTITUTION_".



(** [convertLiteral] of a string. *)
Definition literal (s : string) : string := quoted (escape_quotes s).

(** A suite whose test names are strings, and a list of names. *)
Definition suite_of (tests : list (string * PyVal)) : PyVal :=
  PyDict (map (fun e => (PyStr (fst e), snd e)) tests).

Definition names_of (names : list string) : PyVal :=
  PyList (map (fun n => PyA (PyStr n)) names).


Definition swarming_keys : list string :=
  ["dimensions"; "idempotent"; "service_account"; "shards"; "expiration";
   "hard_timeout"; "io_timeout"].


Definition matrix_keys : list string := ["mixins"; "variants"].

(** The keys whose value goes into the anonymous mixin. *)
Definition anon_keys : list string :=
  ["ci_only"; "experiment_percentage"; "use_isolated_scripts_api";
   "android_args"; "chromeos_args"; "desktop_args"; "args"; "lacros_args";
   "linux_args"; "resultdb"; "android_swarming"; "chromeos_swarming";
   "swarming"; "skylab"].


(** The message of an unknown key. *)
Definition unhandled (schema : string) (key : PyAtom) : PyExc :=
  Exception ("unhandled key in " +:+ schema +:+ ": " +:+ dq +:+ py_str key
                                 +:+ dq).

End Spec.

(** ** What the converters build, as trees

    The definitions of this module are not part of the program: they say
    which tree each converter's result stands for once the store is read
    back, and the proofs below show that the converters build exactly
    that. *)

Module Den.

Definition rbind {A B : Type} (r : result A) (k : A -> result B) : result B :=
  match r with
  | Ok a => k a
  | Raise e => Raise e
  end.

Definition map_r {A B : Type} (f : A -> result B) : list A -> result (list B) :=
  fix go (xs : list A) : result (list B) :=
    match xs with
    | [] => Ok []
    | x :: xs' => rbind (f x) (fun y => rbind (go xs') (fun ys => Ok (y :: ys)))
    end.

Fixpoint fold_r {A S : Type} (xs : list A) (st : S)
         (body : S -> A -> result S) : result S :=
  match xs with
  | [] => Ok st
  | x :: xs' => rbind (body st x) (fun st' => fold_r xs' st' body)
  end.

(** [snapshot] that refuses every address below [lo]. *)
Fixpoint snapshot_in (lo fuel : nat) (s : store) (v : Value) : option Tree :=
  match v with
  | Atom a => Some (TAtom a)
  | Ref r =>
      match fuel with
      | O => None
      | S n =>
          if Nat.ltb r lo then None else
          match s !! r with
          | None => None
          | Some (ListValueBuilder es) =>
              TList <$> mapM (snapshot_in lo n s) es
          | Some (DictValueBuilder kvs) =>
              TDict <$> mapM (fun kv => pair (fst kv)
                                          <$> snapshot_in lo n s (snd kv)) kvs
          | Some (CallValueBuilder f ps el) =>
              (fun ps' => TCall f ps' el)
                <$> mapM (fun kv => pair (fst kv)
                                      <$> snapshot_in lo n s (snd kv)) ps
          end
      end
  end.

Definition comprehension_r (f : PyVal -> result Tree)
  : list (string * Tree) -> list (PyAtom * PyVal)
    -> result (list (string * Tree)) :=
  fix go (acc : list (string * Tree)) (d : list (PyAtom * PyVal)) :=
    match d with
    | [] => Ok acc
    | kv :: d' =>
        rbind (convert_atom (fst kv)) (fun k' =>
        rbind (f (snd kv)) (fun v' => go (dict_set k' v' acc) d'))
    end.

Fixpoint direct (value : PyVal) : result Tree :=
  match value with
  | PyA a => rbind (convert_atom a) (fun t => Ok (TAtom t))
  | PyList l => rbind (map_r direct l) (fun ts => Ok (TList ts))
  | PyDict d =>
      rbind (comprehension_r direct [] d) (fun items => Ok (TDict items))
  end.

Definition arg (a : PyVal) : result Tree :=
  match a with
  | PyA (PyStr a') =>
      if startswith a' "$$MAGIC_SUBSTITUTION_" then
        match dict_get a' _MAGIC_ARG_MAPPING with
        | Some name => Ok (TAtom ("targets.magic_args." +:+ name))
        | None => Raise (KeyError a')
        end
      else direct a
  | _ => Raise AttributeError
  end.

Definition args (v : PyVal) : result Tree :=
  rbind (py_iter v) (fun l => rbind (map_r arg l) (fun ts => Ok (TList ts))).

(** The parameter a key of a sub-schema is assigned to. *)
Definition resultdb_param (key : PyAtom) : result string :=
  if key_is key "enable" then Ok (py_str key)
  else Raise (unhandled_key "resultdb" key).

Definition swarming_param (key : PyAtom) : result string :=
  if key_in key ["dimensions"; "idempotent"; "service_account"; "shards"]
  then Ok (py_str key)
  else if key_is key "expiration" then Ok "expiration_sec"
  else if key_is key "hard_timeout" then Ok "hard_timeout_sec"
  else if key_is key "io_timeout" then Ok "io_timeout_sec"
  else Raise (unhandled_key "swarming" key).

Definition skylab_param (key : PyAtom) : result string :=
  if key_in key ["shards"; "timeout_sec"] then Ok (py_str key)
  else Raise (unhandled_key "skylab" key).

Definition matrix_param (key : PyAtom) : result string :=
  if key_in key ["mixins"; "variants"] then Ok (py_str key)
  else Raise (unhandled_key "matrix config" key).

(** One key of a sub-schema: the key is looked at first, then the value
    is converted, then the parameter is assigned. *)
Definition assign (param : PyAtom -> result string)
           (ps : list (string * Tree)) (kv : PyAtom * PyVal)
  : result (list (string * Tree)) :=
  rbind (param (fst kv)) (fun name =>
  rbind (direct (snd kv)) (fun t => Ok (dict_set name t ps))).

Definition call_of (f : string) (param : PyAtom -> result string)
           (init : list (string * Tree)) (v : PyVal) : result Tree :=
  rbind (py_items v) (fun items =>
  rbind (fold_r items init (assign param)) (fun ps => Ok (TCall f ps None))).

Definition resultdb : PyVal -> result Tree :=
  call_of "targets.resultdb" resultdb_param [].

Definition swarming : PyVal -> result Tree :=
  call_of "targets.swarming" swarming_param [].

Definition skylab : PyVal -> result Tree :=
  call_of "targets.skylab" skylab_param [].

(** The same key loop on the store. *)
Definition assign_m (value_builder : nat) (param : PyAtom -> result string)
           (kv : PyAtom * PyVal) : M unit :=
  match param (fst kv) with
  | Ok name => let* v := convert_direct (snd kv) in
               setitem value_builder name v
  | Raise e => raise e
  end.

(** The shape the three sub-schema converters and the bundle of a matrix
    entry share. *)
Definition build_call (f : string) (ps0 : list (string * Value))
           (param : PyAtom -> result string) (v : PyVal) : M Value :=
  let* value_builder := new_call f ps0 None in
  let* items := lift (py_items v) in
  run for_each items (assign_m value_builder param) in
  ret (Ref value_builder).

(** The converters a key of a test definition can route its value to. *)
Inductive conv : Type :=
| CDirect | CArgs | CResultdb | CSwarming | CSkylab.

Definition conv_m (c : conv) : PyVal -> M Value :=
  match c with
  | CDirect => convert_direct
  | CArgs => convert_args
  | CResultdb => convert_resultdb
  | CSwarming => convert_swarming
  | CSkylab => convert_skylab
  end.

Definition conv_den (c : conv) : PyVal -> result Tree :=
  match c with
  | CDirect => direct
  | CArgs => args
  | CResultdb => resultdb
  | CSwarming => swarming
  | CSkylab => skylab
  end.

(** The arm of the [match] a key of a test definition falls into. *)
Inductive arm : Type :=
| Ignore
| Field (name : string) (c : conv)
| Mixins
| RemoveMixins.

Definition classify (key : PyAtom) : result arm :=
  if key_in key ["results_handler"; "script"; "telemetry_test_name"; "test";
                 "test_common"] then Ok Ignore
  else if key_in key ["ci_only"; "experiment_percentage";
                      "use_isolated_scripts_api"] then
    Ok (Field (py_str key) CDirect)
  else if key_in key ["android_args"; "chromeos_args"; "desktop_args";
                      "args"; "lacros_args"; "linux_args"] then
    Ok (Field (py_str key) CArgs)
  else if key_is key "resultdb" then Ok (Field "resultdb" CResultdb)
  else if key_in key ["android_swarming"; "chromeos_swarming"; "swarming"]
  then Ok (Field (py_str key) CSwarming)
  else if key_is key "skylab" then Ok (Field (py_str key) CSkylab)
  else if key_is key "mixins" then Ok Mixins
  else if key_is key "remove_mixins" then Ok RemoveMixins
  else Raise (unhandled_key "basic suite test definition" key).

(** [test_key] of the program, arm by arm. *)
Definition test_key_m (anonymous_mixin_builder modifications_builder : nat)
           (mixins_builder : option nat) (kv : PyAtom * PyVal)
  : M (option nat) :=
  match classify (fst kv) with
  | Raise e => raise e
  | Ok Ignore => ret mixins_builder
  | Ok (Field name c) =>
      let* v := conv_m c (snd kv) in
      run setitem anonymous_mixin_builder name v in
      ret mixins_builder
  | Ok Mixins =>
      let* mixins_builder' := new_list [Ref anonymous_mixin_builder] in
      let* es := lift (py_iter (snd kv)) in
      run for_each es (fun e =>
            let* v := convert_direct e in
            append mixins_builder' v) in
      ret (Some mixins_builder')
  | Ok RemoveMixins =>
      let* remove_mixins_builder := new_list [Atom remove_mixins_guard] in
      run setitem modifications_builder "remove_mixins"
          (Ref remove_mixins_builder) in
      let* ms := lift (py_iter (snd kv)) in
      run for_each ms (fun m =>
            let* v := convert_direct m in
            append remove_mixins_builder v) in
      ret mixins_builder
  end.

(** The local state of the loop over the keys of one test: the
    parameters of the anonymous mixin, those of the per-test
    modification, and the named mixins when the key [mixins] was seen. *)
Record test_state : Type := {
  anon : list (string * Tree);
  mods : list (string * Tree);
  named : option (list Tree)
}.

Definition init_test : test_state :=
  {| anon := []; mods := []; named := None |}.

Definition test_key (st : test_state) (kv : PyAtom * PyVal)
  : result test_state :=
  rbind (classify (fst kv)) (fun a =>
    match a with
    | Ignore => Ok st
    | Field name c =>
        rbind (conv_den c (snd kv)) (fun t =>
          Ok {| anon := dict_set name t (anon st);
                mods := mods st; named := named st |})
    | Mixins =>
        rbind (py_iter (snd kv)) (fun es =>
        rbind (map_r direct es) (fun ts =>
          Ok {| anon := anon st; mods := mods st; named := Some ts |}))
    | RemoveMixins =>
        rbind (py_iter (snd kv)) (fun ms =>
        rbind (map_r direct ms) (fun ts =>
          Ok {| anon := anon st;
                mods := dict_set "remove_mixins"
                          (TList (TAtom remove_mixins_guard :: ts)) (mods st);
                named := named st |}))
    end).

Definition anon_tree (st : test_state) : Tree :=
  TCall "targets.mixin" (anon st) None.

Definition mixins_tree (st : test_state) : Tree :=
  match named st with
  | Some ts => TList (anon_tree st :: ts)
  | None => anon_tree st
  end.

Definition test_tree (st : test_state) : Tree :=
  TCall "targets.per_test_modification"
        (dict_set "mixins" (mixins_tree st) (mods st)) (Some "mixins").

Definition test_of (keys : PyVal) : result Tree :=
  rbind (py_items keys) (fun kvs =>
  rbind (fold_r kvs init_test test_key) (fun st => Ok (test_tree st))).

Definition suite_test (acc : list Tree * list (string * Tree))
           (entry : PyAtom * PyVal)
  : result (list Tree * list (string * Tree)) :=
  rbind (convert_atom (fst entry)) (fun name =>
  rbind (test_of (snd entry)) (fun t =>
    Ok (fst acc ++ [TAtom name], dict_set name t (snd acc)))).

Definition basic_suite (suite : PyVal) : result (Tree * Tree) :=
  rbind (py_items suite) (fun tests =>
  rbind (fold_r tests ([], []) suite_test) (fun acc =>
    Ok (TList (fst acc), TDict (snd acc)))).

Definition matrix_entry (acc : list Tree) (entry : PyAtom * PyVal)
  : result (list Tree) :=
  rbind (convert_atom (fst entry)) (fun name =>
    if negb (py_truthy (snd entry)) then Ok (acc ++ [TAtom name])
    else rbind (call_of "targets.bundle" matrix_param
                        [("targets", TAtom name)] (snd entry))
               (fun t => Ok (acc ++ [t]))).

Definition matrix_compound_suite (suite : PyVal) : result Tree :=
  rbind (py_items suite) (fun entries =>
  rbind (fold_r entries [] matrix_entry) (fun ts => Ok (TList ts))).

End Den.

(** ** More of the specification's words, over trees *)

Module SpecTrees.

(** The entries of a matrix compound suite whose configs are mappings. *)
Definition matrix_of (entries : list (PyAtom * list (PyAtom * PyVal))) : PyVal :=
  PyDict (map (fun e => (fst e, PyDict (snd e))) entries).

(** One key of a matrix config: [mixins] and [variants] pass through the
    literal converter, any other key fails. *)
Definition matrix_config_key (ps : list (string * Tree)) (kv : PyAtom * PyVal)
  : result (list (string * Tree)) :=
  if key_in (fst kv) Spec.matrix_keys then
    Den.rbind (Den.direct (snd kv)) (fun t => Ok (dict_set (py_str (fst kv)) t ps))
  else Raise (Spec.unhandled "matrix config" (fst kv)).

(** What one entry adds to the targets list: the converted suite name for
    an empty config, else a [targets.bundle] call that starts with
    [targets = <converted suite name>] and goes through the keys. *)
Definition matrix_target (entry : PyAtom * list (PyAtom * PyVal)) : result Tree :=
  Den.rbind (convert_atom (fst entry)) (fun name =>
    match snd entry with
    | [] => Ok (TAtom name)
    | config =>
        Den.rbind (Den.fold_r config [("targets", TAtom name)] matrix_config_key)
                  (fun ps => Ok (TCall "targets.bundle" ps None))
    end).

Definition matrix_targets (entries : list (PyAtom * list (PyAtom * PyVal)))
  : result (list Tree) :=
  Den.map_r matrix_target entries.

(** *** The output contract *)

Fixpoint spaces (n : nat) : string :=
  match n with
  | O => ""
  | S n' => String " " (spaces n')
  end.

(** [s] with [n] spaces after each of its line ends: what is on the lines
    after the first starts [n] columns further right. *)
Fixpoint hang (n : nat) (s : string) : string :=
  match s with
  | "" => ""
  | String c r =>
      if Ascii.eqb c LF then String LF (spaces n +:+ hang n r)
      else String c (hang n r)
  end.

(** A container whose delimiters are at [indent_unit] columns: each child
    on lines of its own, [indent_unit + 2] spaces in front of it and a
    comma behind it, the closing delimiter at [indent_unit] columns. *)
Definition block_at (indent_unit : nat) (opener closer : string)
           (children : list string) : string :=
  match children with
  | [] => opener +:+ closer
  | _ => opener +:+ nl
           +:+ String.concat ""
                 (map (fun c => spaces (indent_unit + 2) +:+ c +:+ "," +:+ nl)
                      children)
           +:+ spaces indent_unit +:+ closer
  end.

(** Rendering with the indentation as a parameter, as section 4.1 words
    it: a builder whose own lines are at [indent_unit] columns renders its
    children at [indent_unit + 2]. *)
Fixpoint render_at (indent_unit : nat) (t : Tree) : option string :=
  match t with
  | TAtom a => Some (hang indent_unit a)
  | TList es =>
      Some (block_at indent_unit "[" "]"
                     (somes (map (render_at (indent_unit + 2)) es)))
  | TDict kvs =>
      Some (block_at indent_unit "{" "}"
              (somes (map (fun kv =>
                             option_map
                               (fun o => hang (indent_unit + 2) (fst kv)
                                           +:+ ": " +:+ o)
                               (render_at (indent_unit + 2) (snd kv))) kvs)))
  | TCall f ps el =>
      let full :=
        match somes (map (fun pv =>
                            option_map
                              (fun o => hang (indent_unit + 2) (fst pv)
                                          +:+ " = " +:+ o)
                              (render_at (indent_unit + 2) (snd pv))) ps) with
        | [] => None
        | outs => Some (hang indent_unit f +:+ block_at indent_unit "(" ")" outs)
        end in
      match ps, el with
      | [(p, v)], Some e => if String.eqb p e then render_at indent_unit v
                            else full
      | _, _ => full
      end
  end.

(** Whether the last character of [s] is a line end. *)
Fixpoint ends_with_newline (s : string) : bool :=
  match s with
  | "" => false
  | String c r =>
      match r with
      | "" => Ascii.eqb c LF
      | _ => ends_with_newline r
      end
  end.

End SpecTrees.

(** A computation and the result it stands for: both raise the same
    exception, or the computation returns and [R] relates what it returns
    and the store it leaves to the result. *)
Definition sim {A T : Type} (m : M A) (d : result T) (s : store)
           (R : A -> store -> T -> Prop) : Prop :=
  match d with
  | Ok t => exists a s', m s = Ok (a, s') /\ R a s' t
  | Raise e => m s = Raise e
  end.

(** [x] stands for [t] in [s'], which adds objects to [s] and leaves what
    [s] holds alone; [t] is read off the added objects only. *)
Definition fresh (s : store) (x : Value) (s' : store) (t : Tree) : Prop :=
  exists d, s' = s ++ d
            /\ Den.snapshot_in (length s) (length d) s' x = Some t.

(** The parameters [ps] of a builder stand for [pts]. *)
Definition params_rel (lo n : nat) (s : store) (ps : list (string * Value))
           (pts : list (string * Tree)) : Prop :=
  Forall2 (fun kv kt =>
             fst kv = fst kt
             /\ Den.snapshot_in lo n s (snd kv) = Some (snd kt)) ps pts.

Definition values_rel (lo n : nat) (s : store) (xs : list Value)
           (ts : list Tree) : Prop :=
  Forall2 (fun x t => Den.snapshot_in lo n s x = Some t) xs ts.

Definition fresh_all (s : store) (xs : list Value) (s' : store)
           (ts : list Tree) : Prop :=
  exists d, s' = s ++ d /\ values_rel (length s) (length d) s' xs ts.


(** [s'] is no shorter than [s] and holds what [s] holds below [n]. *)
Definition keeps (n : nat) (s s' : store) : Prop :=
  length s <= length s' /\ forall i, i < n -> s' !! i = s !! i.

(** [s'] is no shorter than [s] and holds what [s] holds at the addresses
    that satisfy [P]. *)
Definition frame (P : nat -> Prop) (s s' : store) : Prop :=
  length s <= length s'
  /\ forall i, i < length s -> P i -> s' !! i = s !! i.

(** How deep the parameters of the anonymous mixin at most are: the list of
    named mixins, once made, is an object above them that none of them
    holds. *)
Definition anon_fuel (m : nat) (s : store) (mb : option nat) : nat :=
  length s - S m - match mb with Some _ => 1 | None => 0 end.

(** The loop over the keys of one test, between two keys: [a] is the
    anonymous mixin builder, [m] the per-test modification builder, [mb]
    the variable [mixins_builder]. *)
Definition test_inv (a m : nat) (s : store) (mb : option nat)
           (st : Den.test_state) : Prop :=
  a < m
  /\ (exists pa, s !! a = Some (CallValueBuilder "targets.mixin" pa None)
                 /\ params_rel (S m) (anon_fuel m s mb) s pa (Den.anon st))
  /\ (exists pm, s !! m = Some (CallValueBuilder "targets.per_test_modification"
                                                 pm (Some "mixins"))
                 /\ params_rel (S m) (length s - S m) s pm (Den.mods st))
  /\ match mb, Den.named st with
     | None, None => True
     | Some X, Some ts =>
         m < X
         /\ exists vs, s !! X = Some (ListValueBuilder (Ref a :: vs))
                       /\ values_rel (S X) (length s - S X) s vs ts
     | _, _ => False
     end.

(** The loop over the tests of a suite, between two tests: [T] is the
    targets builder, [D] the per-test modifications builder. *)
Definition suite_inv (T D : nat) (s : store)
           (acc : list Tree * list (string * Tree)) : Prop :=
  T < D
  /\ (exists vs, s !! T = Some (ListValueBuilder vs)
                 /\ values_rel 0 0 s vs (fst acc))
  /\ (exists items, s !! D = Some (DictValueBuilder items)
                    /\ params_rel (S D) (length s - S D) s items (snd acc)).

(** The loop over the entries of a matrix compound suite, between two
    entries. *)
Definition matrix_inv (T : nat) (s : store) (acc : list Tree) : Prop :=
  exists vs, s !! T = Some (ListValueBuilder vs)
             /\ values_rel (S T) (length s - S T) s vs acc.

(** ** Reading the rendered literals back

    Modelled from the spec: the target grammar that section 6 reads the
    rendered text under.  No reader of that grammar is part of the
    repository; this is its literal part: [None], [True], [False],
    decimal integers, double-quoted strings with backslash escapes, lists
    and dicts with a comma after each member; spaces and line ends
    separate tokens.  A line end inside a string literal and an unknown
    escape are errors. *)

Module Starlark.

(** Modelled from the spec: the white space of the target grammar. *)
Definition is_space (c : ascii) : bool :=
  Ascii.eqb c " " || Ascii.eqb c LF.

Definition is_digit (c : ascii) : bool :=
  existsb (Ascii.eqb c)
          ["0"; "1"; "2"; "3"; "4"; "5"; "6"; "7"; "8"; "9"]%char.

Definition is_alpha (c : ascii) : bool :=
  let n := nat_of_ascii c in
  (Nat.leb 65 n && Nat.leb n 90) || (Nat.leb 97 n && Nat.leb n 122)
  || Nat.eqb n 95.

Fixpoint skip_ws (s : string) : string :=
  match s with
  | "" => ""
  | String c r => if is_space c then skip_ws r else s
  end.

(** The longest prefix of [s] whose characters satisfy [p], and the rest. *)
Fixpoint span (p : ascii -> bool) (s : string) : string * string :=
  match s with
  | "" => ("", "")
  | String c r =>
      if p c then (String c (fst (span p r)), snd (span p r)) else ("", s)
  end.

(** Modelled from the spec: the character an escape of the target grammar
    stands for, by the character after the backslash. *)
Definition unescape (c : ascii) : option ascii :=
  if Ascii.eqb c DQ then Some DQ
  else if Ascii.eqb c BS then Some BS
  else if Ascii.eqb c "n" then Some LF
  else if Ascii.eqb c "t" then Some "009"%char
  else if Ascii.eqb c "r" then Some "013"%char
  else if Ascii.eqb c "'" then Some "'"%char
  else None.

(** Modelled from the spec: the characters of a string literal of the
    target grammar after its opening quote, up to the closing quote, and
    what follows it. *)
Fixpoint string_body (s : string) : option (string * string) :=
  match s with
  | "" => None
  | String c r =>
      if Ascii.eqb c DQ then Some ("", r)
      else if Ascii.eqb c LF then None
      else if Ascii.eqb c BS then
        match r with
        | "" => None
        | String e r' =>
            match unescape e with
            | Some x =>
                option_map (fun ab => (String x (fst ab), snd ab))
                           (string_body r')
            | None => None
            end
        end
      else option_map (fun ab => (String c (fst ab), snd ab)) (string_body r)
  end.

(** Modelled from the spec: a string, an integer or one of the three
    words of the target grammar at the head of [s], and what follows it. *)
Definition parse_atom (s : string) : option (PyAtom * string) :=
  match s with
  | "" => None
  | String c r =>
      if Ascii.eqb c DQ then
        option_map (fun ab => (PyStr (fst ab), snd ab)) (string_body r)
      else if Ascii.eqb c "-" || is_digit c then
        option_map (fun d => (PyInt (Z.of_int d), snd (span is_digit r)))
                   (NilZero.int_of_string (String c (fst (span is_digit r))))
      else
        let w := fst (span is_alpha s) in
        let rest := snd (span is_alpha s) in
        if String.eqb w "None" then Some (PyNone, rest)
        else if String.eqb w "True" then Some (PyBool true, rest)
        else if String.eqb w "False" then Some (PyBool false, rest)
        else None
  end.

(** Modelled from the spec: the members of a list of the target grammar
    after its opening bracket, [p] reading one value; [k] bounds their
    number. *)
Definition items (p : string -> option (PyVal * string))
  : nat -> string -> option (list PyVal * string) :=
  fix go (k : nat) (s : string) :=
    match k with
    | O => None
    | S k' =>
        match skip_ws s with
        | "" => None
        | String c r =>
            if Ascii.eqb c "]" then Some ([], r)
            else
              match p (String c r) with
              | None => None
              | Some (v, s1) =>
                  match skip_ws s1 with
                  | "" => None
                  | String c1 r1 =>
                      if Ascii.eqb c1 "," then
                        option_map (fun lr => (v :: fst lr, snd lr)) (go k' r1)
                      else if Ascii.eqb c1 "]" then Some ([v], r1)
                      else None
                  end
              end
        end
    end.

(** Modelled from the spec: the pairs of a dict of the target grammar
    after its opening brace; a key is an atom. *)
Definition pairs (p : string -> option (PyVal * string))
  : nat -> string -> option (list (PyAtom * PyVal) * string) :=
  fix go (k : nat) (s : string) :=
    match k with
    | O => None
    | S k' =>
        match skip_ws s with
        | "" => None
        | String c r =>
            if Ascii.eqb c "}" then Some ([], r)
            else
              match parse_atom (String c r) with
              | None => None
              | Some (key, s1) =>
                  match skip_ws s1 with
                  | "" => None
                  | String c1 r1 =>
                      if Ascii.eqb c1 ":" then
                        match p r1 with
                        | None => None
                        | Some (v, s2) =>
                            match skip_ws s2 with
                            | "" => None
                            | String c2 r2 =>
                                if Ascii.eqb c2 "," then
                                  option_map
                                    (fun dr => ((key, v) :: fst dr, snd dr))
                                    (go k' r2)
                                else if Ascii.eqb c2 "}" then
                                  Some ([(key, v)], r2)
                                else None
                            end
                        end
                      else None
                  end
              end
        end
    end.

(** Modelled from the spec: one value of the target grammar at the head
    of [s], nested [n] deep at most, and what follows it. *)
Fixpoint parse (n : nat) (s : string) : option (PyVal * string) :=
  match n with
  | O => None
  | S n' =>
      match skip_ws s with
      | "" => None
      | String c r =>
          if Ascii.eqb c "[" then
            option_map (fun lr => (PyList (fst lr), snd lr))
                       (items (parse n') n' r)
          else if Ascii.eqb c "{" then
            option_map (fun dr => (PyDict (fst dr), snd dr))
                       (pairs (parse n') n' r)
          else
            option_map (fun ar => (PyA (fst ar), snd ar))
                       (parse_atom (String c r))
      end
  end.

(** Modelled from the spec: re-parsing under the target grammar.  A whole
    text is one value; no parse is deeper than the text is long. *)
Definition parse_text (s : string) : option PyVal :=
  match parse (String.length s) s with
  | Some (v, rest) =>
      match skip_ws rest with
      | "" => Some v
      | _ => None
      end
  | None => None
  end.

(** The strings that come back as they were: no backslash, no line end. *)
Fixpoint plain_string (s : string) : bool :=
  match s with
  | "" => true
  | String c r => negb (Ascii.eqb c BS) && negb (Ascii.eqb c LF) && plain_string r
  end.

Definition plain_atom (a : PyAtom) : bool :=
  match a with
  | PyStr s => plain_string s
  | PyOther _ _ => false
  | _ => true
  end.

Definition atom_eqb (a b : PyAtom) : bool :=
  match a, b with
  | PyNone, PyNone => true
  | PyBool x, PyBool y => Bool.eqb x y
  | PyInt x, PyInt y => Z.eqb x y
  | PyStr x, PyStr y => String.eqb x y
  | PyOther r t, PyOther r' t' => String.eqb r r' && Bool.eqb t t'
  | _, _ => false
  end.

(** No two of the keys are the same. *)
Fixpoint distinct (keys : list PyAtom) : bool :=
  match keys with
  | [] => true
  | k :: keys' => negb (existsb (atom_eqb k) keys') && distinct keys'
  end.

(** The literal-convertible values the round trip holds for: compositions
    of null, booleans, integers, plain strings, lists and dicts. *)
Fixpoint plain (v : PyVal) : bool :=
  match v with
  | PyA a => plain_atom a
  | PyList l => forallb plain l
  | PyDict d =>
      forallb (fun kv => plain_atom (fst kv) && plain (snd kv)) d
      && distinct (map fst d)
  end.

(** What the converter renders for a value: [to_output(convert_direct(v))]
    in a store of its own. *)
Definition rendered (v : PyVal) : result (option string) :=
  call (let* x := convert_direct v in to_output x).

End Starlark.

(** For the proofs about [Starlark]: the text and the tree of a plain
    value, and what the next character of a text may be. *)
Module Lex.

Fixpoint all_chars (p : ascii -> bool) (s : string) : bool :=
  match s with
  | "" => true
  | String c r => p c && all_chars p r
  end.

Definition not_head (p : ascii -> bool) (s : string) : bool :=
  match s with
  | "" => true
  | String c _ => negb (p c)
  end.

Definition no_lf (s : string) : bool :=
  all_chars (fun c => negb (Ascii.eqb c LF)) s.

(** What may follow a value: nothing, a comma, a colon, white space. *)
Definition stop (rest : string) : bool :=
  match rest with
  | "" => true
  | String c _ => Ascii.eqb c "," || Ascii.eqb c ":" || Starlark.is_space c
  end.

(** The first character of a value, and of an atom. *)
Definition value_start (c : ascii) : bool :=
  negb (Starlark.is_space c) && negb (Ascii.eqb c "]")
  && negb (Ascii.eqb c "}").

Definition atom_start (c : ascii) : bool :=
  value_start c && negb (Ascii.eqb c "[") && negb (Ascii.eqb c "{")
  && negb (Ascii.eqb c ",") && negb (Ascii.eqb c ":").

Definition started (start : ascii -> bool) (x : string) : Prop :=
  exists c x', x = String c x' /\ start c = true.

Definition atom_text (a : PyAtom) : string :=
  match convert_atom a with
  | Ok t => t
  | Raise _ => ""
  end.

Fixpoint tree_of (v : PyVal) : Tree :=
  match v with
  | PyA a => TAtom (atom_text a)
  | PyList l => TList (map tree_of l)
  | PyDict d => TDict (map (fun kv => (atom_text (fst kv), tree_of (snd kv))) d)
  end.

(** [x] is the text of [v] at [u] columns, and reads back as [v]. *)
Definition reads_back (u : nat) (v : PyVal) (x : string) : Prop :=
  SpecTrees.render_at u (tree_of v) = Some x
  /\ started value_start x
  /\ forall n rest, String.length x <= n -> stop rest = true ->
                    Starlark.parse n (x +:+ rest) = Some (v, rest).

(** [e] is the pair of the key and the value [kv] of a dict, the value
    at [u] columns. *)
Definition pair_back (u : nat) (kv : PyAtom * PyVal) (e : string) : Prop :=
  exists x, e = atom_text (fst kv) +:+ ": " +:+ x
            /\ Starlark.plain_atom (fst kv) = true
            /\ reads_back u (snd kv) x.

End Lex.

(** ** Words for further properties of the converters *)

Module Cover.

(** Whether [convert_arg] has a result for the string [a]: it does not
    start with the magic prefix, or the table has it. *)
Definition known_arg (a : string) : bool :=
  negb (startswith a Spec.MAGIC_PREFIX)
  || match dict_get a _MAGIC_ARG_MAPPING with Some _ => true | None => false end.

(** The atom of a test argument: the constant of the table for a magic
    string, the quoted string for any other. *)
Definition arg_text (a : string) : string :=
  if startswith a Spec.MAGIC_PREFIX then
    match dict_get a _MAGIC_ARG_MAPPING with
    | Some name => "targets.magic_args." +:+ name
    | None => ""
    end
  else Spec.literal a.

(** The [repr] of a scalar that [convert_direct] has no branch for. *)
Definition unsupported_atom (a : PyAtom) : option string :=
  match a with
  | PyOther r _ => Some r
  | _ => None
  end.

(** The [repr] of the first value that [convert_direct] has no branch
    for, in the order in which it goes through a value: the elements of a
    list one after the other, each key of a dict before its value. *)
Fixpoint first_unsupported (v : PyVal) : option string :=
  match v with
  | PyA a => unsupported_atom a
  | PyList l =>
      (fix go (l : list PyVal) : option string :=
         match l with
         | [] => None
         | x :: l' =>
             match first_unsupported x with
             | Some r => Some r
             | None => go l'
             end
         end) l
  | PyDict d =>
      (fix go (d : list (PyAtom * PyVal)) : option string :=
         match d with
         | [] => None
         | kv :: d' =>
             match unsupported_atom (fst kv) with
             | Some r => Some r
             | None =>
                 match first_unsupported (snd kv) with
                 | Some r => Some r
                 | None => go d'
                 end
             end
         end) d
  end.

(** The keys of every dict in [v] differ from one another, as the keys of
    a Python dict do. *)
Fixpoint keyed (v : PyVal) : bool :=
  match v with
  | PyA _ => true
  | PyList l => forallb keyed l
  | PyDict d =>
      forallb (fun kv => keyed (snd kv)) d && Starlark.distinct (map fst d)
  end.

(** The parameter of [targets.swarming] a key of a swarming dict is
    assigned to: the three durations get the suffix [_sec]. *)
Definition swarming_name (key : string) : string :=
  if existsb (String.eqb key) ["expiration"; "hard_timeout"; "io_timeout"]
  then key +:+ "_sec"
  else key.

(** The keys of a test definition that the converter passes over. *)
Definition ignored_keys : list string :=
  ["results_handler"; "script"; "telemetry_test_name"; "test"; "test_common"].

(** The converter that [convert_basic_suite] sends the value of the key
    [k] of a test definition to, when the value goes into the anonymous
    mixin. *)
Definition field_converter (k : PyAtom) : option (PyVal -> M Value) :=
  if key_in k ignored_keys then None
  else if key_in k ["ci_only"; "experiment_percentage";
                    "use_isolated_scripts_api"] then Some convert_direct
  else if key_in k ["android_args"; "chromeos_args"; "desktop_args"; "args";
                    "lacros_args"; "linux_args"] then Some convert_args
  else if key_is k "resultdb" then Some convert_resultdb
  else if key_in k ["android_swarming"; "chromeos_swarming"; "swarming"]
  then Some convert_swarming
  else if key_is k "skylab" then Some convert_skylab
  else None.

(** The two shapes of the per-test modification of a test: the parameter
    [mixins] alone, or [remove_mixins] and then [mixins]. *)
Definition modification_shape (t : Tree) : Prop :=
  exists m,
    t = TCall "targets.per_test_modification" [("mixins", m)] (Some "mixins")
    \/ exists r,
        t = TCall "targets.per_test_modification"
                  [("remove_mixins", r); ("mixins", m)] (Some "mixins").

(** A test definition without the keys that are passed over. *)
Definition strip (keys : list (PyAtom * PyVal)) : list (PyAtom * PyVal) :=
  List.filter (fun kv => negb (key_in (fst kv) ignored_keys)) keys.

(** A suite, basic or matrix, given by the items of each of its entries. *)
Definition suite_items (tests : list (PyAtom * list (PyAtom * PyVal)))
  : PyVal :=
  PyDict (map (fun e => (fst e, PyDict (snd e))) tests).

End Cover.

(** * Proofs *)

(** ** Strings *)

Lemma append_nil_l (s : string) : "" +:+ s = s.
Proof. reflexivity. Qed.

Lemma append_cons (c : ascii) (a b : string) :
  String c a +:+ b = String c (a +:+ b).
Proof. reflexivity. Qed.

Lemma append_nil_r (s : string) : s +:+ "" = s.
Proof.
  induction s as [|c s IH]; [reflexivity|]. now rewrite append_cons, IH.
Qed.

Lemma append_assoc (a b c : string) : (a +:+ b) +:+ c = a +:+ (b +:+ c).
Proof.
  induction a as [|x a IH]; [reflexivity|]. now rewrite !append_cons, IH.
Qed.

Lemma length_append (a b : string) :
  String.length (a +:+ b) = String.length a + String.length b.
Proof.
  induction a as [|x a IH]; [reflexivity|].
  rewrite append_cons. cbn [String.length]. now rewrite IH.
Qed.

Lemma prefix_single (c : ascii) (s : string) (x : ascii) :
  String.prefix (String c "") (String x s) = Ascii.eqb x c.
Proof.
  cbn [String.prefix]. destruct (ascii_dec c x) as [->|Hne].
  - rewrite Ascii.eqb_refl. now destruct s.
  - destruct (Ascii.eqb_spec x c); congruence.
Qed.

(** Replacing a one-character pattern never has characters to skip. *)
Lemma replace_single (c : ascii) (new s : string) :
  replace s (String c "") new =
  (fix go (s : string) : string :=
     match s with
     | "" => ""
     | String x r => if Ascii.eqb x c then new +:+ go r else String x (go r)
     end) s.
Proof.
  unfold replace. induction s as [|x s IH]; [reflexivity|].
  cbn [replace_from]. rewrite prefix_single. cbn [String.length Nat.sub].
  rewrite IH. reflexivity.
Qed.

Lemma replace_quotes (s : string) :
  replace s dq (String BS dq) = Spec.escape_quotes s.
Proof.
  unfold dq. rewrite replace_single.
  induction s as [|x s IH]; [reflexivity|].
  cbn [Spec.escape_quotes]. destruct (Ascii.eqb x DQ);
    rewrite ?append_cons, ?append_nil_l; now rewrite IH.
Qed.

Lemma convert_atom_str (s : string) :
  convert_atom (PyStr s) = Ok (quoted (Spec.escape_quotes s)).
Proof. unfold convert_atom, quoted. now rewrite replace_quotes. Qed.

Lemma convert_direct_str (s : string) (st : store) :
  convert_direct (PyStr s) st = Ok (Atom (quoted (Spec.escape_quotes s)), st).
Proof.
  cbn [convert_direct]. unfold bind, lift, ret. now rewrite convert_atom_str.
Qed.

(** ** Dict assignment and lookup *)

Lemma dict_get_None {V : Type} (k : string) (d : list (string * V)) :
  (forall v, ~ In (k, v) d) -> dict_get k d = None.
Proof.
  induction d as [|[k' v'] d IH]; intros Hn; [reflexivity|].
  cbn [dict_get]. destruct (String.eqb_spec k' k) as [->|Hne].
  - exfalso. apply (Hn v'). now left.
  - apply IH. intros v Hin. apply (Hn v). now right.
Qed.

Lemma dict_get_set_eq {V : Type} (k : string) (v : V) (d : list (string * V)) :
  dict_get k (dict_set k v d) = Some v.
Proof.
  induction d as [|[k' v'] d IH]; cbn [dict_set dict_get].
  - now rewrite String.eqb_refl.
  - destruct (String.eqb_spec k' k) as [->|Hne]; cbn [dict_get].
    + now rewrite String.eqb_refl.
    + destruct (String.eqb_spec k' k); [congruence | exact IH].
Qed.

Lemma dict_get_set_ne {V : Type} (k k0 : string) (v : V)
      (d : list (string * V)) :
  k <> k0 -> dict_get k0 (dict_set k v d) = dict_get k0 d.
Proof.
  intros Hne. induction d as [|[k' v'] d IH]; cbn [dict_set dict_get].
  - destruct (String.eqb_spec k k0); [congruence | reflexivity].
  - destruct (String.eqb_spec k' k) as [->|Hne']; cbn [dict_get].
    + destruct (String.eqb_spec k k0); [congruence | reflexivity].
    + now rewrite IH.
Qed.

(** ** The store *)

Lemma bind_ok {A B : Type} (m : M A) (k : A -> M B) (s s' : store) (a : A) :
  m s = Ok (a, s') -> bind m k s = k a s'.
Proof. unfold bind. now intros ->. Qed.

Lemma bind_raise {A B : Type} (m : M A) (k : A -> M B) (s : store) (e : PyExc) :
  m s = Raise e -> bind m k s = Raise e.
Proof. unfold bind. now intros ->. Qed.

Lemma lift_ok {A : Type} (r : result A) (a : A) (s : store) :
  r = Ok a -> lift r s = Ok (a, s).
Proof. now intros ->. Qed.

Lemma lift_raise {A : Type} (r : result A) (e : PyExc) (s : store) :
  r = Raise e -> @lift A r s = Raise e.
Proof. now intros ->. Qed.

Lemma bind_lift_ok {A B : Type} (a : A) (k : A -> M B) (s : store) :
  bind (lift (Ok a)) k s = k a s.
Proof. reflexivity. Qed.

Lemma bind_lift_raise {A B : Type} (e : PyExc) (k : A -> M B) (s : store) :
  bind (lift (Raise e)) k s = Raise e.
Proof. reflexivity. Qed.

(** [s'] holds what [s] holds at every address from [lo] on. *)
Definition agree (lo : nat) (s s' : store) : Prop :=
  forall i, lo <= i -> i < length s -> s' !! i = s !! i.

Lemma agree_refl (lo : nat) (s : store) : agree lo s s.
Proof. now intros i _ _. Qed.

Lemma agree_app (lo : nat) (s d : store) : agree lo s (s ++ d).
Proof. intros i _ Hi. now apply lookup_app_l. Qed.

Lemma agree_trans (lo : nat) (s1 s2 s3 : store) :
  length s1 <= length s2 -> agree lo s1 s2 -> agree lo s2 s3 -> agree lo s1 s3.
Proof.
  intros Hl H12 H23 i Hlo Hi. rewrite H23 by lia. now apply H12.
Qed.

Lemma agree_weaken (lo lo' : nat) (s s' : store) :
  lo <= lo' -> agree lo s s' -> agree lo' s s'.
Proof. intros Hle H i Hlo Hi. apply H; lia. Qed.

Lemma agree_insert (lo r : nat) (b : Builder) (s : store) :
  r < lo -> agree lo s (<[r := b]> s).
Proof. intros Hr i Hlo _. apply list_lookup_insert_ne. lia. Qed.

Section Snapshot.

Import Den.

Lemma snapshot_in_atom (lo n : nat) (s : store) (a : string) :
  snapshot_in lo n s (Atom a) = Some (TAtom a).
Proof. now destruct n. Qed.

Lemma snapshot_in_mono (lo lo' n : nat) :
  forall (n' : nat) (s s' : store) (v : Value) (t : Tree),
    snapshot_in lo n s v = Some t ->
    lo' <= lo -> n <= n' -> agree lo s s' ->
    snapshot_in lo' n' s' v = Some t.
Proof.
  induction n as [|n IH]; intros n' s s' v t Hs Hlo Hn Hag.
  - destruct v; [|discriminate Hs].
    rewrite snapshot_in_atom in Hs. now rewrite snapshot_in_atom.
  - destruct v as [a|r].
    { rewrite snapshot_in_atom in Hs. now rewrite snapshot_in_atom. }
    destruct n' as [|n']; [lia|]. cbn [snapshot_in] in Hs |- *.
    destruct (Nat.ltb_spec r lo) as [|Hr]; [discriminate Hs|].
    destruct (Nat.ltb_spec r lo') as [|_]; [lia|].
    destruct (s !! r) as [b|] eqn:Hb; [|discriminate Hs].
    rewrite (Hag r Hr (lookup_lt_Some _ _ _ Hb)), Hb.
    assert (Hch : forall x y, snapshot_in lo n s x = Some y ->
                              snapshot_in lo' n' s' x = Some y).
    { intros x y Hx. apply (IH n' s s' x y Hx); [lia | lia | exact Hag]. }
    destruct b as [es|kvs|f ps el];
      apply fmap_Some in Hs as (l & Hl & ->); apply fmap_Some;
      eexists; split; try reflexivity;
      apply mapM_Some; apply mapM_Some in Hl;
      (eapply Forall2_impl; [exact Hl|]); cbn beta.
    + exact Hch.
    + intros kv kt Hk. apply fmap_Some in Hk as (y & Hy & ->).
      now rewrite (Hch _ _ Hy).
    + intros kv kt Hk. apply fmap_Some in Hk as (y & Hy & ->).
      now rewrite (Hch _ _ Hy).
Qed.

Lemma snapshot_in_snapshot (n : nat) :
  forall (lo : nat) (s : store) (v : Value) (t : Tree),
    snapshot_in lo n s v = Some t -> snapshot n s v = Some t.
Proof.
  induction n as [|n IH]; intros lo s v t Hs.
  - destruct v; [exact Hs | discriminate Hs].
  - destruct v as [a|r]; [exact Hs|].
    cbn [snapshot_in] in Hs. cbn [snapshot].
    destruct (Nat.ltb r lo); [discriminate Hs|].
    destruct (s !! r) as [b|]; [|discriminate Hs].
    destruct b as [es|kvs|f ps el];
      apply fmap_Some in Hs as (l & Hl & ->); apply fmap_Some;
      eexists; split; try reflexivity;
      apply mapM_Some; apply mapM_Some in Hl;
      (eapply Forall2_impl; [exact Hl|]); cbn beta.
    + intros x y. apply IH.
    + intros kv kt Hk. apply fmap_Some in Hk as (y & Hy & ->).
      now rewrite (IH _ _ _ _ Hy).
    + intros kv kt Hk. apply fmap_Some in Hk as (y & Hy & ->).
      now rewrite (IH _ _ _ _ Hy).
Qed.

End Snapshot.

(** ** The converters of [starlark_conversions] build the trees of [Den] *)

Lemma PyVal_ind' (P : PyVal -> Prop)
      (Ha : forall a, P (PyA a))
      (Hl : forall l, Forall P l -> P (PyList l))
      (Hd : forall d, Forall (fun kv => P (snd kv)) d -> P (PyDict d)) :
  forall v, P v.
Proof.
  fix IH 1. intros [a|l|d].
  - apply Ha.
  - apply Hl. induction l as [|v l IHl]; constructor; [apply IH | exact IHl].
  - apply Hd. induction d as [|[k v] d IHd]; constructor;
      [apply IH | exact IHd].
Qed.

Lemma map_m_cons {A B : Type} (f : A -> M B) (x : A) (xs : list A) :
  map_m f (x :: xs)
  = (let* y := f x in let* ys := map_m f xs in ret (y :: ys)).
Proof. reflexivity. Qed.

Lemma fresh_atom (s : store) (a : string) : fresh s (Atom a) s (TAtom a).
Proof.
  exists []. rewrite app_nil_r. split; [reflexivity|].
  apply snapshot_in_atom.
Qed.

Lemma fresh_snapshot_in (s s' s'' : store) (x : Value) (t : Tree) (lo n : nat) :
  fresh s x s' t -> lo <= length s -> length s' - length s <= n ->
  agree (length s) s' s'' ->
  Den.snapshot_in lo n s'' x = Some t.
Proof.
  intros (d & -> & Hs) Hlo Hn Hag.
  eapply snapshot_in_mono; [exact Hs | exact Hlo | | exact Hag].
  rewrite length_app in Hn. lia.
Qed.

Lemma map_m_sim {A : Type} (f : A -> M Value) (g : A -> result Tree)
      (l : list A) :
  Forall (fun a => forall s, sim (f a) (g a) s (fresh s)) l ->
  forall s, sim (map_m f l) (Den.map_r g l) s (fresh_all s).
Proof.
  induction 1 as [|a l Ha _ IH]; intros s.
  - exists [], s. split; [reflexivity|]. exists [].
    rewrite app_nil_r. split; [reflexivity | constructor].
  - rewrite map_m_cons. cbn [Den.map_r]. specialize (Ha s).
    unfold sim in Ha |- *.
    destruct (g a) as [t|e]; cbn [Den.rbind];
      [|now rewrite (bind_raise _ _ _ _ Ha)].
    destruct Ha as (x & s1 & Hx & d1 & -> & Hsnap).
    rewrite (bind_ok _ _ _ _ _ Hx).
    specialize (IH (s ++ d1)). unfold sim in IH |- *.
    destruct (Den.map_r g l) as [ts|e]; cbn [Den.rbind];
      [|now rewrite (bind_raise _ _ _ _ IH)].
    destruct IH as (xs & s2 & Hxs & d2 & -> & Hall).
    rewrite (bind_ok _ _ _ _ _ Hxs).
    exists (x :: xs), ((s ++ d1) ++ d2). split; [reflexivity|].
    exists (d1 ++ d2). split; [now rewrite app_assoc|]. constructor.
    + eapply snapshot_in_mono; [exact Hsnap | lia | | apply agree_app].
      rewrite length_app. lia.
    + eapply Forall2_impl; [exact Hall|]. cbn beta. intros y t' Hy.
      eapply snapshot_in_mono; [exact Hy | | | apply agree_refl];
        rewrite !length_app; lia.
Qed.

Lemma values_rel_mono (lo lo' n n' : nat) (s s' : store) (xs : list Value)
      (ts : list Tree) :
  values_rel lo n s xs ts -> lo' <= lo -> n <= n' -> agree lo s s' ->
  values_rel lo' n' s' xs ts.
Proof.
  intros H Hlo Hn Hag. eapply Forall2_impl; [exact H|]. cbn beta.
  intros x t Hx. eapply snapshot_in_mono; eassumption.
Qed.

Lemma params_rel_mono (lo lo' n n' : nat) (s s' : store)
      (ps : list (string * Value)) (pts : list (string * Tree)) :
  params_rel lo n s ps pts -> lo' <= lo -> n <= n' -> agree lo s s' ->
  params_rel lo' n' s' ps pts.
Proof.
  intros H Hlo Hn Hag. eapply Forall2_impl; [exact H|]. cbn beta.
  intros kv kt [Hk Hx]. split; [exact Hk|].
  eapply snapshot_in_mono; eassumption.
Qed.

Lemma params_rel_dict_set (lo n : nat) (s : store) (k : string) (v : Value)
      (t : Tree) (ps : list (string * Value)) (pts : list (string * Tree)) :
  params_rel lo n s ps pts -> Den.snapshot_in lo n s v = Some t ->
  params_rel lo n s (dict_set k v ps) (dict_set k t pts).
Proof.
  intros H Hv. induction H as [|[k1 v1] [k2 t2] ps pts [Hk Hx] Hps IH].
  - constructor; [now split | constructor].
  - cbn [fst snd] in Hk, Hx. subst k2. cbn [dict_set].
    destruct (String.eqb k1 k).
    + constructor; [now split | exact Hps].
    + constructor; [now split | exact IH].
Qed.

Lemma values_rel_mapM (lo n : nat) (s : store) (xs : list Value)
      (ts : list Tree) :
  values_rel lo n s xs ts -> mapM (Den.snapshot_in lo n s) xs = Some ts.
Proof. intros H. now apply mapM_Some. Qed.

Lemma params_rel_mapM (lo n : nat) (s : store) (ps : list (string * Value))
      (pts : list (string * Tree)) :
  params_rel lo n s ps pts ->
  mapM (fun kv => pair (fst kv) <$> Den.snapshot_in lo n s (snd kv)) ps
  = Some pts.
Proof.
  intros H. apply mapM_Some. eapply Forall2_impl; [exact H|]. cbn beta.
  intros [k v] [k' t] [Hk Hx]. cbn [fst snd] in *. subst k'.
  now rewrite Hx.
Qed.

Lemma snapshot_in_list (lo n r : nat) (s : store) (xs : list Value)
      (ts : list Tree) :
  s !! r = Some (ListValueBuilder xs) -> lo <= r -> values_rel lo n s xs ts ->
  Den.snapshot_in lo (S n) s (Ref r) = Some (TList ts).
Proof.
  intros Hr Hlo H. cbn [Den.snapshot_in].
  destruct (Nat.ltb_spec r lo) as [|_]; [lia|].
  now rewrite Hr, (values_rel_mapM _ _ _ _ _ H).
Qed.

Lemma snapshot_in_dict (lo n r : nat) (s : store) (ps : list (string * Value))
      (pts : list (string * Tree)) :
  s !! r = Some (DictValueBuilder ps) -> lo <= r -> params_rel lo n s ps pts ->
  Den.snapshot_in lo (S n) s (Ref r) = Some (TDict pts).
Proof.
  intros Hr Hlo H. cbn [Den.snapshot_in].
  destruct (Nat.ltb_spec r lo) as [|_]; [lia|].
  now rewrite Hr, (params_rel_mapM _ _ _ _ _ H).
Qed.

Lemma snapshot_in_call (lo n r : nat) (s : store) (f : string)
      (el : option string) (ps : list (string * Value))
      (pts : list (string * Tree)) :
  s !! r = Some (CallValueBuilder f ps el) -> lo <= r ->
  params_rel lo n s ps pts ->
  Den.snapshot_in lo (S n) s (Ref r) = Some (TCall f pts el).
Proof.
  intros Hr Hlo H. cbn [Den.snapshot_in].
  destruct (Nat.ltb_spec r lo) as [|_]; [lia|].
  now rewrite Hr, (params_rel_mapM _ _ _ _ _ H).
Qed.

Lemma lookup_snoc (s : store) (b : Builder) : (s ++ [b]) !! length s = Some b.
Proof. now rewrite list_lookup_middle. Qed.

Lemma comprehension_cons (f : PyVal -> M Value) (acc : list (string * Value))
      (kv : PyAtom * PyVal) (d : list (PyAtom * PyVal)) :
  comprehension f acc (kv :: d)
  = (let* k' := lift (convert_atom (fst kv)) in
     let* v' := f (snd kv) in
     comprehension f (dict_set k' v' acc) d).
Proof. reflexivity. Qed.

Lemma comprehension_r_cons (g : PyVal -> result Tree)
      (acc : list (string * Tree)) (kv : PyAtom * PyVal)
      (d : list (PyAtom * PyVal)) :
  Den.comprehension_r g acc (kv :: d)
  = Den.rbind (convert_atom (fst kv)) (fun k' =>
    Den.rbind (g (snd kv)) (fun v' =>
    Den.comprehension_r g (dict_set k' v' acc) d)).
Proof. reflexivity. Qed.

Lemma comprehension_sim (f : PyVal -> M Value) (g : PyVal -> result Tree)
      (d : list (PyAtom * PyVal)) :
  Forall (fun kv => forall s, sim (f (snd kv)) (g (snd kv)) s (fresh s)) d ->
  forall (s0 s : store) (acc : list (string * Value))
         (tacc : list (string * Tree)),
    (exists d0, s = s0 ++ d0
                /\ params_rel (length s0) (length d0) s acc tacc) ->
    sim (comprehension f acc d) (Den.comprehension_r g tacc d) s
        (fun items s' titems =>
           exists d', s' = s0 ++ d'
                      /\ params_rel (length s0) (length d') s' items titems).
Proof.
  induction 1 as [|[k v] d Hv _ IH]; intros s0 s acc tacc (d0 & -> & Hacc).
  - exists acc, (s0 ++ d0). split; [reflexivity|]. now exists d0.
  - rewrite comprehension_cons, comprehension_r_cons.
    cbn [fst snd] in Hv |- *. unfold sim. destruct (convert_atom k) as [k'|e] eqn:Hk; cbn [Den.rbind];
      [|now rewrite bind_lift_raise].
    rewrite bind_lift_ok.
    specialize (Hv (s0 ++ d0)). unfold sim in Hv.
    destruct (g v) as [t|e]; cbn [Den.rbind];
      [|now rewrite (bind_raise _ _ _ _ Hv)].
    destruct Hv as (x & s1 & Hx & d1 & -> & Hsnap).
    rewrite (bind_ok _ _ _ _ _ Hx).
    apply (IH s0). exists (d0 ++ d1). split; [now rewrite app_assoc|].
    apply params_rel_dict_set.
    + eapply params_rel_mono; [exact Hacc | lia | | apply agree_app].
      rewrite length_app. lia.
    + eapply snapshot_in_mono; [exact Hsnap | | | apply agree_refl];
        rewrite !length_app; lia.
Qed.

Lemma convert_direct_sim (v : PyVal) :
  forall s, sim (convert_direct v) (Den.direct v) s (fresh s).
Proof.
  induction v as [a|l IH|d IH] using PyVal_ind'; intros s;
    cbn [convert_direct Den.direct]; unfold sim.
  - destruct (convert_atom a) as [t|e] eqn:Ha; cbn [Den.rbind].
    + rewrite bind_lift_ok.
      exists (Atom t), s. split; [reflexivity | apply fresh_atom].
    + now rewrite bind_lift_raise.
  - pose proof (map_m_sim convert_direct Den.direct l IH s) as Hm.
    unfold sim in Hm. destruct (Den.map_r Den.direct l) as [ts|e];
      cbn [Den.rbind]; [|now rewrite (bind_raise _ _ _ _ Hm)].
    destruct Hm as (xs & s1 & Hxs & d1 & -> & Hall).
    rewrite (bind_ok _ _ _ _ _ Hxs).
    exists (Ref (length (s ++ d1))), ((s ++ d1) ++ [ListValueBuilder xs]).
    split; [reflexivity|]. exists (d1 ++ [ListValueBuilder xs]).
    split; [now rewrite app_assoc|].
    rewrite length_app, Nat.add_1_r. eapply snapshot_in_list.
    + apply lookup_snoc.
    + rewrite length_app. lia.
    + eapply values_rel_mono;
        [exact Hall | lia | lia | apply agree_app].
  - pose proof (comprehension_sim convert_direct Den.direct d IH s s [] []) as Hm.
    unfold sim in Hm.
    destruct (Den.comprehension_r Den.direct [] d) as [ts|e];
      cbn [Den.rbind].
    + destruct Hm as (xs & s1 & Hxs & d1 & -> & Hall).
      { exists []. rewrite app_nil_r. split; [reflexivity | constructor]. }
      rewrite (bind_ok _ _ _ _ _ Hxs).
      exists (Ref (length (s ++ d1))), ((s ++ d1) ++ [DictValueBuilder xs]).
      split; [reflexivity|]. exists (d1 ++ [DictValueBuilder xs]).
      split; [now rewrite app_assoc|].
      rewrite length_app, Nat.add_1_r. eapply snapshot_in_dict.
      * apply lookup_snoc.
      * rewrite length_app. lia.
      * eapply params_rel_mono;
          [exact Hall | lia | lia | apply agree_app].
    + rewrite (bind_raise _ _ _ e); [reflexivity|]. apply Hm.
      exists []. rewrite app_nil_r. split; [reflexivity | constructor].
Qed.

Lemma keeps_refl (n : nat) (s : store) : keeps n s s.
Proof. split; [lia | now intros]. Qed.

Lemma keeps_trans (n : nat) (s1 s2 s3 : store) :
  keeps n s1 s2 -> keeps n s2 s3 -> keeps n s1 s3.
Proof.
  intros [Hl1 H1] [Hl2 H2]. split; [lia|].
  intros i Hi. now rewrite H2, H1.
Qed.

Lemma keeps_app (n : nat) (s d : store) : n <= length s -> keeps n s (s ++ d).
Proof.
  intros Hn. split; [rewrite length_app; lia|].
  intros i Hi. apply lookup_app_l. lia.
Qed.

Lemma keeps_insert (n r : nat) (b : Builder) (s : store) :
  n <= r -> keeps n s (<[r := b]> s).
Proof.
  intros Hn. split; [now rewrite length_insert|].
  intros i Hi. apply list_lookup_insert_ne. lia.
Qed.

Lemma keeps_weaken (n n' : nat) (s s' : store) :
  n' <= n -> keeps n s s' -> keeps n' s s'.
Proof. intros Hn [Hl H]. split; [exact Hl|]. intros i Hi. apply H. lia. Qed.

Lemma keeps_extends (s0 d0 s' : store) :
  keeps (length s0) (s0 ++ d0) s' -> exists d, s' = s0 ++ d.
Proof.
  intros [Hl H]. exists (drop (length s0) s').
  rewrite <- (take_drop (length s0) s') at 1. f_equal.
  apply list_eq. intros i. destruct (Nat.lt_ge_cases i (length s0)) as [Hi|Hi].
  - rewrite lookup_take_lt by exact Hi. rewrite H by exact Hi.
    now apply lookup_app_l.
  - rewrite lookup_take_ge by exact Hi. symmetry. now apply lookup_ge_None.
Qed.

Lemma setitem_call (r : nat) (key : string) (v : Value) (s : store)
      (f : string) (ps : list (string * Value)) (el : option string) :
  s !! r = Some (CallValueBuilder f ps el) ->
  setitem r key v s
  = Ok (tt, <[r := CallValueBuilder f (dict_set key v ps) el]> s).
Proof. unfold setitem. now intros ->. Qed.

Lemma setitem_dict (r : nat) (key : string) (v : Value) (s : store)
      (kvs : list (string * Value)) :
  s !! r = Some (DictValueBuilder kvs) ->
  setitem r key v s = Ok (tt, <[r := DictValueBuilder (dict_set key v kvs)]> s).
Proof. unfold setitem. now intros ->. Qed.

Lemma append_list (r : nat) (v : Value) (s : store) (es : list Value) :
  s !! r = Some (ListValueBuilder es) ->
  append r v s = Ok (tt, <[r := ListValueBuilder (es ++ [v])]> s).
Proof. unfold append. now intros ->. Qed.

Lemma for_each_cons {A : Type} (x : A) (xs : list A) (body : A -> M unit) :
  for_each (x :: xs) body = (run body x in for_each xs body).
Proof. reflexivity. Qed.

Lemma for_each_ext {A : Type} (xs : list A) (body body' : A -> M unit) :
  (forall x, body x = body' x) -> for_each xs body = for_each xs body'.
Proof.
  intros H. induction xs as [|x xs IH]; [reflexivity|].
  now rewrite !for_each_cons, H, IH.
Qed.

Lemma assign_m_eq (vb : nat) (param : PyAtom -> result string)
      (kv : PyAtom * PyVal) :
  Den.assign_m vb param kv
  = match param (fst kv) with
    | Ok name => let* v := convert_direct (snd kv) in setitem vb name v
    | Raise e => raise e
    end.
Proof. reflexivity. Qed.

Lemma assign_eq (param : PyAtom -> result string) (ps : list (string * Tree))
      (kv : PyAtom * PyVal) :
  Den.assign param ps kv
  = Den.rbind (param (fst kv)) (fun name =>
    Den.rbind (Den.direct (snd kv)) (fun t => Ok (dict_set name t ps))).
Proof. reflexivity. Qed.

(** The key loop of a call builder at [vb]: the objects below [vb] are left
    alone, and the parameters stand for what [Den.assign] folds. *)
Lemma assign_loop_sim (vb : nat) (param : PyAtom -> result string)
      (f : string) (el : option string) (items : list (PyAtom * PyVal)) :
  forall (s : store) (ps : list (string * Value)) (tps : list (string * Tree)),
    s !! vb = Some (CallValueBuilder f ps el) ->
    params_rel (S vb) (length s - S vb) s ps tps ->
    sim (for_each items (Den.assign_m vb param))
        (Den.fold_r items tps (Den.assign param)) s
        (fun _ s' tps' =>
           keeps vb s s'
           /\ exists ps', s' !! vb = Some (CallValueBuilder f ps' el)
                          /\ params_rel (S vb) (length s' - S vb) s' ps' tps').
Proof.
  induction items as [|[k v] items IH]; intros s ps tps Hvb Hps.
  - exists tt, s. split; [reflexivity|]. split; [apply keeps_refl|].
    now exists ps.
  - rewrite for_each_cons. cbn [Den.fold_r]. unfold sim.
    rewrite assign_m_eq, assign_eq. cbn [fst snd].
    destruct (param k) as [name|e]; cbn [Den.rbind]; [|reflexivity].
    pose proof (convert_direct_sim v s) as Hv. unfold sim in Hv.
    destruct (Den.direct v) as [t|e]; cbn [Den.rbind];
      [|unfold bind at 1 2; now rewrite Hv].
    destruct Hv as (x & s1 & Hx & d1 & -> & Hsnap).
    pose proof (lookup_lt_Some _ _ _ Hvb) as Hlt.
    assert (Hvb1 : (s ++ d1) !! vb = Some (CallValueBuilder f ps el))
      by now rewrite lookup_app_l.
    set (s2 := <[vb := CallValueBuilder f (dict_set name x ps) el]> (s ++ d1)).
    assert (Hstep : (run (let* v := convert_direct v in setitem vb name v)
                     in for_each items (Den.assign_m vb param)) s
                    = for_each items (Den.assign_m vb param) s2).
    { unfold bind. rewrite Hx. now rewrite (setitem_call _ _ _ _ _ _ _ Hvb1). }
    rewrite Hstep.
    assert (Hl2 : length s2 = length s + length d1)
      by (unfold s2; now rewrite length_insert, length_app).
    assert (Hk2 : keeps vb s s2).
    { eapply keeps_trans; [apply (keeps_app vb s d1); lia|].
      apply keeps_insert. lia. }
    assert (Hvb2 : s2 !! vb = Some (CallValueBuilder f (dict_set name x ps) el)).
    { unfold s2. apply list_lookup_insert_eq. rewrite length_app. lia. }
    assert (Hps2 : params_rel (S vb) (length s2 - S vb) s2
                              (dict_set name x ps) (dict_set name t tps)).
    { apply params_rel_dict_set.
      - eapply params_rel_mono; [exact Hps | lia | lia |].
        intros i Hi1 Hi2. unfold s2.
        rewrite list_lookup_insert_ne by lia. now apply lookup_app_l.
      - eapply snapshot_in_mono; [exact Hsnap | lia | lia |].
        intros i Hi1 Hi2. unfold s2. apply list_lookup_insert_ne. lia. }
    specialize (IH s2 _ _ Hvb2 Hps2). unfold sim in IH.
    destruct (Den.fold_r items (dict_set name t tps) (Den.assign param))
      as [tps'|e]; [|exact IH].
    destruct IH as (u & s3 & Hloop & Hk3 & ps' & Hvb3 & Hps3).
    exists u, s3. split; [exact Hloop|]. split.
    + eapply keeps_trans; eassumption.
    + now exists ps'.
Qed.

Lemma sim_ext {A T : Type} (m m' : M A) (d : result T) (s : store)
      (R : A -> store -> T -> Prop) :
  m s = m' s -> sim m' d s R -> sim m d s R.
Proof. unfold sim. now intros ->. Qed.

Lemma sim_weaken {A T : Type} (m : M A) (d : result T) (s : store)
      (R R' : A -> store -> T -> Prop) :
  (forall a s' t, R a s' t -> R' a s' t) -> sim m d s R -> sim m d s R'.
Proof.
  unfold sim. intros HR. destruct d as [t|e]; [|easy].
  intros (a & s' & Hm & Ha). exists a, s'. split; [exact Hm | now apply HR].
Qed.

Lemma build_call_sim (f : string) (param : PyAtom -> result string)
      (ps0 : list (string * Value)) (tps0 : list (string * Tree))
      (v : PyVal) (s : store) :
  (forall lo n s', params_rel lo n s' ps0 tps0) ->
  sim (Den.build_call f ps0 param v) (Den.call_of f param tps0 v) s (fresh s).
Proof.
  intros Hps0. unfold Den.build_call, Den.call_of, sim.
  set (b := CallValueBuilder f ps0 None).
  assert (Hnew : new_call f ps0 None s = Ok (length s, s ++ [b])) by reflexivity.
  rewrite (bind_ok _ _ _ _ _ Hnew).
  destruct (py_items v) as [items|e]; cbn [Den.rbind];
    [rewrite bind_lift_ok | now rewrite bind_lift_raise].
  pose proof (assign_loop_sim (length s) param f None items (s ++ [b]) ps0 tps0
                              (lookup_snoc s b) (Hps0 _ _ _)) as Hloop.
  unfold sim in Hloop.
  destruct (Den.fold_r items tps0 (Den.assign param)) as [tps|e];
    cbn [Den.rbind]; [|now rewrite (bind_raise _ _ _ _ Hloop)].
  destruct Hloop as (u & s' & Hrun & Hk & ps' & Hvb & Hps').
  rewrite (bind_ok _ _ _ _ _ Hrun).
  exists (Ref (length s)), s'. split; [reflexivity|].
  destruct (keeps_extends s [b] s' Hk) as (d & ->).
  exists d. split; [reflexivity|].
  destruct Hk as [Hlen _]. rewrite !length_app in Hlen. cbn [length] in Hlen.
  destruct d as [|b0 d]; [cbn [length] in Hlen; lia|]. cbn [length].
  eapply snapshot_in_call; [exact Hvb | lia |].
  eapply params_rel_mono; [exact Hps' | lia | | apply agree_refl].
  rewrite length_app. cbn [length]. lia.
Qed.

Lemma convert_resultdb_eq (v : PyVal) (s : store) :
  convert_resultdb v s
  = Den.build_call "targets.resultdb" [] Den.resultdb_param v s.
Proof.
  unfold convert_resultdb, Den.build_call, bind.
  destruct (new_call "targets.resultdb" [] None s) as [[vb s1]|e]; [|reflexivity].
  destruct (lift (py_items v) s1) as [[items s2]|e]; [|reflexivity].
  rewrite (for_each_ext items _ (Den.assign_m vb Den.resultdb_param));
    [reflexivity|].
  intros [k x]. rewrite assign_m_eq. unfold Den.resultdb_param. cbn [fst snd].
  now destruct (key_is k "enable").
Qed.

Lemma convert_swarming_eq (v : PyVal) (s : store) :
  convert_swarming v s
  = Den.build_call "targets.swarming" [] Den.swarming_param v s.
Proof.
  unfold convert_swarming, Den.build_call, bind.
  destruct (new_call "targets.swarming" [] None s) as [[vb s1]|e]; [|reflexivity].
  destruct (lift (py_items v) s1) as [[items s2]|e]; [|reflexivity].
  rewrite (for_each_ext items _ (Den.assign_m vb Den.swarming_param));
    [reflexivity|].
  intros [k x]. rewrite assign_m_eq. unfold Den.swarming_param. cbn [fst snd].
  destruct (key_in k _); [reflexivity|].
  repeat (destruct (key_is k _); [reflexivity|]). reflexivity.
Qed.

Lemma convert_skylab_eq (v : PyVal) (s : store) :
  convert_skylab v s = Den.build_call "targets.skylab" [] Den.skylab_param v s.
Proof.
  unfold convert_skylab, Den.build_call, bind.
  destruct (new_call "targets.skylab" [] None s) as [[vb s1]|e]; [|reflexivity].
  destruct (lift (py_items v) s1) as [[items s2]|e]; [|reflexivity].
  rewrite (for_each_ext items _ (Den.assign_m vb Den.skylab_param));
    [reflexivity|].
  intros [k x]. rewrite assign_m_eq. unfold Den.skylab_param. cbn [fst snd].
  now destruct (key_in k _).
Qed.

Lemma no_params (lo n : nat) (s : store) : params_rel lo n s [] [].
Proof. constructor. Qed.

Lemma convert_resultdb_sim (v : PyVal) (s : store) :
  sim (convert_resultdb v) (Den.resultdb v) s (fresh s).
Proof.
  eapply sim_ext; [apply convert_resultdb_eq|].
  apply build_call_sim. intros; apply no_params.
Qed.

Lemma convert_swarming_sim (v : PyVal) (s : store) :
  sim (convert_swarming v) (Den.swarming v) s (fresh s).
Proof.
  eapply sim_ext; [apply convert_swarming_eq|].
  apply build_call_sim. intros; apply no_params.
Qed.

Lemma convert_skylab_sim (v : PyVal) (s : store) :
  sim (convert_skylab v) (Den.skylab v) s (fresh s).
Proof.
  eapply sim_ext; [apply convert_skylab_eq|].
  apply build_call_sim. intros; apply no_params.
Qed.

Lemma convert_arg_sim (v : PyVal) (s : store) :
  sim (convert_arg v) (Den.arg v) s (fresh s).
Proof.
  destruct v as [[| | |a|]| |]; try reflexivity.
  unfold convert_arg, Den.arg.
  destruct (startswith a "$$MAGIC_SUBSTITUTION_").
  - destruct (dict_get a _MAGIC_ARG_MAPPING) as [name|]; [|reflexivity].
    eexists _, s. split; [reflexivity | apply fresh_atom].
  - apply convert_direct_sim.
Qed.

Lemma fresh_new_list (s s1 : store) (xs : list Value) (ts : list Tree) :
  fresh_all s xs s1 ts ->
  fresh s (Ref (length s1)) (s1 ++ [ListValueBuilder xs]) (TList ts).
Proof.
  intros (d1 & -> & Hall). exists (d1 ++ [ListValueBuilder xs]).
  split; [now rewrite app_assoc|].
  rewrite length_app, Nat.add_1_r. eapply snapshot_in_list.
  - apply lookup_snoc.
  - rewrite length_app. lia.
  - eapply values_rel_mono; [exact Hall | lia | lia | apply agree_app].
Qed.

Lemma convert_args_sim (v : PyVal) (s : store) :
  sim (convert_args v) (Den.args v) s (fresh s).
Proof.
  unfold convert_args, Den.args, sim.
  destruct (py_iter v) as [l|e]; cbn [Den.rbind];
    [rewrite bind_lift_ok | now rewrite bind_lift_raise].
  assert (Hall : Forall (fun a => forall s, sim (convert_arg a) (Den.arg a) s
                                            (fresh s)) l).
  { apply Forall_forall. intros a _ s'. apply convert_arg_sim. }
  pose proof (map_m_sim convert_arg Den.arg l Hall s) as Hm. unfold sim in Hm.
  destruct (Den.map_r Den.arg l) as [ts|e]; cbn [Den.rbind];
    [|now rewrite (bind_raise _ _ _ _ Hm)].
  destruct Hm as (xs & s1 & Hxs & Hfresh).
  rewrite (bind_ok _ _ _ _ _ Hxs).
  exists (Ref (length s1)), (s1 ++ [ListValueBuilder xs]).
  split; [reflexivity | now apply fresh_new_list].
Qed.

Lemma conv_sim (c : Den.conv) (v : PyVal) (s : store) :
  sim (Den.conv_m c v) (Den.conv_den c v) s (fresh s).
Proof.
  destruct c; cbn [Den.conv_m Den.conv_den].
  - apply convert_direct_sim.
  - apply convert_args_sim.
  - apply convert_resultdb_sim.
  - apply convert_swarming_sim.
  - apply convert_skylab_sim.
Qed.

(** ** [convert_basic_suite] builds the trees of [Den.basic_suite] *)

Lemma frame_refl (P : nat -> Prop) (s : store) : frame P s s.
Proof. split; [lia | now intros]. Qed.

Lemma frame_trans (P Q R : nat -> Prop) (s1 s2 s3 : store) :
  frame P s1 s2 -> frame Q s2 s3 ->
  (forall i, i < length s1 -> R i -> P i /\ Q i) ->
  frame R s1 s3.
Proof.
  intros [Hl1 H1] [Hl2 H2] HR. split; [lia|].
  intros i Hi Hr. destruct (HR i Hi Hr) as [Hp Hq].
  rewrite H2 by (try lia; exact Hq). now apply H1.
Qed.

Lemma frame_app (P : nat -> Prop) (s d : store) : frame P s (s ++ d).
Proof.
  split; [rewrite length_app; lia|]. intros i Hi _. now apply lookup_app_l.
Qed.

Lemma frame_insert (P : nat -> Prop) (r : nat) (b : Builder) (s : store) :
  ~ P r -> frame P s (<[r := b]> s).
Proof.
  intros Hr. split; [now rewrite length_insert|].
  intros i Hi Hp. apply list_lookup_insert_ne. intros ->. now apply Hr.
Qed.

Lemma frame_agree (P : nat -> Prop) (lo : nat) (s s' : store) :
  frame P s s' -> (forall i, lo <= i -> i < length s -> P i) -> agree lo s s'.
Proof. intros [_ H] HP i Hlo Hi. apply H; [exact Hi | now apply HP]. Qed.

Lemma frame_keeps (P : nat -> Prop) (n : nat) (s s' : store) :
  frame P s s' -> n <= length s -> (forall i, i < n -> P i) -> keeps n s s'.
Proof.
  intros [Hl H] Hn HP. split; [exact Hl|].
  intros i Hi. apply H; [lia | now apply HP].
Qed.

Lemma frame_lookup (P : nat -> Prop) (s s' : store) (i : nat) (b : Builder) :
  frame P s s' -> s !! i = Some b -> P i -> s' !! i = Some b.
Proof.
  intros [_ H] Hb Hp. rewrite H; [exact Hb | | exact Hp].
  now apply lookup_lt_Some in Hb.
Qed.

Lemma fresh_frame (P : nat -> Prop) (s s' : store) (x : Value) (t : Tree) :
  fresh s x s' t -> frame P s s'.
Proof. intros (d & -> & _). apply frame_app. Qed.

Lemma test_key_eq (a m : nat) (mb : option nat) (kv : PyAtom * PyVal) :
  test_key a m mb kv = Den.test_key_m a m mb kv.
Proof.
  unfold test_key, Den.test_key_m, Den.classify.
  destruct (key_in (fst kv) _); [reflexivity|].
  destruct (key_in (fst kv) _); [reflexivity|].
  destruct (key_in (fst kv) _); [reflexivity|].
  destruct (key_is (fst kv) "resultdb"); [reflexivity|].
  destruct (key_in (fst kv) _); [reflexivity|].
  destruct (key_is (fst kv) "skylab"); [reflexivity|].
  destruct (key_is (fst kv) "mixins"); [reflexivity|].
  destruct (key_is (fst kv) "remove_mixins"); reflexivity.
Qed.

(** The loop that appends the converted elements to the list at [X]. *)
Lemma append_loop_sim (X : nat) (es : list PyVal) :
  forall (s : store) (vs : list Value),
    s !! X = Some (ListValueBuilder vs) ->
    sim (for_each es (fun e => let* v := convert_direct e in append X v))
        (Den.map_r Den.direct es) s
        (fun _ s' ts =>
           frame (fun i => i <> X) s s'
           /\ exists xs, s' !! X = Some (ListValueBuilder (vs ++ xs))
                         /\ values_rel (length s) (length s' - length s) s' xs ts).
Proof.
  induction es as [|e es IH]; intros s vs HX.
  - exists tt, s. split; [reflexivity|]. split; [apply frame_refl|].
    exists []. rewrite app_nil_r. split; [exact HX | constructor].
  - rewrite for_each_cons. cbn [Den.map_r]. unfold sim.
    pose proof (convert_direct_sim e s) as He. unfold sim in He.
    destruct (Den.direct e) as [t|ex]; cbn [Den.rbind];
      [|unfold bind at 1 2; now rewrite He].
    destruct He as (x & s1 & Hx & d1 & -> & Hsnap).
    pose proof (lookup_lt_Some _ _ _ HX) as Hlt.
    assert (HX1 : (s ++ d1) !! X = Some (ListValueBuilder vs))
      by now rewrite lookup_app_l.
    set (s2 := <[X := ListValueBuilder (vs ++ [x])]> (s ++ d1)).
    assert (Hstep : (run (let* v := convert_direct e in append X v)
                     in for_each es (fun e => let* v := convert_direct e in
                                              append X v)) s
                    = for_each es (fun e => let* v := convert_direct e in
                                            append X v) s2).
    { unfold bind. rewrite Hx. now rewrite (append_list _ _ _ _ HX1). }
    rewrite Hstep.
    assert (Hl2 : length s2 = length s + length d1)
      by (unfold s2; now rewrite length_insert, length_app).
    assert (HX2 : s2 !! X = Some (ListValueBuilder (vs ++ [x]))).
    { unfold s2. apply list_lookup_insert_eq. rewrite length_app. lia. }
    assert (Hf2 : frame (fun i => i <> X) s s2).
    { eapply frame_trans; [apply (frame_app (fun _ => True)) | |].
      - apply (frame_insert (fun i => i <> X)). tauto.
      - tauto. }
    specialize (IH s2 _ HX2). unfold sim in IH.
    destruct (Den.map_r Den.direct es) as [ts|ex]; cbn [Den.rbind];
      [|exact IH].
    destruct IH as (u & s3 & Hloop & Hf3 & xs & HX3 & Hxs).
    exists u, s3. split; [exact Hloop|]. split.
    + eapply frame_trans; [exact Hf2 | exact Hf3 | tauto].
    + exists (x :: xs). split; [now rewrite <- app_assoc in HX3|].
      destruct Hf3 as [Hl3 Hf3]. constructor.
      * eapply snapshot_in_mono; [exact Hsnap | lia | lia |].
        intros i Hi1 Hi2. rewrite length_app in Hi2.
        rewrite Hf3 by lia. unfold s2. apply list_lookup_insert_ne. lia.
      * eapply values_rel_mono; [exact Hxs | lia | lia | apply agree_refl].
Qed.

(** What the list of named mixins holds is kept by a step that leaves the
    objects above [m] alone. *)
Lemma named_kept (a m : nat) (s s' : store) (mb : option nat)
      (named : option (list Tree)) :
  length s <= length s' -> agree (S m) s s' ->
  match mb, named with
  | None, None => True
  | Some X, Some ts =>
      m < X
      /\ exists vs, s !! X = Some (ListValueBuilder (Ref a :: vs))
                    /\ values_rel (S X) (length s - S X) s vs ts
  | _, _ => False
  end ->
  match mb, named with
  | None, None => True
  | Some X, Some ts =>
      m < X
      /\ exists vs, s' !! X = Some (ListValueBuilder (Ref a :: vs))
                    /\ values_rel (S X) (length s' - S X) s' vs ts
  | _, _ => False
  end.
Proof.
  intros Hl Hag. destruct mb as [X|], named as [ts|]; try easy.
  intros (HmX & vs & HX & Hvs). split; [exact HmX|]. exists vs. split.
  - rewrite Hag; [exact HX | lia | now apply lookup_lt_Some in HX].
  - eapply values_rel_mono; [exact Hvs | lia | lia |].
    eapply agree_weaken; [|exact Hag]. lia.
Qed.

Lemma named_bound (a m : nat) (s : store) (mb : option nat)
      (named : option (list Tree)) :
  m < length s ->
  match mb, named with
  | None, None => True
  | Some X, Some ts =>
      m < X
      /\ exists vs, s !! X = Some (ListValueBuilder (Ref a :: vs))
                    /\ values_rel (S X) (length s - S X) s vs ts
  | _, _ => False
  end ->
  S m + match mb with Some _ => 1 | None => 0 end <= length s.
Proof.
  intros Hm. destruct mb as [X|], named as [ts|]; try easy; [|lia].
  intros (HmX & vs & HX & _). apply lookup_lt_Some in HX. lia.
Qed.

Lemma test_key_sim (a m : nat) (mb : option nat) (kv : PyAtom * PyVal)
      (s : store) (st : Den.test_state) :
  test_inv a m s mb st ->
  sim (test_key a m mb kv) (Den.test_key st kv) s
      (fun mb' s' st' =>
         frame (fun i => i <> a /\ i <> m) s s' /\ test_inv a m s' mb' st').
Proof.
  intros Hinv. rewrite test_key_eq. unfold Den.test_key_m, Den.test_key.
  destruct Hinv as (Ham & (pa & Ha & Hpa) & (pm & Hm & Hpm) & Hmb).
  pose proof (lookup_lt_Some _ _ _ Ha) as Hla.
  pose proof (lookup_lt_Some _ _ _ Hm) as Hlm.
  pose proof (named_bound a m s mb _ Hlm Hmb) as Hbound.
  destruct (Den.classify (fst kv)) as [[|name c| |]|e]; cbn [Den.rbind];
    [| | | |reflexivity].
  - (* a key that is passed over *)
    exists mb, s. split; [reflexivity|]. split; [apply frame_refl|].
    repeat split; [exact Ham | now exists pa | now exists pm | exact Hmb].
  - (* a field of the anonymous mixin *)
    pose proof (conv_sim c (snd kv) s) as Hc. unfold sim in Hc |- *.
    destruct (Den.conv_den c (snd kv)) as [t|e]; cbn [Den.rbind];
      [|now rewrite (bind_raise _ _ _ _ Hc)].
    destruct Hc as (x & s1 & Hx & d1 & -> & Hsnap).
    rewrite (bind_ok _ _ _ _ _ Hx).
    assert (Ha1 : (s ++ d1) !! a = Some (CallValueBuilder "targets.mixin" pa None))
      by now rewrite lookup_app_l.
    rewrite (bind_ok _ _ _ _ _ (setitem_call _ name x _ _ _ _ Ha1)).
    set (s2 := <[a := CallValueBuilder "targets.mixin" (dict_set name x pa) None]>
                 (s ++ d1)).
    assert (Hl2 : length s2 = length s + length d1)
      by (unfold s2; now rewrite length_insert, length_app).
    assert (Hf : frame (fun i => i <> a /\ i <> m) s s2).
    { eapply frame_trans; [apply (frame_app (fun _ => True)) | |].
      - apply (frame_insert (fun i => i <> a)). tauto.
      - tauto. }
    assert (Hag : agree (S m) s s2).
    { eapply frame_agree; [exact Hf|]. intros; cbn beta; lia. }
    exists mb, s2. split; [reflexivity|]. split; [exact Hf|].
    split; [exact Ham|]. split; [|split].
    + exists (dict_set name x pa). split.
      * unfold s2. apply list_lookup_insert_eq. rewrite length_app. lia.
      * apply params_rel_dict_set.
        -- eapply params_rel_mono; [exact Hpa | lia | | exact Hag].
           unfold anon_fuel. rewrite Hl2. destruct mb; lia.
        -- eapply snapshot_in_mono; [exact Hsnap | lia | |].
           ++ unfold anon_fuel. rewrite Hl2. destruct mb; lia.
           ++ intros i Hi1 Hi2. unfold s2. apply list_lookup_insert_ne. lia.
    + exists pm. split.
      * unfold s2. rewrite list_lookup_insert_ne by lia.
        now rewrite lookup_app_l.
      * eapply params_rel_mono; [exact Hpm | lia | lia | exact Hag].
    + eapply named_kept; [ | exact Hag | exact Hmb]; lia.
  - (* the key [mixins] *)
    set (b := ListValueBuilder [Ref a]).
    assert (Hnew : new_list [Ref a] s = Ok (length s, s ++ [b])) by reflexivity.
    unfold sim. rewrite (bind_ok _ _ _ _ _ Hnew).
    destruct (py_iter (snd kv)) as [es|e]; cbn [Den.rbind];
      [rewrite bind_lift_ok | now rewrite bind_lift_raise].
    pose proof (append_loop_sim (length s) es (s ++ [b]) [Ref a]
                                (lookup_snoc s b)) as Hloop.
    unfold sim in Hloop.
    destruct (Den.map_r Den.direct es) as [ts|e]; cbn [Den.rbind];
      [|now rewrite (bind_raise _ _ _ _ Hloop)].
    destruct Hloop as (u & s' & Hrun & Hf' & xs & HX & Hxs).
    rewrite (bind_ok _ _ _ _ _ Hrun).
    assert (Hl1 : length (s ++ [b]) = S (length s))
      by (rewrite length_app; cbn [length]; lia).
    assert (Hf : frame (fun i => i <> a /\ i <> m) s s').
    { eapply frame_trans; [apply (frame_app (fun _ => True)) | exact Hf' |].
      intros i Hi _. split; [exact I | lia]. }
    assert (Hag : agree (S m) s s').
    { eapply frame_agree; [exact Hf|]. intros; cbn beta; lia. }
    destruct Hf' as [Hl' Hk']. rewrite Hl1 in Hl', Hxs, Hk'.
    exists (Some (length s)), s'. split; [reflexivity|]. split; [exact Hf|].
    split; [exact Ham|]. split; [|split].
    + exists pa. split.
      * rewrite Hk' by lia. now rewrite lookup_app_l.
      * eapply params_rel_mono; [exact Hpa | lia | | exact Hag].
        unfold anon_fuel. destruct mb; lia.
    + exists pm. split.
      * rewrite Hk' by lia. now rewrite lookup_app_l.
      * eapply params_rel_mono; [exact Hpm | lia | lia | exact Hag].
    + cbn [Den.named]. split; [lia|]. exists xs. split; [exact HX | exact Hxs].
  - (* the key [remove_mixins] *)
    set (b := ListValueBuilder [Atom remove_mixins_guard]).
    assert (Hnew : new_list [Atom remove_mixins_guard] s
                   = Ok (length s, s ++ [b])) by reflexivity.
    unfold sim. rewrite (bind_ok _ _ _ _ _ Hnew).
    assert (Hm1 : (s ++ [b]) !! m
                  = Some (CallValueBuilder "targets.per_test_modification" pm
                                           (Some "mixins")))
      by now rewrite lookup_app_l.
    rewrite (bind_ok _ _ _ _ _
               (setitem_call _ "remove_mixins" (Ref (length s)) _ _ _ _ Hm1)).
    set (pm' := dict_set "remove_mixins" (Ref (length s)) pm).
    set (s2 := <[m := CallValueBuilder "targets.per_test_modification" pm'
                                       (Some "mixins")]> (s ++ [b])).
    destruct (py_iter (snd kv)) as [ms|e]; cbn [Den.rbind];
      [rewrite bind_lift_ok | now rewrite bind_lift_raise].
    assert (Hl2 : length s2 = S (length s)).
    { unfold s2. rewrite length_insert, length_app. cbn [length]. lia. }
    assert (HR2 : s2 !! length s = Some b).
    { unfold s2. rewrite list_lookup_insert_ne by lia. apply lookup_snoc. }
    pose proof (append_loop_sim (length s) ms s2 _ HR2) as Hloop.
    unfold sim in Hloop.
    destruct (Den.map_r Den.direct ms) as [ts|e]; cbn [Den.rbind];
      [|now rewrite (bind_raise _ _ _ _ Hloop)].
    destruct Hloop as (u & s' & Hrun & Hf' & xs & HR & Hxs).
    rewrite (bind_ok _ _ _ _ _ Hrun).
    assert (Hf2 : frame (fun i => i <> m) s s2).
    { eapply frame_trans; [apply (frame_app (fun _ => True)) | |].
      - apply (frame_insert (fun i => i <> m)). tauto.
      - tauto. }
    assert (Hf : frame (fun i => i <> a /\ i <> m) s s').
    { eapply frame_trans; [exact Hf2 | exact Hf' |].
      intros i Hi [_ Him]. split; [exact Him | lia]. }
    assert (Hag : agree (S m) s s').
    { eapply frame_agree; [exact Hf|]. intros; cbn beta; lia. }
    destruct Hf' as [Hl' Hk']. rewrite Hl2 in Hl', Hxs.
    exists mb, s'. split; [reflexivity|]. split; [exact Hf|].
    split; [exact Ham|]. split; [|split].
    + exists pa. split.
      * rewrite Hk' by lia. unfold s2. rewrite list_lookup_insert_ne by lia.
        now rewrite lookup_app_l.
      * eapply params_rel_mono; [exact Hpa | lia | | exact Hag].
        unfold anon_fuel. destruct mb; lia.
    + exists pm'. split.
      * rewrite Hk' by lia. unfold s2. apply list_lookup_insert_eq.
        rewrite length_app. lia.
      * apply params_rel_dict_set.
        -- eapply params_rel_mono; [exact Hpm | lia | lia | exact Hag].
        -- replace (length s' - S m) with (S (length s' - S m - 1)) by lia.
           eapply snapshot_in_list; [exact HR | lia |].
           constructor; [apply snapshot_in_atom|].
           eapply values_rel_mono; [exact Hxs | lia | lia | apply agree_refl].
    + eapply named_kept; [ | exact Hag | exact Hmb]; lia.
Qed.

Lemma fold_m_cons {A S : Type} (x : A) (xs : list A) (st : S)
      (body : S -> A -> M S) :
  fold_m (x :: xs) st body = (let* st' := body st x in fold_m xs st' body).
Proof. reflexivity. Qed.

(** A loop keeps what every turn of it keeps. *)
Lemma fold_m_sim {A V S : Type} (body : V -> A -> M V)
      (dbody : S -> A -> result S) (Inv : store -> V -> S -> Prop)
      (P : nat -> Prop) :
  (forall x s v st, Inv s v st ->
                    sim (body v x) (dbody st x) s
                        (fun v' s' st' => frame P s s' /\ Inv s' v' st')) ->
  forall xs s v st,
    Inv s v st ->
    sim (fold_m xs v body) (Den.fold_r xs st dbody) s
        (fun v' s' st' => frame P s s' /\ Inv s' v' st').
Proof.
  intros Hbody. induction xs as [|x xs IH]; intros s v st Hinv.
  - exists v, s. split; [reflexivity|]. split; [apply frame_refl | exact Hinv].
  - rewrite fold_m_cons. cbn [Den.fold_r]. unfold sim.
    pose proof (Hbody x s v st Hinv) as Hx. unfold sim in Hx.
    destruct (dbody st x) as [st1|e]; cbn [Den.rbind];
      [|now rewrite (bind_raise _ _ _ _ Hx)].
    destruct Hx as (v1 & s1 & Hrun & Hf1 & Hinv1).
    rewrite (bind_ok _ _ _ _ _ Hrun).
    specialize (IH s1 v1 st1 Hinv1). unfold sim in IH.
    destruct (Den.fold_r xs st1 dbody) as [st2|e]; [|exact IH].
    destruct IH as (v2 & s2 & Hrun2 & Hf2 & Hinv2).
    exists v2, s2. split; [exact Hrun2|]. split; [|exact Hinv2].
    eapply frame_trans; [exact Hf1 | exact Hf2 | tauto].
Qed.

Lemma for_each_sim {A S : Type} (body : A -> M unit)
      (dbody : S -> A -> result S) (Inv : store -> S -> Prop)
      (P : nat -> Prop) :
  (forall x s st, Inv s st ->
                  sim (body x) (dbody st x) s
                      (fun _ s' st' => frame P s s' /\ Inv s' st')) ->
  forall xs s st,
    Inv s st ->
    sim (for_each xs body) (Den.fold_r xs st dbody) s
        (fun _ s' st' => frame P s s' /\ Inv s' st').
Proof.
  intros Hbody. induction xs as [|x xs IH]; intros s st Hinv.
  - exists tt, s. split; [reflexivity|]. split; [apply frame_refl | exact Hinv].
  - rewrite for_each_cons. cbn [Den.fold_r]. unfold sim.
    pose proof (Hbody x s st Hinv) as Hx. unfold sim in Hx.
    destruct (dbody st x) as [st1|e]; cbn [Den.rbind];
      [|now rewrite (bind_raise _ _ _ _ Hx)].
    destruct Hx as (u & s1 & Hrun & Hf1 & Hinv1).
    rewrite (bind_ok _ _ _ _ _ Hrun).
    specialize (IH s1 st1 Hinv1). unfold sim in IH.
    destruct (Den.fold_r xs st1 dbody) as [st2|e]; [|exact IH].
    destruct IH as (u2 & s2 & Hrun2 & Hf2 & Hinv2).
    exists u2, s2. split; [exact Hrun2|]. split; [|exact Hinv2].
    eapply frame_trans; [exact Hf1 | exact Hf2 | tauto].
Qed.

Lemma snapshot_in_fuel0 (lo lo' n : nat) (s s' : store) (x : Value) (t : Tree) :
  Den.snapshot_in lo 0 s x = Some t -> Den.snapshot_in lo' n s' x = Some t.
Proof.
  destruct x as [a|r]; [|discriminate].
  intros H. rewrite snapshot_in_atom in H. now rewrite snapshot_in_atom.
Qed.

Lemma values_rel_fuel0 (lo lo' n : nat) (s s' : store) (xs : list Value)
      (ts : list Tree) :
  values_rel lo 0 s xs ts -> values_rel lo' n s' xs ts.
Proof.
  intros H. eapply Forall2_impl; [exact H|]. cbn beta.
  intros x t. apply snapshot_in_fuel0.
Qed.

(** Once the keys of a test are done, its per-test modification builder
    stands for [Den.test_tree]. *)
Lemma test_tree_snapshot (a m lo n : nat) (s : store) (mb : option nat)
      (st : Den.test_state) (pm : list (string * Value)) :
  test_inv a m s mb st ->
  lo <= a -> length s - m + 1 <= n ->
  let v := match mb with Some b => Ref b | None => Ref a end in
  let s' := <[m := CallValueBuilder "targets.per_test_modification"
                                    (dict_set "mixins" v pm)
                                    (Some "mixins")]> s in
  s !! m = Some (CallValueBuilder "targets.per_test_modification" pm
                                  (Some "mixins")) ->
  Den.snapshot_in lo n s' (Ref m) = Some (Den.test_tree st).
Proof.
  intros (Ham & (pa & Ha & Hpa) & (pm0 & Hm0 & Hpm) & Hmb) Hlo Hn v s' Hm.
  rewrite Hm in Hm0. injection Hm0 as <-.
  pose proof (lookup_lt_Some _ _ _ Hm) as Hlm.
  assert (Hag : agree (S m) s s') by (apply agree_insert; lia).
  assert (Hl : length s' = length s) by (unfold s'; now rewrite length_insert).
  assert (Ha' : s' !! a = Some (CallValueBuilder "targets.mixin" pa None)).
  { unfold s'. rewrite list_lookup_insert_ne by lia. exact Ha. }
  destruct n as [|n]; [lia|]. unfold Den.test_tree.
  eapply snapshot_in_call;
    [unfold s'; apply list_lookup_insert_eq; exact Hlm | lia |].
  apply params_rel_dict_set.
  { eapply params_rel_mono; [exact Hpm | lia | lia | exact Hag]. }
  unfold Den.mixins_tree, v.
  destruct mb as [X|], (Den.named st) as [ts|]; try contradiction.
  - destruct Hmb as (HmX & vs & HX & Hvs).
    pose proof (lookup_lt_Some _ _ _ HX) as HlX.
    destruct n as [|n]; [lia|]. eapply snapshot_in_list.
    + unfold s'. rewrite list_lookup_insert_ne by lia. exact HX.
    + lia.
    + constructor.
      * destruct n as [|n]; [lia|]. unfold Den.anon_tree.
        eapply snapshot_in_call; [exact Ha' | lia |].
        eapply params_rel_mono; [exact Hpa | lia | | exact Hag].
        unfold anon_fuel. lia.
      * eapply values_rel_mono; [exact Hvs | lia | lia |].
        eapply agree_weaken; [|exact Hag]. lia.
  - destruct n as [|n]; [lia|]. unfold Den.anon_tree.
    eapply snapshot_in_call; [exact Ha' | lia |].
    eapply params_rel_mono; [exact Hpa | lia | | exact Hag].
    unfold anon_fuel. lia.
Qed.

Lemma suite_test_sim (T D : nat) (entry : PyAtom * PyVal) (s : store)
      (acc : list Tree * list (string * Tree)) :
  suite_inv T D s acc ->
  sim (suite_test T D entry) (Den.suite_test acc entry) s
      (fun _ s' acc' =>
         frame (fun i => i <> T /\ i <> D) s s' /\ suite_inv T D s' acc').
Proof.
  intros (HTD & (vs & HT & Hvs) & (items & HD & Hitems)).
  pose proof (lookup_lt_Some _ _ _ HT) as HlT.
  pose proof (lookup_lt_Some _ _ _ HD) as HlD.
  unfold suite_test, Den.suite_test, Den.test_of, sim.
  destruct (convert_atom (fst entry)) as [name|e]; cbn [Den.rbind];
    [rewrite bind_lift_ok | now rewrite bind_lift_raise].
  rewrite (bind_ok _ _ _ _ _ (append_list _ (Atom name) _ _ HT)).
  set (s1 := <[T := ListValueBuilder (vs ++ [Atom name])]> s).
  assert (Hl1 : length s1 = length s) by (unfold s1; now rewrite length_insert).
  set (ba := CallValueBuilder "targets.mixin" [] None).
  set (bm := CallValueBuilder "targets.per_test_modification" [] (Some "mixins")).
  assert (Hna : new_call "targets.mixin" [] None s1
                = Ok (length s, s1 ++ [ba]))
    by (unfold new_call, alloc; now rewrite Hl1).
  rewrite (bind_ok _ _ _ _ _ Hna).
  assert (Hl2 : length (s1 ++ [ba]) = S (length s))
    by (rewrite length_app, Hl1; cbn [length]; lia).
  assert (Hnm : new_call "targets.per_test_modification" [] (Some "mixins")
                         (s1 ++ [ba])
                = Ok (S (length s), (s1 ++ [ba]) ++ [bm]))
    by (unfold new_call, alloc; now rewrite Hl2).
  rewrite (bind_ok _ _ _ _ _ Hnm).
  set (s3 := (s1 ++ [ba]) ++ [bm]).
  assert (Hl3 : length s3 = S (S (length s)))
    by (unfold s3; rewrite length_app, Hl2; cbn [length]; lia).
  assert (HD3 : s3 !! D = Some (DictValueBuilder items)).
  { unfold s3. rewrite !lookup_app_l by (rewrite ?length_app, Hl1; lia).
    unfold s1. rewrite list_lookup_insert_ne by lia. exact HD. }
  rewrite (bind_ok _ _ _ _ _
             (setitem_dict _ name (Ref (S (length s))) _ _ HD3)).
  set (items' := dict_set name (Ref (S (length s))) items).
  set (s4 := <[D := DictValueBuilder items']> s3).
  assert (Hl4 : length s4 = S (S (length s)))
    by (unfold s4; now rewrite length_insert).
  destruct (py_items (snd entry)) as [keys|e]; cbn [Den.rbind];
    [rewrite bind_lift_ok | now rewrite bind_lift_raise].
  assert (Ha4 : s4 !! length s = Some ba).
  { unfold s4, s3. rewrite list_lookup_insert_ne by lia.
    rewrite lookup_app_l by (rewrite Hl2; lia).
    rewrite <- Hl1. apply lookup_snoc. }
  assert (Hm4 : s4 !! S (length s) = Some bm).
  { unfold s4, s3. rewrite list_lookup_insert_ne by lia.
    rewrite <- Hl2. apply lookup_snoc. }
  assert (Hinv4 : test_inv (length s) (S (length s)) s4 None Den.init_test).
  { split; [lia|]. split; [|split; [|exact I]].
    - exists []. split; [exact Ha4 | constructor].
    - exists []. split; [exact Hm4 | constructor]. }
  pose proof (fold_m_sim (test_key (length s) (S (length s))) Den.test_key
                         (test_inv (length s) (S (length s)))
                         (fun i => i <> length s /\ i <> S (length s))
                         (fun x s0 v st H => test_key_sim _ _ v x s0 st H)
                         keys s4 None Den.init_test Hinv4) as Hfold.
  unfold sim in Hfold.
  destruct (Den.fold_r keys Den.init_test Den.test_key) as [st|e];
    cbn [Den.rbind]; [|now rewrite (bind_raise _ _ _ _ Hfold)].
  destruct Hfold as (mb & s5 & Hrun & [Hl5 Hk5] & Hinv5).
  rewrite (bind_ok _ _ _ _ _ Hrun).
  destruct Hinv5 as (Ham & Hpa & (pm & Hm5 & Hpm) & Hmb).
  pose proof (lookup_lt_Some _ _ _ Hm5) as Hlm5.
  rewrite (setitem_call _ "mixins" _ _ _ _ _ Hm5).
  set (v := match mb with Some b => Ref b | None => Ref (length s) end).
  set (s6 := <[S (length s) := CallValueBuilder "targets.per_test_modification"
                                 (dict_set "mixins" v pm) (Some "mixins")]> s5).
  assert (Hl6 : length s6 = length s5) by (unfold s6; now rewrite length_insert).
  assert (Hold : forall i, i < length s -> i <> T -> i <> D -> s6 !! i = s !! i).
  { intros i Hi HiT HiD. unfold s6. rewrite list_lookup_insert_ne by lia.
    rewrite Hk5 by (cbn beta; lia). unfold s4, s3.
    rewrite list_lookup_insert_ne by lia.
    rewrite !lookup_app_l by (rewrite ?length_app, Hl1; lia).
    unfold s1. now rewrite list_lookup_insert_ne by lia. }
  exists tt, s6. split; [reflexivity|]. split; [|split; [exact HTD | split]].
  - split; [lia|]. intros i Hi [HiT HiD]. now apply Hold.
  - exists (vs ++ [Atom name]). split.
    + unfold s6. rewrite list_lookup_insert_ne by lia.
      rewrite Hk5 by (cbn beta; lia). unfold s4, s3.
      rewrite list_lookup_insert_ne by lia.
      rewrite !lookup_app_l by (rewrite ?length_app, Hl1; lia).
      unfold s1. apply list_lookup_insert_eq. exact HlT.
    + cbn [fst]. apply Forall2_app.
      * eapply values_rel_fuel0. exact Hvs.
      * constructor; [apply snapshot_in_atom | constructor].
  - exists items'. split.
    + unfold s6. rewrite list_lookup_insert_ne by lia.
      rewrite Hk5 by (cbn beta; lia). unfold s4.
      apply list_lookup_insert_eq. lia.
    + cbn [snd]. apply params_rel_dict_set.
      * eapply params_rel_mono; [exact Hitems | lia | lia |].
        intros i Hi1 Hi2. apply Hold; lia.
      * eapply (test_tree_snapshot (length s) (S (length s)) (S D)
                                   (length s6 - S D) s5 mb st pm).
        -- split; [exact Ham|]. split; [exact Hpa|]. split; [|exact Hmb].
           now exists pm.
        -- lia.
        -- lia.
        -- exact Hm5.
Qed.

Lemma build_basic_suite_sim (suite : PyVal) (s : store) :
  sim (build_basic_suite suite) (Den.basic_suite suite) s
      (fun bs s' ts =>
         keeps (length s) s s'
         /\ snapshot (length s') s' (Ref (fst bs)) = Some (fst ts)
         /\ snapshot (length s') s' (Ref (snd bs)) = Some (snd ts)).
Proof.
  unfold build_basic_suite, Den.basic_suite, sim.
  set (bT := ListValueBuilder []). set (bD := DictValueBuilder []).
  assert (HnT : new_list [] s = Ok (length s, s ++ [bT])) by reflexivity.
  rewrite (bind_ok _ _ _ _ _ HnT).
  assert (Hl1 : length (s ++ [bT]) = S (length s))
    by (rewrite length_app; cbn [length]; lia).
  assert (HnD : new_dict [] (s ++ [bT]) = Ok (S (length s), (s ++ [bT]) ++ [bD]))
    by (unfold new_dict, alloc; now rewrite Hl1).
  rewrite (bind_ok _ _ _ _ _ HnD).
  set (s2 := (s ++ [bT]) ++ [bD]).
  assert (Hl2 : length s2 = S (S (length s)))
    by (unfold s2; rewrite length_app, Hl1; cbn [length]; lia).
  destruct (py_items suite) as [tests|e]; cbn [Den.rbind];
    [rewrite bind_lift_ok | now rewrite bind_lift_raise].
  assert (Hinv : suite_inv (length s) (S (length s)) s2 ([], [])).
  { split; [lia|]. split.
    - exists []. split; [|constructor]. unfold s2.
      rewrite lookup_app_l by (rewrite Hl1; lia). apply lookup_snoc.
    - exists []. split; [|constructor]. unfold s2.
      rewrite <- Hl1. apply lookup_snoc. }
  pose proof (for_each_sim (suite_test (length s) (S (length s))) Den.suite_test
                           (suite_inv (length s) (S (length s)))
                           (fun i => i <> length s /\ i <> S (length s))
                           (fun x s0 st H => suite_test_sim _ _ x s0 st H)
                           tests s2 ([], []) Hinv) as Hloop.
  unfold sim in Hloop.
  destruct (Den.fold_r tests ([], []) Den.suite_test) as [acc|e];
    cbn [Den.rbind]; [|now rewrite (bind_raise _ _ _ _ Hloop)].
  destruct Hloop as (u & s' & Hrun & [Hl' Hk'] & Hinv').
  rewrite (bind_ok _ _ _ _ _ Hrun).
  destruct Hinv' as (_ & (vs & HT & Hvs) & (items & HD & Hitems)).
  exists (length s, S (length s)), s'. split; [reflexivity|].
  cbn [fst snd]. split; [|split].
  - split; [lia|]. intros i Hi. rewrite Hk' by (cbn beta; lia).
    unfold s2. now rewrite !lookup_app_l by (rewrite ?length_app; lia).
  - eapply snapshot_in_snapshot.
    eapply (snapshot_in_mono 0 0 1); [|lia | lia | apply agree_refl].
    eapply snapshot_in_list; [exact HT | lia | exact Hvs].
  - eapply snapshot_in_snapshot.
    eapply (snapshot_in_mono (S (length s)) (S (length s))
                             (S (length s' - S (S (length s)))));
      [|lia | lia | apply agree_refl].
    eapply snapshot_in_dict; [exact HD | lia |].
    eapply params_rel_mono; [exact Hitems | lia | lia | apply agree_refl].
Qed.

(** ** The compound and matrix compound suites, and the entry points *)

Lemma matrix_key_eq (b : nat) (kv : PyAtom * PyVal) :
  matrix_key b kv = Den.assign_m b Den.matrix_param kv.
Proof.
  rewrite assign_m_eq. unfold matrix_key, Den.matrix_param.
  now destruct (key_in (fst kv) _).
Qed.

Lemma matrix_bundle_eq (T : nat) (n : Value) (cfg : PyVal) (s : store) :
  (let* bundle_builder := new_call "targets.bundle" [("targets", n)] None in
   let* config := lift (py_items cfg) in
   run for_each config (matrix_key bundle_builder) in
   append T (Ref bundle_builder)) s
  = (let* x := Den.build_call "targets.bundle" [("targets", n)]
                              Den.matrix_param cfg in
     append T x) s.
Proof.
  unfold Den.build_call, bind.
  destruct (new_call "targets.bundle" [("targets", n)] None s)
    as [[b s1]|e]; [|reflexivity].
  destruct (lift (py_items cfg) s1) as [[config s2]|e]; [|reflexivity].
  rewrite (for_each_ext config _ _ (matrix_key_eq b)).
  now destruct (for_each config (Den.assign_m b Den.matrix_param) s2)
    as [[u s3]|e].
Qed.

Lemma bind_atom_ok {B : Type} (a : PyAtom) (name : string) (k : Value -> M B)
      (s : store) :
  convert_atom a = Ok name -> bind (convert_direct (PyA a)) k s = k (Atom name) s.
Proof.
  intros H. cbn [convert_direct]. unfold bind, lift, ret. now rewrite H.
Qed.

Lemma bind_atom_raise {B : Type} (a : PyAtom) (e : PyExc) (k : Value -> M B)
      (s : store) :
  convert_atom a = Raise e -> bind (convert_direct (PyA a)) k s = Raise e.
Proof.
  intros H. cbn [convert_direct]. unfold bind, lift, ret. now rewrite H.
Qed.

Lemma matrix_entry_sim (T : nat) (entry : PyAtom * PyVal) (s : store)
      (acc : list Tree) :
  matrix_inv T s acc ->
  sim (matrix_entry T entry) (Den.matrix_entry acc entry) s
      (fun _ s' acc' => frame (fun i => i <> T) s s' /\ matrix_inv T s' acc').
Proof.
  intros (vs & HT & Hvs). pose proof (lookup_lt_Some _ _ _ HT) as HlT.
  unfold matrix_entry, Den.matrix_entry, sim.
  assert (Hstep : forall (x : Value) (t : Tree) (s1 : store),
             fresh s x s1 t ->
             exists s2, append T x s1 = Ok (tt, s2)
                        /\ frame (fun i => i <> T) s s2
                        /\ matrix_inv T s2 (acc ++ [t])).
  { intros x t s1 (d & -> & Hsnap).
    assert (HT1 : (s ++ d) !! T = Some (ListValueBuilder vs))
      by now rewrite lookup_app_l.
    exists (<[T := ListValueBuilder (vs ++ [x])]> (s ++ d)).
    split; [now apply append_list|]. split.
    - eapply frame_trans; [apply (frame_app (fun _ => True)) | |].
      + apply (frame_insert (fun i => i <> T)). tauto.
      + tauto.
    - exists (vs ++ [x]). split.
      + apply list_lookup_insert_eq. rewrite length_app. lia.
      + rewrite length_insert, length_app. apply Forall2_app.
        * eapply values_rel_mono; [exact Hvs | lia | lia |].
          intros i Hi1 Hi2. rewrite list_lookup_insert_ne by lia.
          now apply lookup_app_l.
        * constructor; [|constructor].
          eapply snapshot_in_mono; [exact Hsnap | lia | lia |].
          intros i Hi1 Hi2. apply list_lookup_insert_ne. lia. }
  destruct (negb (py_truthy (snd entry))).
  - destruct (convert_atom (fst entry)) as [name|e] eqn:Hn;
      cbn [Den.rbind];
      [rewrite (bind_atom_ok _ _ _ _ Hn) | now rewrite (bind_atom_raise _ _ _ _ Hn)].
    destruct (Hstep (Atom name) (TAtom name) s (fresh_atom s name))
      as (s2 & Happ & Hf & Hinv).
    exists tt, s2. split; [exact Happ | split; assumption].
  - destruct (convert_atom (fst entry)) as [name|e] eqn:Hn;
      cbn [Den.rbind];
      [rewrite (bind_atom_ok _ _ _ _ Hn) | now rewrite (bind_atom_raise _ _ _ _ Hn)].
    rewrite matrix_bundle_eq.
    pose proof (build_call_sim "targets.bundle" Den.matrix_param
                               [("targets", Atom name)]
                               [("targets", TAtom name)] (snd entry) s) as Hb.
    unfold sim in Hb.
    destruct (Den.call_of "targets.bundle" Den.matrix_param
                          [("targets", TAtom name)] (snd entry)) as [t|e];
      cbn [Den.rbind].
    + destruct Hb as (x & s1 & Hx & Hfresh).
      { intros lo n s'. constructor; [|constructor].
        split; [reflexivity | apply snapshot_in_atom]. }
      rewrite (bind_ok _ _ _ _ _ Hx).
      destruct (Hstep x t s1 Hfresh) as (s2 & Happ & Hf & Hinv).
      exists tt, s2. split; [exact Happ | split; assumption].
    + rewrite (bind_raise _ _ _ e); [reflexivity|]. apply Hb.
      intros lo n s'. constructor; [|constructor].
      split; [reflexivity | apply snapshot_in_atom].
Qed.

Lemma build_matrix_compound_suite_sim (suite : PyVal) (s : store) :
  sim (build_matrix_compound_suite suite) (Den.matrix_compound_suite suite) s
      (fun T s' t =>
         keeps (length s) s s'
         /\ snapshot (length s') s' (Ref T) = Some t).
Proof.
  unfold build_matrix_compound_suite, Den.matrix_compound_suite, sim.
  set (bT := ListValueBuilder []).
  assert (HnT : new_list [] s = Ok (length s, s ++ [bT])) by reflexivity.
  rewrite (bind_ok _ _ _ _ _ HnT).
  assert (Hl1 : length (s ++ [bT]) = S (length s))
    by (rewrite length_app; cbn [length]; lia).
  destruct (py_items suite) as [entries|e]; cbn [Den.rbind];
    [rewrite bind_lift_ok | now rewrite bind_lift_raise].
  assert (Hinv : matrix_inv (length s) (s ++ [bT]) []).
  { exists []. split; [apply lookup_snoc | constructor]. }
  pose proof (for_each_sim (matrix_entry (length s)) Den.matrix_entry
                           (matrix_inv (length s)) (fun i => i <> length s)
                           (fun x s0 st H => matrix_entry_sim _ x s0 st H)
                           entries (s ++ [bT]) [] Hinv) as Hloop.
  unfold sim in Hloop.
  destruct (Den.fold_r entries [] Den.matrix_entry) as [acc|e];
    cbn [Den.rbind]; [|now rewrite (bind_raise _ _ _ _ Hloop)].
  destruct Hloop as (u & s' & Hrun & [Hl' Hk'] & (vs & HT & Hvs)).
  rewrite (bind_ok _ _ _ _ _ Hrun).
  exists (length s), s'. split; [reflexivity|]. split.
  - split; [lia|]. intros i Hi. rewrite Hk' by (cbn beta; lia).
    now rewrite lookup_app_l.
  - eapply snapshot_in_snapshot.
    eapply (snapshot_in_mono (length s) (length s)
                             (S (length s' - S (length s))));
      [|lia | lia | apply agree_refl].
    eapply snapshot_in_list; [exact HT | lia |].
    eapply values_rel_mono; [exact Hvs | lia | lia | apply agree_refl].
Qed.

Lemma to_output_snapshot (v : Value) (s : store) (t : Tree) :
  snapshot (length s) s v = Some t -> to_output v s = Ok (render t, s).
Proof. unfold to_output. now intros ->. Qed.

(** The three entry points, as functions of their input alone. *)
Lemma convert_basic_suite_den (suite : PyVal) (s : store) :
  sim (convert_basic_suite suite) (Den.basic_suite suite) s
      (fun out s' ts =>
         keeps (length s) s s'
         /\ out = [("targets", render (fst ts));
                   ("per_test_modifications", render (snd ts))]).
Proof.
  pose proof (build_basic_suite_sim suite s) as Hb.
  unfold convert_basic_suite, sim in *.
  destruct (Den.basic_suite suite) as [ts|e];
    [|now rewrite (bind_raise _ _ _ _ Hb)].
  destruct Hb as (bs & s' & Hrun & Hk & HT & HD).
  rewrite (bind_ok _ _ _ _ _ Hrun).
  rewrite (bind_ok _ _ _ _ _ (to_output_snapshot _ _ _ HT)).
  rewrite (bind_ok _ _ _ _ _ (to_output_snapshot _ _ _ HD)).
  eexists _, s'. split; [reflexivity|]. now split.
Qed.

Lemma convert_compound_suite_den (suite : PyVal) (s : store) :
  sim (convert_compound_suite suite) (Den.direct suite) s
      (fun out s' t =>
         keeps (length s) s s' /\ out = [("targets", render t)]).
Proof.
  pose proof (convert_direct_sim suite s) as Hb.
  unfold convert_compound_suite, sim in *.
  destruct (Den.direct suite) as [t|e];
    [|now rewrite (bind_raise _ _ _ _ Hb)].
  destruct Hb as (x & s' & Hrun & d & -> & Hsnap).
  rewrite (bind_ok _ _ _ _ _ Hrun).
  assert (Ht : snapshot (length (s ++ d)) (s ++ d) x = Some t).
  { eapply snapshot_in_snapshot.
    eapply snapshot_in_mono; [exact Hsnap | apply Nat.le_refl | |
                              apply agree_refl].
    rewrite length_app. lia. }
  rewrite (bind_ok _ _ _ _ _ (to_output_snapshot _ _ _ Ht)).
  eexists _, (s ++ d). split; [reflexivity|]. split; [|reflexivity].
  apply keeps_app. lia.
Qed.

Lemma convert_matrix_compound_suite_den (suite : PyVal) (s : store) :
  sim (convert_matrix_compound_suite suite) (Den.matrix_compound_suite suite) s
      (fun out s' t =>
         keeps (length s) s s' /\ out = [("targets", render t)]).
Proof.
  pose proof (build_matrix_compound_suite_sim suite s) as Hb.
  unfold convert_matrix_compound_suite, sim in *.
  destruct (Den.matrix_compound_suite suite) as [t|e];
    [|now rewrite (bind_raise _ _ _ _ Hb)].
  destruct Hb as (T & s' & Hrun & Hk & HT).
  rewrite (bind_ok _ _ _ _ _ Hrun).
  rewrite (bind_ok _ _ _ _ _ (to_output_snapshot _ _ _ HT)).
  eexists _, s'. split; [reflexivity|]. now split.
Qed.

(** ** Rendering *)

Lemma snapshot_snapshot_in (n : nat) :
  forall (s : store) (v : Value) (t : Tree),
    snapshot n s v = Some t -> Den.snapshot_in 0 n s v = Some t.
Proof.
  induction n as [|n IH]; intros s v t Hs.
  - destruct v; [exact Hs | discriminate Hs].
  - destruct v as [a|r]; [exact Hs|].
    cbn [snapshot] in Hs. cbn [Den.snapshot_in]. cbn [Nat.ltb Nat.leb].
    destruct (s !! r) as [b|]; [|discriminate Hs].
    destruct b as [es|kvs|f ps el];
      apply fmap_Some in Hs as (l & Hl & ->); apply fmap_Some;
      eexists; split; try reflexivity;
      apply mapM_Some; apply mapM_Some in Hl;
      (eapply Forall2_impl; [exact Hl|]); cbn beta.
    + intros x y. apply IH.
    + intros kv kt Hk. apply fmap_Some in Hk as (y & Hy & ->).
      now rewrite (IH _ _ _ Hy).
    + intros kv kt Hk. apply fmap_Some in Hk as (y & Hy & ->).
      now rewrite (IH _ _ _ Hy).
Qed.

(** A value read in [s] reads the same in a store that holds what [s]
    holds. *)
Lemma snapshot_mono (n n' : nat) (s s' : store) (v : Value) (t : Tree) :
  snapshot n s v = Some t -> n <= n' -> agree 0 s s' ->
  snapshot n' s' v = Some t.
Proof.
  intros Hs Hn Hag. eapply snapshot_in_snapshot.
  eapply snapshot_in_mono; [apply snapshot_snapshot_in; exact Hs | | exact Hn |
                            exact Hag].
  apply Nat.le_refl.
Qed.


(** ** The two readings of the render protocol agree *)

Section RenderAt.

Import SpecTrees.

Lemma Tree_ind' (P : Tree -> Prop)
      (Ha : forall a, P (TAtom a))
      (Hl : forall es, Forall P es -> P (TList es))
      (Hd : forall kvs, Forall (fun kv => P (snd kv)) kvs -> P (TDict kvs))
      (Hc : forall f ps el, Forall (fun kv => P (snd kv)) ps -> P (TCall f ps el)) :
  forall t, P t.
Proof.
  fix IH 1. intros [a|es|kvs|f ps el].
  - apply Ha.
  - apply Hl. induction es as [|e es IHes]; constructor; [apply IH | exact IHes].
  - apply Hd. induction kvs as [|[k v] kvs IHk]; constructor;
      [apply IH | exact IHk].
  - apply Hc. induction ps as [|[k v] ps IHp]; constructor;
      [apply IH | exact IHp].
Qed.

Lemma spaces_add (n m : nat) : spaces (n + m) = spaces n +:+ spaces m.
Proof.
  induction n as [|n IH]; [reflexivity|].
  cbn [Nat.add spaces]. now rewrite append_cons, IH.
Qed.

Lemma hang_app (n : nat) (a b : string) :
  hang n (a +:+ b) = hang n a +:+ hang n b.
Proof.
  induction a as [|c a IH]; [reflexivity|].
  rewrite append_cons. cbn [hang]. destruct (Ascii.eqb c LF);
    rewrite IH, ?append_cons, ?append_assoc; reflexivity.
Qed.

Lemma hang_0 (s : string) : hang 0 s = s.
Proof.
  induction s as [|c s IH]; [reflexivity|].
  cbn [hang spaces]. rewrite append_nil_l, IH.
  now destruct (Ascii.eqb_spec c LF) as [->|].
Qed.

Lemma hang_spaces (n m : nat) : hang n (spaces m) = spaces m.
Proof.
  induction m as [|m IH]; [reflexivity|]. cbn [spaces hang].
  now rewrite IH.
Qed.

Lemma hang_hang (n m : nat) (s : string) :
  hang n (hang m s) = hang (n + m) s.
Proof.
  induction s as [|c s IH]; [reflexivity|]. cbn [hang].
  destruct (Ascii.eqb_spec c LF) as [->|Hc].
  - cbn [hang]. rewrite Ascii.eqb_refl, hang_app, hang_spaces, IH.
    now rewrite spaces_add, append_assoc.
  - cbn [hang]. destruct (Ascii.eqb_spec c LF); [contradiction|].
    now rewrite IH.
Qed.

Lemma indent_tail_hang (s : string) : indent_tail s = hang 2 s.
Proof.
  induction s as [|c s IH]; [reflexivity|]. cbn [indent_tail hang].
  now rewrite IH.
Qed.

Lemma concat_cons (x : string) (xs : list string) :
  String.concat "" (x :: xs) = x +:+ String.concat "" xs.
Proof.
  destruct xs as [|y xs]; [now rewrite append_nil_r|]. reflexivity.
Qed.

Lemma hang_nl (n : nat) : hang n nl = nl +:+ spaces n.
Proof. unfold nl. cbn [hang]. rewrite Ascii.eqb_refl. now rewrite append_nil_r. Qed.

Lemma hang_entries (n : nat) (cs : list string) :
  spaces n +:+ hang n (entries cs)
  = String.concat ""
      (map (fun c => spaces (n + 2) +:+ hang (n + 2) c +:+ "," +:+ nl) cs)
      +:+ spaces n.
Proof.
  unfold entries. induction cs as [|c cs IH].
  - cbn. now rewrite append_nil_r.
  - cbn [map]. rewrite !concat_cons. unfold entry at 1, indent.
    rewrite !hang_app, indent_tail_hang, hang_hang.
    change (hang n "  ") with "  ". change (hang n ",") with ",".
    rewrite hang_nl, spaces_add. change (spaces 2) with "  ".
    rewrite !append_assoc. do 5 f_equal.
    rewrite IH. now rewrite spaces_add.
Qed.

Lemma hang_block (n : nat) (opener closer : string) (cs : list string) :
  hang n (block opener closer cs)
  = block_at n (hang n opener) (hang n closer) (map (hang (n + 2)) cs).
Proof.
  destruct cs as [|c cs]; [apply hang_app|].
  unfold block, block_at. cbn [map].
  rewrite !hang_app, hang_nl.
  rewrite !append_assoc. do 2 f_equal.
  rewrite <- !append_assoc, hang_entries.
  cbn [map]. rewrite !map_map. now rewrite !append_assoc.
Qed.

Lemma somes_map_option_map {A B : Type} (f : A -> B) (l : list (option A)) :
  somes (map (option_map f) l) = map f (somes l).
Proof.
  induction l as [|[a|] l IH]; cbn [map somes option_map];
    [reflexivity | now rewrite IH | exact IH].
Qed.

Lemma render_at_children (n : nat) (es : list Tree) :
  Forall (fun e => forall u, render_at u e = option_map (hang u) (render e)) es ->
  somes (map (render_at n) es) = map (hang n) (somes (map render es)).
Proof.
  intros H. rewrite <- somes_map_option_map, map_map. f_equal.
  apply map_ext_Forall. eapply Forall_impl; [exact H|]. cbn beta.
  intros e He. apply He.
Qed.

Lemma render_at_pairs (n : nat) (sep : string) (kvs : list (string * Tree)) :
  Forall (fun kv => forall u, render_at u (snd kv)
                              = option_map (hang u) (render (snd kv))) kvs ->
  hang n sep = sep ->
  somes (map (fun kv => option_map (fun o => hang n (fst kv) +:+ sep +:+ o)
                                   (render_at n (snd kv))) kvs)
  = map (hang n)
        (somes (map (fun kv => option_map (fun o => fst kv +:+ sep +:+ o)
                                          (render (snd kv))) kvs)).
Proof.
  intros H Hsep. rewrite <- somes_map_option_map, map_map. f_equal.
  apply map_ext_Forall. eapply Forall_impl; [exact H|]. cbn beta.
  intros kv Hkv. rewrite Hkv. destruct (render (snd kv)) as [o|];
    cbn [option_map]; [|reflexivity].
  now rewrite !hang_app, Hsep.
Qed.

Lemma full_hang (u : nat) (f : string) (outs : list string) :
  match map (hang (u + 2)) outs with
  | [] => None
  | s :: l => Some (hang u f +:+ block_at u "(" ")" (s :: l))
  end
  = option_map (hang u)
               match outs with
               | [] => None
               | s :: l => Some (f +:+ block "(" ")" (s :: l))
               end.
Proof.
  destruct outs as [|o outs]; [reflexivity|]. cbn [map option_map].
  now rewrite hang_app, hang_block.
Qed.

(** Rendering at [u] columns is rendering, moved [u] columns right. *)
Lemma render_at_hang (t : Tree) :
  forall u, render_at u t = option_map (hang u) (render t).
Proof.
  induction t as [a|es IH|kvs IH|f ps el IH] using Tree_ind'; intros u.
  - reflexivity.
  - cbn [render_at render option_map].
    now rewrite hang_block, (render_at_children _ _ IH).
  - cbn [render_at render option_map].
    rewrite hang_block. now rewrite (render_at_pairs _ ": " _ IH eq_refl).
  - cbn [render_at render].
    rewrite (render_at_pairs _ " = " _ IH eq_refl).
    set (outs := somes (map (fun pv => option_map
                                         (fun o => fst pv +:+ " = " +:+ o)
                                         (render (snd pv))) ps)).
    pose proof (full_hang u f outs) as Hfull.
    destruct ps as [|[p v] [|pv ps]]; [exact Hfull | | exact Hfull].
    destruct el as [e|]; [|exact Hfull].
    destruct (String.eqb p e); [|exact Hfull].
    apply Forall_inv in IH. apply IH.
Qed.

Lemma render_at_0 (t : Tree) : render_at 0 t = render t.
Proof.
  rewrite render_at_hang. destruct (render t) as [o|]; [|reflexivity].
  cbn [option_map]. now rewrite hang_0.
Qed.

Lemma ends_with_newline_snoc (a : string) (c : ascii) :
  ends_with_newline (a +:+ String c "") = Ascii.eqb c LF.
Proof.
  induction a as [|x a IH]; [reflexivity|].
  rewrite append_cons. cbn [ends_with_newline]. rewrite IH.
  destruct a; reflexivity.
Qed.

Lemma ends_with_newline_block (opener : string) (c : ascii) (cs : list string) :
  Ascii.eqb c LF = false ->
  ends_with_newline (block opener (String c "") cs) = false.
Proof.
  intros Hc. unfold block. destruct cs as [|x cs].
  - now rewrite ends_with_newline_snoc.
  - rewrite <- !append_assoc. now rewrite ends_with_newline_snoc.
Qed.

End RenderAt.

(** ** Reading back what was rendered *)

Section Lexing.

Import Starlark Lex SpecTrees.

Lemma skip_ws_spaces (n : nat) (s : string) :
  skip_ws (spaces n +:+ s) = skip_ws s.
Proof. induction n as [|n IH]; [reflexivity|]. exact IH. Qed.

Lemma skip_ws_nl (s : string) : skip_ws (nl +:+ s) = skip_ws s.
Proof. reflexivity. Qed.

Lemma skip_ws_start (c : ascii) (s : string) :
  is_space c = false -> skip_ws (String c s) = String c s.
Proof. intros H. cbn [skip_ws]. now rewrite H. Qed.

Lemma span_all (p : ascii -> bool) (a rest : string) :
  all_chars p a = true -> not_head p rest = true ->
  span p (a +:+ rest) = (a, rest).
Proof.
  intros Ha Hr. induction a as [|c a IH].
  - rewrite append_nil_l. destruct rest as [|c r]; [reflexivity|].
    cbn [not_head] in Hr. cbn [span].
    now destruct (p c).
  - cbn [all_chars] in Ha. apply andb_prop in Ha as [Hc Ha].
    rewrite append_cons. cbn [span]. rewrite Hc, (IH Ha). reflexivity.
Qed.

Lemma stop_cases (rest : string) :
  stop rest = true ->
  rest = "" \/ exists c r, rest = String c r
                           /\ (c = ","%char \/ c = ":"%char \/ c = " "%char
                               \/ c = LF).
Proof.
  destruct rest as [|c r]; [now left|]. cbn [stop]. unfold is_space.
  intros H. right. exists c, r. split; [reflexivity|].
  repeat (apply orb_prop in H as [H|H]);
    apply Ascii.eqb_eq in H; tauto.
Qed.

Lemma stop_not_digit (rest : string) :
  stop rest = true -> not_head is_digit rest = true.
Proof.
  intros H. destruct (stop_cases rest H) as [->|(c & r & -> & Hc)];
    [reflexivity|].
  destruct Hc as [->|[->|[->| ->]]]; reflexivity.
Qed.

Lemma stop_not_alpha (rest : string) :
  stop rest = true -> not_head is_alpha rest = true.
Proof.
  intros H. destruct (stop_cases rest H) as [->|(c & r & -> & Hc)];
    [reflexivity|].
  destruct Hc as [->|[->|[->| ->]]]; reflexivity.
Qed.

Lemma digit_cases (c : ascii) :
  is_digit c = true ->
  In c ["0"; "1"; "2"; "3"; "4"; "5"; "6"; "7"; "8"; "9"]%char.
Proof.
  unfold is_digit. intros H. apply existsb_exists in H as (d & Hin & Hd).
  apply Ascii.eqb_eq in Hd. now subst.
Qed.

Lemma digit_start (c : ascii) :
  is_digit c = true ->
  atom_start c = true /\ Ascii.eqb c DQ = false /\ Ascii.eqb c LF = false.
Proof.
  intros H. apply digit_cases in H. cbn [In] in H.
  repeat (destruct H as [<-|H]; [repeat split|]). contradiction.
Qed.

Lemma uint_text (d : Decimal.uint) :
  all_chars is_digit (NilEmpty.string_of_uint d) = true.
Proof. induction d; cbn [NilEmpty.string_of_uint all_chars]; auto. Qed.

Lemma uint_text_nonnil (d : Decimal.uint) :
  d <> Decimal.Nil ->
  exists c ds, NilZero.string_of_uint d = String c ds
               /\ is_digit c = true /\ all_chars is_digit ds = true.
Proof.
  intros Hd. pose proof (uint_text d) as Hall.
  destruct d; [contradiction| ..];
    cbn [NilZero.string_of_uint NilEmpty.string_of_uint] in *;
    cbn [all_chars] in Hall; apply andb_prop in Hall as [Hc Hds];
    eexists _, _; (split; [reflexivity|]); split; assumption.
Qed.

(** The text of an integer: a digit or a minus sign, then digits; and the
    library reads it back. *)
Lemma int_text (z : Z) :
  exists c ds,
    str_of_int z = String c ds
    /\ (c = "-"%char \/ is_digit c = true)
    /\ all_chars is_digit ds = true
    /\ NilZero.int_of_string (String c ds) = Some (Z.to_int z).
Proof.
  assert (Hisi : NilZero.int_of_string (str_of_int z) = Some (Z.to_int z)).
  { unfold str_of_int. apply NilZero.isi; destruct z; cbn [Z.to_int];
      try discriminate; intros [= H];
      now apply DecimalPos.Unsigned.to_uint_nonnil in H. }
  unfold str_of_int in *. destruct z as [|p|p]; cbn [Z.to_int] in *.
  - exists "0"%char, "". repeat split; auto.
  - destruct (uint_text_nonnil (Pos.to_uint p)
                               (DecimalPos.Unsigned.to_uint_nonnil p))
      as (c & ds & Heq & Hc & Hds).
    cbn [NilZero.string_of_int] in *. rewrite Heq in *.
    exists c, ds. repeat split; auto.
  - cbn [NilZero.string_of_int] in *.
    exists "-"%char, (NilZero.string_of_uint (Pos.to_uint p)).
    split; [reflexivity|]. split; [now left|]. split; [|exact Hisi].
    destruct (uint_text_nonnil (Pos.to_uint p)
                               (DecimalPos.Unsigned.to_uint_nonnil p))
      as (c & ds & Heq & Hc & Hds).
    rewrite Heq. cbn [all_chars]. now rewrite Hc, Hds.
Qed.

Lemma all_chars_impl (p q : ascii -> bool) (s : string) :
  (forall c, p c = true -> q c = true) ->
  all_chars p s = true -> all_chars q s = true.
Proof.
  intros Hpq. induction s as [|c s IH]; [reflexivity|]. cbn [all_chars].
  intros H. apply andb_prop in H as [Hc Hs]. now rewrite (Hpq c Hc), (IH Hs).
Qed.

Lemma all_chars_app (p : ascii -> bool) (a b : string) :
  all_chars p (a +:+ b) = all_chars p a && all_chars p b.
Proof.
  induction a as [|c a IH]; [reflexivity|].
  rewrite append_cons. cbn [all_chars]. now rewrite IH, andb_assoc.
Qed.

Lemma hang_no_lf (n : nat) (s : string) : no_lf s = true -> hang n s = s.
Proof.
  unfold no_lf. induction s as [|c s IH]; [reflexivity|]. cbn [all_chars hang].
  intros H. apply andb_prop in H as [Hc Hs].
  apply negb_true_iff in Hc. now rewrite Hc, (IH Hs).
Qed.

(** A plain string comes back from its escaped text. *)
Lemma string_body_escape (s rest : string) :
  plain_string s = true ->
  string_body (Spec.escape_quotes s +:+ dq +:+ rest) = Some (s, rest).
Proof.
  induction s as [|c s IH]; intros Hp.
  - reflexivity.
  - cbn [plain_string] in Hp. apply andb_prop in Hp as [Hc Hs].
    apply andb_prop in Hc as [Hbs Hlf].
    apply negb_true_iff in Hbs, Hlf. specialize (IH Hs).
    cbn [Spec.escape_quotes]. destruct (Ascii.eqb_spec c DQ) as [->|Hdq].
    + rewrite !append_cons. cbn [string_body].
      change (Ascii.eqb BS DQ) with false. change (Ascii.eqb BS LF) with false.
      change (Ascii.eqb BS BS) with true. change (unescape DQ) with (Some DQ).
      cbv iota. now rewrite IH.
    + rewrite append_cons. cbn [string_body].
      destruct (Ascii.eqb_spec c DQ) as [|_]; [contradiction|].
      now rewrite Hlf, Hbs, IH.
Qed.

Lemma escape_no_lf (s : string) :
  plain_string s = true -> no_lf (Spec.escape_quotes s) = true.
Proof.
  unfold no_lf. induction s as [|c s IH]; [reflexivity|].
  cbn [plain_string]. intros Hp. apply andb_prop in Hp as [Hc Hs].
  apply andb_prop in Hc as [Hbs Hlf]. cbn [Spec.escape_quotes].
  destruct (Ascii.eqb c DQ); cbn [all_chars]; rewrite (IH Hs);
    [reflexivity | now rewrite Hlf].
Qed.

Lemma parse_atom_word (w : string) (a : PyAtom) (rest : string) :
  In (w, a) [("None", PyNone); ("True", PyBool true); ("False", PyBool false)] ->
  stop rest = true ->
  parse_atom (w +:+ rest) = Some (a, rest).
Proof.
  intros Hin Hstop. apply stop_not_alpha in Hstop.
  assert (Hspan : forall w, all_chars is_alpha w = true ->
                            span is_alpha (w +:+ rest) = (w, rest))
    by (intros w' Hw; now apply span_all).
  cbn [In] in Hin.
  destruct Hin as [[= <- <-]|[[= <- <-]|[[= <- <-]|[]]]].
  - pose proof (Hspan "None" eq_refl) as H.
    rewrite (append_cons "N" "one" rest) in *.
    unfold parse_atom. rewrite H. reflexivity.
  - pose proof (Hspan "True" eq_refl) as H.
    rewrite (append_cons "T" "rue" rest) in *.
    unfold parse_atom. rewrite H. reflexivity.
  - pose proof (Hspan "False" eq_refl) as H.
    rewrite (append_cons "F" "alse" rest) in *.
    unfold parse_atom. rewrite H. reflexivity.
Qed.

Lemma parse_atom_int (z : Z) (rest : string) :
  stop rest = true ->
  parse_atom (str_of_int z +:+ rest) = Some (PyInt z, rest).
Proof.
  intros Hstop. apply stop_not_digit in Hstop.
  destruct (int_text z) as (c & ds & Heq & Hc & Hds & Hread).
  rewrite Heq, append_cons. unfold parse_atom.
  rewrite (span_all is_digit ds rest Hds Hstop). cbn [fst snd].
  rewrite Hread. cbn [option_map]. rewrite DecimalZ.of_to.
  destruct Hc as [->|Hc]; [reflexivity|].
  destruct (digit_start c Hc) as (_ & -> & _). rewrite Hc.
  now rewrite orb_true_r.
Qed.

Lemma parse_atom_str (s rest : string) :
  plain_string s = true ->
  parse_atom (quoted (Spec.escape_quotes s) +:+ rest) = Some (PyStr s, rest).
Proof.
  intros Hp. unfold quoted, dq. rewrite !append_cons, append_nil_l.
  rewrite append_assoc. unfold parse_atom. rewrite Ascii.eqb_refl.
  fold dq. now rewrite (string_body_escape s rest Hp).
Qed.

(** The text of a plain atom: where it starts, that it has one line, and
    that it reads back. *)
Lemma atom_round_trip (a : PyAtom) :
  plain_atom a = true ->
  exists c x,
    convert_atom a = Ok (String c x)
    /\ atom_start c = true
    /\ no_lf (String c x) = true
    /\ forall rest, stop rest = true ->
                    parse_atom (String c x +:+ rest) = Some (a, rest).
Proof.
  intros Hp. destruct a as [|b|z|s|r t]; [| | | |discriminate Hp].
  - exists "N"%char, "one". repeat split.
    intros rest Hrest. apply (parse_atom_word "None"); cbn [In]; auto.
  - destruct b.
    + exists "T"%char, "rue". repeat split.
      intros rest Hrest. apply (parse_atom_word "True"); cbn [In]; auto.
    + exists "F"%char, "alse". repeat split.
      intros rest Hrest. apply (parse_atom_word "False"); cbn [In]; auto.
  - destruct (int_text z) as (c & ds & Heq & Hc & Hds & _).
    exists c, ds. cbn [convert_atom py_str]. rewrite Heq.
    split; [reflexivity|].
    assert (Hlf : all_chars (fun c => negb (Ascii.eqb c LF)) ds = true).
    { revert Hds. apply all_chars_impl. intros d Hd.
      destruct (digit_start d Hd) as (_ & _ & ->). reflexivity. }
    split; [|split].
    + destruct Hc as [->|Hc]; [reflexivity|]. now apply digit_start.
    + unfold no_lf. cbn [all_chars]. rewrite Hlf.
      destruct Hc as [->|Hc]; [reflexivity|].
      destruct (digit_start c Hc) as (_ & _ & ->). reflexivity.
    + intros rest Hrest. rewrite <- Heq. now apply parse_atom_int.
  - cbn [plain_atom] in Hp. rewrite convert_atom_str.
    exists DQ, (Spec.escape_quotes s +:+ dq).
    split; [reflexivity|]. split; [reflexivity|]. split.
    + unfold no_lf. cbn [all_chars].
      rewrite all_chars_app. fold (no_lf (Spec.escape_quotes s)).
      now rewrite (escape_no_lf s Hp).
    + intros rest Hrest.
      change (String DQ (Spec.escape_quotes s +:+ dq))
        with (quoted (Spec.escape_quotes s)).
      now apply parse_atom_str.
Qed.

Lemma atom_text_inj (a b : PyAtom) :
  plain_atom a = true -> plain_atom b = true ->
  atom_text a = atom_text b -> a = b.
Proof.
  intros Ha Hb. unfold atom_text.
  destruct (atom_round_trip a Ha) as (c & x & -> & _ & _ & Hra).
  destruct (atom_round_trip b Hb) as (d & y & -> & _ & _ & Hrb).
  intros Heq. specialize (Hra "" eq_refl). specialize (Hrb "" eq_refl).
  rewrite Heq in Hra. congruence.
Qed.

End Lexing.

(** ** What the trees of [Den] are *)

Lemma fold_r_app {A S : Type} (xs ys : list A) (st : S)
      (body : S -> A -> result S) :
  Den.fold_r (xs ++ ys) st body
  = Den.rbind (Den.fold_r xs st body) (fun st' => Den.fold_r ys st' body).
Proof.
  revert st. induction xs as [|x xs IH]; intros st; [reflexivity|].
  cbn [app Den.fold_r]. destruct (body st x) as [st1|e]; cbn [Den.rbind];
    [apply IH | reflexivity].
Qed.

(** A computation that returns stands for a result. *)
Lemma sim_ok {A T : Type} (m : M A) (d : result T) (s s' : store) (a : A)
      (R : A -> store -> T -> Prop) :
  sim m d s R -> m s = Ok (a, s') -> exists t, d = Ok t /\ R a s' t.
Proof.
  unfold sim. destruct d as [t|e]; [|congruence].
  intros (a' & s'' & Hm & HR) Hm'. rewrite Hm in Hm'.
  injection Hm' as -> ->. now exists t.
Qed.

Lemma sim_raise {A T : Type} (m : M A) (d : result T) (s : store) (e : PyExc)
      (R : A -> store -> T -> Prop) :
  sim m d s R -> d = Raise e -> m s = Raise e.
Proof. unfold sim. now intros H ->. Qed.

Lemma unhandled_key_eq (schema : string) (key : PyAtom) :
  unhandled_key schema key = Spec.unhandled schema key.
Proof. reflexivity. Qed.

Lemma key_in_app (key : PyAtom) (a b : list string) :
  key_in key (a ++ b) = key_in key a || key_in key b.
Proof. unfold key_in. apply existsb_app. Qed.










Lemma fold_r_stops {A S : Type} (pre post : list A) (x : A) (st st1 : S)
      (body : S -> A -> result S) (e : PyExc) :
  Den.fold_r pre st body = Ok st1 -> body st1 x = Raise e ->
  Den.fold_r (pre ++ x :: post) st body = Raise e.
Proof.
  intros Hpre Hx. rewrite fold_r_app, Hpre. cbn [Den.rbind Den.fold_r].
  now rewrite Hx.
Qed.


Lemma fold_r_snoc_ok {A S : Type} (xs : list A) (x : A) (st st' : S)
      (body : S -> A -> result S) :
  Den.fold_r (xs ++ [x]) st body = Ok st' ->
  exists st1, Den.fold_r xs st body = Ok st1 /\ body st1 x = Ok st'.
Proof.
  rewrite fold_r_app. destruct (Den.fold_r xs st body) as [st1|e];
    cbn [Den.rbind Den.fold_r]; [|discriminate].
  destruct (body st1 x) as [st2|e] eqn:Hx; cbn [Den.rbind]; [|discriminate].
  intros [= <-]. now exists st1.
Qed.












(** The same for a whole suite, whose loop stops at the entry that
    raises. *)
Lemma suite_stops {S T : Type} (body : S -> PyAtom * PyVal -> result S)
      (finish : S -> result T) (init : S)
      (epre epost : list (PyAtom * PyVal)) (good bad : PyAtom * PyVal)
      (e : PyExc) (t : T) :
  (forall acc acc', body acc good = Ok acc' -> body acc bad = Raise e) ->
  Den.rbind (Den.fold_r (epre ++ [good]) init body) finish = Ok t ->
  Den.rbind (Den.fold_r (epre ++ bad :: epost) init body) finish = Raise e.
Proof.
  intros Hbody Hgood.
  destruct (Den.fold_r (epre ++ [good]) init body) as [acc'|e'] eqn:Hf;
    [|discriminate].
  apply fold_r_snoc_ok in Hf as (acc & Hpre & Hg).
  now rewrite (fold_r_stops epre epost bad init acc body e Hpre
                            (Hbody _ _ Hg)).
Qed.


(** *** Strings convert to different atoms *)

Lemma escape_quotes_head (s r : string) : Spec.escape_quotes s <> String DQ r.
Proof.
  destruct s as [|c s]; [discriminate|]. cbn [Spec.escape_quotes].
  destruct (Ascii.eqb_spec c DQ) as [->|Hne]; [discriminate | congruence].
Qed.

Lemma escape_quotes_inj (a b : string) :
  Spec.escape_quotes a = Spec.escape_quotes b -> a = b.
Proof.
  revert b. induction a as [|x a IH]; intros [|y b]; cbn [Spec.escape_quotes].
  - reflexivity.
  - destruct (Ascii.eqb y DQ); discriminate.
  - destruct (Ascii.eqb x DQ); discriminate.
  - destruct (Ascii.eqb_spec x DQ) as [->|Hx],
             (Ascii.eqb_spec y DQ) as [->|Hy]; intros H.
    + injection H as H. now rewrite (IH b H).
    + injection H as <- H. symmetry in H. now apply escape_quotes_head in H.
    + injection H as -> H. now apply escape_quotes_head in H.
    + injection H as -> H. now rewrite (IH b H).
Qed.

Lemma append_inv_r (a b c : string) : a +:+ c = b +:+ c -> a = b.
Proof.
  intros H. assert (Hl : String.length a = String.length b).
  { apply (f_equal String.length) in H. rewrite !length_append in H. lia. }
  revert b H Hl. induction a as [|x a IH]; intros [|y b] H Hl;
    try discriminate Hl; [reflexivity|].
  rewrite !append_cons in H. injection H as -> H.
  f_equal. apply IH; [exact H | now injection Hl].
Qed.

Lemma literal_inj (a b : string) : Spec.literal a = Spec.literal b -> a = b.
Proof.
  unfold Spec.literal, quoted, dq. rewrite !append_cons, !append_nil_l.
  intros [= H]. apply escape_quotes_inj. now apply append_inv_r in H.
Qed.

Lemma direct_str (s : string) : Den.direct (PyA (PyStr s)) = Ok (TAtom (Spec.literal s)).
Proof. cbn [Den.direct]. now rewrite convert_atom_str. Qed.

Lemma map_r_cons {A B : Type} (f : A -> result B) (x : A) (xs : list A) :
  Den.map_r f (x :: xs)
  = Den.rbind (f x) (fun y => Den.rbind (Den.map_r f xs)
                                        (fun ys => Ok (y :: ys))).
Proof. reflexivity. Qed.

Lemma direct_names (names : list string) :
  Den.map_r Den.direct (map (fun n => PyA (PyStr n)) names)
  = Ok (map (fun n => TAtom (Spec.literal n)) names).
Proof.
  induction names as [|n names IH]; [reflexivity|].
  cbn [map]. rewrite map_r_cons, direct_str. cbn [Den.rbind].
  now rewrite IH.
Qed.

(** *** The keys of one test *)

(** Cases on the test of the first [if] of the goal. *)
Ltac head_if H :=
  match goal with
  | |- (if ?c then _ else _) = _ -> _ => destruct c eqn:H
  end.

Lemma key_is_true (key : PyAtom) (n : string) :
  key_is key n = true -> key = PyStr n.
Proof.
  destruct key; try discriminate. cbn [key_is].
  intros H. apply String.eqb_eq in H. now subst.
Qed.

Lemma classify_mixins (key : PyAtom) :
  Den.classify key = Ok Den.Mixins -> key = PyStr "mixins".
Proof.
  unfold Den.classify. do 6 (head_if H; [discriminate | clear H]).
  head_if H; [intros _; now apply key_is_true|].
  head_if H'; discriminate.
Qed.

Lemma classify_remove_mixins (key : PyAtom) :
  Den.classify key = Ok Den.RemoveMixins -> key = PyStr "remove_mixins".
Proof.
  unfold Den.classify. do 7 (head_if H; [discriminate | clear H]).
  head_if H; [intros _; now apply key_is_true | discriminate].
Qed.

Lemma key_in_true (key : PyAtom) (names : list string) (n : string) :
  In n names -> key_is key n = true -> key_in key names = true.
Proof.
  intros Hin Hk. unfold key_in. apply existsb_exists. now exists n.
Qed.

Lemma key_in_incl (key : PyAtom) (a b : list string) :
  incl a b -> key_in key a = true -> key_in key b = true.
Proof.
  unfold key_in. intros Hincl H. apply existsb_exists in H as (n & Hin & Hk).
  apply existsb_exists. exists n. split; [now apply Hincl | exact Hk].
Qed.

Ltac in_keys :=
  intros ? ?; cbn [In] in *; unfold Spec.anon_keys; cbn [In];
  repeat match goal with H : _ \/ _ |- _ => destruct H as [H|H] end;
  subst; try contradiction; tauto.

Lemma classify_field (key : PyAtom) (name : string) (c : Den.conv) :
  Den.classify key = Ok (Den.Field name c) ->
  key_in key Spec.anon_keys = true.
Proof.
  unfold Den.classify.
  head_if H0; [discriminate|].
  head_if H1; [intros _; eapply key_in_incl; [|exact H1]; in_keys|].
  head_if H2; [intros _; eapply key_in_incl; [|exact H2]; in_keys|].
  head_if H3.
  { intros _. eapply key_in_true; [|exact H3].
    unfold Spec.anon_keys. cbn [In]. tauto. }
  head_if H4; [intros _; eapply key_in_incl; [|exact H4]; in_keys|].
  head_if H5.
  { intros _. eapply key_in_true; [|exact H5].
    unfold Spec.anon_keys. cbn [In]. tauto. }
  head_if H6; [discriminate|]. head_if H7; discriminate.
Qed.

(** What one key does to the state of the loop. *)
Lemma test_key_step (st st' : Den.test_state) (k : PyAtom) (v : PyVal) :
  Den.test_key st (k, v) = Ok st' ->
  (key_in k Spec.anon_keys = false -> Den.anon st' = Den.anon st)
  /\ (k <> PyStr "mixins" -> Den.named st' = Den.named st)
  /\ (k <> PyStr "remove_mixins" -> Den.mods st' = Den.mods st)
  /\ (k = PyStr "mixins" ->
      exists es ts, py_iter v = Ok es /\ Den.map_r Den.direct es = Ok ts
                    /\ Den.named st' = Some ts)
  /\ (k = PyStr "remove_mixins" ->
      exists ms ts, py_iter v = Ok ms /\ Den.map_r Den.direct ms = Ok ts
                    /\ Den.mods st'
                       = dict_set "remove_mixins"
                                  (TList (TAtom remove_mixins_guard :: ts))
                                  (Den.mods st)).
Proof.
  unfold Den.test_key. cbn [fst snd].
  destruct (Den.classify k) as [[|name c| |]|e] eqn:Hc; cbn [Den.rbind];
    [| | | |discriminate].
  - intros [= <-]. split; [|split; [|split; [|split]]]; try reflexivity.
    + intros ->. discriminate Hc.
    + intros ->. discriminate Hc.
  - destruct (Den.conv_den c v) as [t|e]; cbn [Den.rbind]; [|discriminate].
    intros [= <-]. cbn [Den.anon Den.named Den.mods].
    split; [|split; [|split; [|split]]]; try reflexivity.
    + intros Hk. now rewrite (classify_field _ _ _ Hc) in Hk.
    + intros ->. discriminate Hc.
    + intros ->. discriminate Hc.
  - destruct (py_iter v) as [es|e]; cbn [Den.rbind]; [|discriminate].
    destruct (Den.map_r Den.direct es) as [ts|e] eqn:Hts; cbn [Den.rbind];
      [|discriminate].
    intros [= <-]. cbn [Den.anon Den.named Den.mods].
    split; [|split; [|split; [|split]]]; try reflexivity.
    + intros Hk. now apply classify_mixins in Hc.
    + intros _. now exists es, ts.
    + intros ->. discriminate Hc.
  - destruct (py_iter v) as [ms|e]; cbn [Den.rbind]; [|discriminate].
    destruct (Den.map_r Den.direct ms) as [ts|e] eqn:Hts; cbn [Den.rbind];
      [|discriminate].
    intros [= <-]. cbn [Den.anon Den.named Den.mods].
    split; [|split; [|split; [|split]]]; try reflexivity.
    + intros Hk. now apply classify_remove_mixins in Hc.
    + intros ->. discriminate Hc.
    + intros _. now exists ms, ts.
Qed.

Lemma not_in_keys (k : PyAtom) (keys : list (PyAtom * PyVal)) :
  ~ In k (map fst keys) -> forall v, ~ In (k, v) keys.
Proof. intros Hn v Hin. apply Hn. now apply (in_map fst) in Hin. Qed.

(** What the keys of a test, each of them there once, do to the state of
    the loop. *)
Lemma fold_keys_shape (keys : list (PyAtom * PyVal)) :
  forall st st' : Den.test_state,
    Den.fold_r keys st Den.test_key = Ok st' ->
    NoDup (map fst keys) ->
    ((forall kv, In kv keys -> key_in (fst kv) Spec.anon_keys = false) ->
     Den.anon st' = Den.anon st)
    /\ (~ In (PyStr "mixins") (map fst keys) -> Den.named st' = Den.named st)
    /\ (~ In (PyStr "remove_mixins") (map fst keys) ->
        Den.mods st' = Den.mods st)
    /\ (forall v, In (PyStr "mixins", v) keys ->
                  exists es ts,
                    py_iter v = Ok es /\ Den.map_r Den.direct es = Ok ts
                    /\ Den.named st' = Some ts)
    /\ (forall v, In (PyStr "remove_mixins", v) keys ->
                  exists ms ts,
                    py_iter v = Ok ms /\ Den.map_r Den.direct ms = Ok ts
                    /\ Den.mods st'
                       = dict_set "remove_mixins"
                                  (TList (TAtom remove_mixins_guard :: ts))
                                  (Den.mods st)).
Proof.
  induction keys as [|[k v0] keys IH]; intros st st' Hfold Hnd.
  - injection Hfold as <-.
    split; [reflexivity|]. split; [reflexivity|]. split; [reflexivity|].
    split; intros v [].
  - cbn [Den.fold_r] in Hfold.
    destruct (Den.test_key st (k, v0)) as [st1|e] eqn:Hstep;
      cbn [Den.rbind] in Hfold; [|discriminate].
    cbn [map fst] in Hnd. apply NoDup_cons in Hnd as [Hk Hnd].
    destruct (test_key_step _ _ _ _ Hstep) as (S1 & S2 & S3 & S4 & S5).
    destruct (IH st1 st' Hfold Hnd) as (I1 & I2 & I3 & I4 & I5).
    split; [|split; [|split; [|split]]].
    + intros Hall. rewrite I1 by (intros kv Hin; apply Hall; now right).
      apply S1. apply (Hall (k, v0)). now left.
    + cbn [map fst In]. intros Hn. rewrite I2 by tauto.
      apply S2. intros ->. tauto.
    + cbn [map fst In]. intros Hn. rewrite I3 by tauto.
      apply S3. intros ->. tauto.
    + intros v [[= -> ->]|Hin].
      * destruct (S4 eq_refl) as (es & ts & Hes & Hts & Hnamed).
        exists es, ts. split; [exact Hes|]. split; [exact Hts|].
        rewrite I2; [exact Hnamed|].
        intros Hin. apply Hk. now rewrite list_elem_of_In.
      * destruct (I4 v Hin) as (es & ts & Hes & Hts & Hnamed).
        now exists es, ts.
    + intros v [[= -> ->]|Hin].
      * destruct (S5 eq_refl) as (ms & ts & Hms & Hts & Hmods).
        exists ms, ts. split; [exact Hms|]. split; [exact Hts|].
        rewrite I3; [exact Hmods|].
        intros Hin. apply Hk. now rewrite list_elem_of_In.
      * destruct (I5 v Hin) as (ms & ts & Hms & Hts & Hmods).
        exists ms, ts. split; [exact Hms|]. split; [exact Hts|].
        rewrite Hmods. f_equal. apply S3. intros ->.
        apply Hk. rewrite list_elem_of_In. now apply (in_map fst) in Hin.
Qed.

(** *** The tests of a suite *)

Lemma suite_fold_lookup (tests : list (string * PyVal)) :
  forall acc acc' : list Tree * list (string * Tree),
    Den.fold_r (map (fun e => (PyStr (fst e), snd e)) tests) acc Den.suite_test
    = Ok acc' ->
    NoDup (map fst tests) ->
    fst acc' = fst acc ++ map (fun e => TAtom (Spec.literal (fst e))) tests
    /\ (forall n, ~ In n (map fst tests) ->
                  dict_get (Spec.literal n) (snd acc')
                  = dict_get (Spec.literal n) (snd acc))
    /\ (forall name v, In (name, v) tests ->
                       exists t, Den.test_of v = Ok t
                                 /\ dict_get (Spec.literal name) (snd acc')
                                    = Some t).
Proof.
  induction tests as [|[name0 v0] tests IH]; intros acc acc' Hfold Hnd.
  - injection Hfold as <-. split; [now rewrite app_nil_r|].
    split; [reflexivity | intros name v []].
  - cbn [map fst snd Den.fold_r] in Hfold.
    unfold Den.suite_test at 1 in Hfold. cbn [fst snd] in Hfold.
    rewrite convert_atom_str in Hfold. cbn [Den.rbind] in Hfold.
    destruct (Den.test_of v0) as [t0|e] eqn:Ht0; cbn [Den.rbind] in Hfold;
      [|discriminate].
    cbn [map fst] in Hnd. apply NoDup_cons in Hnd as [Hk Hnd].
    rewrite list_elem_of_In in Hk.
    destruct (IH _ acc' Hfold Hnd) as (I1 & I2 & I3). cbn [fst snd] in I1, I2.
    split; [|split].
    + rewrite I1. cbn [map fst]. now rewrite <- app_assoc.
    + intros n Hn. cbn [map fst In] in Hn. rewrite I2 by tauto.
      apply dict_get_set_ne. intros Heq. apply literal_inj in Heq. tauto.
    + intros name v [[= -> ->]|Hin].
      * exists t0. split; [exact Ht0|]. rewrite I2 by exact Hk.
        apply dict_get_set_eq.
      * now apply I3.
Qed.

Lemma basic_suite_lookup (tests : list (string * PyVal)) (tT tD : Tree) :
  NoDup (map fst tests) ->
  Den.basic_suite (Spec.suite_of tests) = Ok (tT, tD) ->
  tT = TList (map (fun e => TAtom (Spec.literal (fst e))) tests)
  /\ exists items,
      tD = TDict items
      /\ forall name v, In (name, v) tests ->
                        exists t, Den.test_of v = Ok t
                                  /\ dict_get (Spec.literal name) items = Some t.
Proof.
  intros Hnd. unfold Den.basic_suite, Spec.suite_of. cbn [py_items Den.rbind].
  destruct (Den.fold_r _ _ _) as [acc|e] eqn:Hfold; cbn [Den.rbind];
    [|discriminate].
  intros [= <- <-]. destruct (suite_fold_lookup _ _ _ Hfold Hnd) as (H1 & _ & H3).
  split; [now rewrite H1|]. now exists (snd acc).
Qed.

(** The store at the end of [build_basic_suite] and the tests of the
    suite. *)
Lemma build_basic_suite_tests (tests : list (string * PyVal)) (s s' : store)
      (bs : nat * nat) :
  NoDup (map fst tests) ->
  build_basic_suite (Spec.suite_of tests) s = Ok (bs, s') ->
  snapshot (length s') s' (Ref (fst bs))
  = Some (TList (map (fun e => TAtom (Spec.literal (fst e))) tests))
  /\ exists items,
      snapshot (length s') s' (Ref (snd bs)) = Some (TDict items)
      /\ forall name v, In (name, v) tests ->
                        exists t, Den.test_of v = Ok t
                                  /\ dict_get (Spec.literal name) items = Some t.
Proof.
  intros Hnd Hrun.
  destruct (sim_ok _ _ _ _ _ _ (build_basic_suite_sim _ s) Hrun)
    as ([tT tD] & Hden & _ & HT & HD).
  destruct (basic_suite_lookup tests tT tD Hnd Hden) as (-> & items & -> & Hall).
  split; [exact HT|]. now exists items.
Qed.

(** ** The tree of a plain value *)

Section PlainTrees.

Import Starlark Lex SpecTrees.

Lemma convert_atom_plain (a : PyAtom) :
  plain_atom a = true -> convert_atom a = Ok (atom_text a).
Proof.
  intros Hp. unfold atom_text.
  now destruct (atom_round_trip a Hp) as (c & x & -> & _).
Qed.

Lemma atom_eqb_refl (a : PyAtom) : atom_eqb a a = true.
Proof.
  destruct a as [|b|z|s|r t]; cbn [atom_eqb]; auto using Z.eqb_refl,
    String.eqb_refl.
  - now destruct b.
  - rewrite String.eqb_refl. now destruct t.
Qed.

Lemma dict_set_fresh {V : Type} (k : string) (v : V) (acc : list (string * V)) :
  ~ In k (map fst acc) -> dict_set k v acc = acc ++ [(k, v)].
Proof.
  induction acc as [|[k' v'] acc IH]; [reflexivity|].
  cbn [map fst In dict_set]. intros Hn.
  destruct (String.eqb_spec k' k) as [->|_]; [tauto|].
  rewrite IH by tauto. reflexivity.
Qed.

Lemma comprehension_r_plain (g : PyVal -> result Tree)
      (d : list (PyAtom * PyVal)) :
  (forall kv, In kv d ->
              plain_atom (fst kv) = true
              /\ g (snd kv) = Ok (tree_of (snd kv))) ->
  distinct (map fst d) = true ->
  forall acc,
    (forall kv, In kv d -> ~ In (atom_text (fst kv)) (map fst acc)) ->
    Den.comprehension_r g acc d
    = Ok (acc ++ map (fun kv => (atom_text (fst kv), tree_of (snd kv))) d).
Proof.
  induction d as [|kv d IH]; intros Hall Hdis acc Hacc.
  - cbn [Den.comprehension_r map]. now rewrite app_nil_r.
  - cbn [map distinct] in Hdis. apply andb_prop in Hdis as [Hk Hdis].
    apply negb_true_iff in Hk.
    destruct (Hall kv (or_introl eq_refl)) as [Hpk Hg].
    cbn [Den.comprehension_r]. rewrite (convert_atom_plain _ Hpk), Hg.
    cbn [Den.rbind]. rewrite dict_set_fresh by (apply Hacc; now left).
    rewrite IH.
    + cbn [map]. now rewrite <- app_assoc.
    + intros kv' Hin. apply Hall. now right.
    + exact Hdis.
    + intros kv' Hin. rewrite map_app, in_app_iff. cbn [map fst In].
      intros [Hold|[Heq|[]]].
      * apply (Hacc kv'); [now right | exact Hold].
      * apply atom_text_inj in Heq;
          [|exact Hpk | apply Hall; now right].
        assert (Hex : existsb (atom_eqb (fst kv)) (map fst d) = true);
          [|congruence].
        apply existsb_exists. exists (fst kv'). split.
        -- apply in_map. exact Hin.
        -- rewrite Heq. apply atom_eqb_refl.
Qed.

Lemma map_r_plain (g : PyVal -> result Tree) (l : list PyVal) :
  (forall v, In v l -> g v = Ok (tree_of v)) ->
  Den.map_r g l = Ok (map tree_of l).
Proof.
  induction l as [|v l IH]; intros Hall; [reflexivity|].
  rewrite map_r_cons, (Hall v (or_introl eq_refl)). cbn [Den.rbind].
  rewrite IH by (intros v' Hin; apply Hall; now right). reflexivity.
Qed.

Lemma direct_plain (v : PyVal) :
  plain v = true -> Den.direct v = Ok (tree_of v).
Proof.
  induction v as [a|l IH|d IH] using PyVal_ind'; intros Hp.
  - cbn [plain] in Hp. cbn [Den.direct tree_of].
    now rewrite (convert_atom_plain a Hp).
  - cbn [plain] in Hp. cbn [Den.direct tree_of]. rewrite map_r_plain.
    + reflexivity.
    + intros v Hin. rewrite Forall_forall in IH. apply IH.
      * now apply list_elem_of_In.
      * rewrite forallb_forall in Hp. now apply Hp.
  - cbn [plain] in Hp. apply andb_prop in Hp as [Hall Hdis].
    cbn [Den.direct tree_of].
    rewrite (comprehension_r_plain Den.direct d); [reflexivity| |exact Hdis|].
    + intros kv Hin. rewrite forallb_forall in Hall.
      specialize (Hall kv Hin). apply andb_prop in Hall as [Hk Hv].
      split; [exact Hk|]. rewrite Forall_forall in IH.
      apply (IH kv); [now apply list_elem_of_In | exact Hv].
    + intros kv _ [].
Qed.

End PlainTrees.

(** ** The members of a rendered list and of a rendered dict *)

Section Members.

Import Starlark Lex SpecTrees.

Lemma items_S (p : string -> option (PyVal * string)) (k : nat) (s : string) :
  items p (S k) s
  = match skip_ws s with
    | "" => None
    | String c r =>
        if Ascii.eqb c "]" then Some ([], r)
        else
          match p (String c r) with
          | None => None
          | Some (v, s1) =>
              match skip_ws s1 with
              | "" => None
              | String c1 r1 =>
                  if Ascii.eqb c1 "," then
                    option_map (fun lr => (v :: fst lr, snd lr)) (items p k r1)
                  else if Ascii.eqb c1 "]" then Some ([v], r1)
                  else None
              end
          end
    end.
Proof. reflexivity. Qed.

Lemma pairs_S (p : string -> option (PyVal * string)) (k : nat) (s : string) :
  pairs p (S k) s
  = match skip_ws s with
    | "" => None
    | String c r =>
        if Ascii.eqb c "}" then Some ([], r)
        else
          match parse_atom (String c r) with
          | None => None
          | Some (key, s1) =>
              match skip_ws s1 with
              | "" => None
              | String c1 r1 =>
                  if Ascii.eqb c1 ":" then
                    match p r1 with
                    | None => None
                    | Some (v, s2) =>
                        match skip_ws s2 with
                        | "" => None
                        | String c2 r2 =>
                            if Ascii.eqb c2 "," then
                              option_map
                                (fun dr => ((key, v) :: fst dr, snd dr))
                                (pairs p k r2)
                            else if Ascii.eqb c2 "}" then
                              Some ([(key, v)], r2)
                            else None
                        end
                    end
                  else None
              end
          end
    end.
Proof. reflexivity. Qed.

Lemma parse_S (n : nat) (s : string) :
  parse (S n) s
  = match skip_ws s with
    | "" => None
    | String c r =>
        if Ascii.eqb c "[" then
          option_map (fun lr => (PyList (fst lr), snd lr))
                     (items (parse n) n r)
        else if Ascii.eqb c "{" then
          option_map (fun dr => (PyDict (fst dr), snd dr))
                     (pairs (parse n) n r)
        else
          option_map (fun ar => (PyA (fst ar), snd ar))
                     (parse_atom (String c r))
    end.
Proof. reflexivity. Qed.

Lemma parse_space (n : nat) (s : string) : parse n (" " +:+ s) = parse n s.
Proof. destruct n; reflexivity. Qed.

Lemma value_start_inv (c : ascii) :
  value_start c = true ->
  is_space c = false /\ Ascii.eqb c "]" = false /\ Ascii.eqb c "}" = false.
Proof.
  unfold value_start. intros H. apply andb_prop in H as [H H3].
  apply andb_prop in H as [H1 H2].
  now rewrite !negb_true_iff in *.
Qed.

Lemma atom_start_inv (c : ascii) :
  atom_start c = true ->
  value_start c = true /\ Ascii.eqb c "[" = false /\ Ascii.eqb c "{" = false.
Proof.
  unfold atom_start. intros H. apply andb_prop in H as [H _].
  apply andb_prop in H as [H _]. apply andb_prop in H as [H H3].
  apply andb_prop in H as [H1 H2].
  now rewrite !negb_true_iff in *.
Qed.

Lemma items_close (p : string -> option (PyVal * string)) (k u : nat)
      (rest : string) :
  items p (S k) (spaces u +:+ "]" +:+ rest) = Some ([], rest).
Proof. rewrite items_S, skip_ws_spaces. reflexivity. Qed.

Lemma pairs_close (p : string -> option (PyVal * string)) (k u : nat)
      (rest : string) :
  pairs p (S k) (spaces u +:+ "}" +:+ rest) = Some ([], rest).
Proof. rewrite pairs_S, skip_ws_spaces. reflexivity. Qed.

(** The members of a list, each on its own lines with a comma behind it. *)
Lemma items_entries (p : string -> option (PyVal * string)) (w u : nat)
      (rest : string) (l : list PyVal) (texts : list string) :
  Forall2 (fun v x =>
             started value_start x
             /\ forall r, stop r = true -> p (x +:+ r) = Some (v, r))
          l texts ->
  forall k, length l < k ->
    items p k (nl +:+ String.concat ""
                        (map (fun c => spaces w +:+ c +:+ "," +:+ nl) texts)
                  +:+ spaces u +:+ "]" +:+ rest)
    = Some (l, rest).
Proof.
  induction 1 as [|v x l texts [Hstart Hread] _ IH]; intros k Hk.
  - destruct k as [|k]; [lia|]. cbn [map String.concat].
    rewrite append_nil_l. rewrite items_S, skip_ws_nl.
    rewrite <- items_S. apply items_close.
  - destruct k as [|k]; [cbn [length] in Hk; lia|].
    cbn [map]. rewrite concat_cons, !append_assoc.
    rewrite items_S, skip_ws_nl, skip_ws_spaces.
    destruct Hstart as (c & x' & -> & Hc).
    apply value_start_inv in Hc as (Hsp & Hclose & _).
    rewrite append_cons, (skip_ws_start _ _ Hsp), Hclose.
    rewrite <- append_cons, Hread by reflexivity.
    change (skip_ws ("," +:+ ?Y)) with (String ","%char Y).
    cbv iota.
    change (Ascii.eqb "," ",") with true. cbv iota.
    rewrite IH by (cbn [length] in Hk; lia). reflexivity.
Qed.

(** The pairs of a dict. *)
Lemma pairs_entries (p : string -> option (PyVal * string)) (w u : nat)
      (rest : string) (d : list (PyAtom * PyVal)) (texts : list string) :
  Forall2 (fun kv e =>
             exists x,
               e = atom_text (fst kv) +:+ ": " +:+ x
               /\ plain_atom (fst kv) = true
               /\ forall r, stop r = true ->
                            p (" " +:+ x +:+ r) = Some (snd kv, r))
          d texts ->
  forall k, length d < k ->
    pairs p k (nl +:+ String.concat ""
                        (map (fun c => spaces w +:+ c +:+ "," +:+ nl) texts)
                  +:+ spaces u +:+ "}" +:+ rest)
    = Some (d, rest).
Proof.
  induction 1 as [|[key v] e d texts (x & -> & Hkey & Hread) _ IH];
    intros k Hk.
  - destruct k as [|k]; [lia|]. cbn [map String.concat].
    rewrite append_nil_l. rewrite pairs_S, skip_ws_nl.
    rewrite <- pairs_S. apply pairs_close.
  - destruct k as [|k]; [cbn [length] in Hk; lia|]. cbn [fst snd] in *.
    cbn [map]. rewrite concat_cons, !append_assoc.
    rewrite pairs_S, skip_ws_nl, skip_ws_spaces.
    unfold atom_text.
    destruct (atom_round_trip key Hkey) as (c & kx & -> & Hc & _ & Hk').
    apply atom_start_inv in Hc as (Hc & _ & _).
    apply value_start_inv in Hc as (Hsp & _ & Hclose).
    rewrite append_cons, (skip_ws_start _ _ Hsp), Hclose.
    rewrite <- append_cons, Hk' by reflexivity.
    change (skip_ws (": " +:+ ?Y)) with (String ":"%char (" " +:+ Y)).
    cbv iota.
    change (Ascii.eqb ":" ":") with true. cbv iota.
    rewrite Hread by reflexivity.
    change (skip_ws ("," +:+ ?Y)) with (String ","%char Y).
    cbv iota.
    change (Ascii.eqb "," ",") with true. cbv iota.
    rewrite IH by (cbn [length] in Hk; lia). reflexivity.
Qed.

End Members.

(** ** A plain value reads back from its rendering *)

Section RoundTrip.

Import Starlark Lex SpecTrees.

Lemma Forall2_weaken_in {A B : Type} (R R' : A -> B -> Prop)
      (l : list A) (l' : list B) :
  Forall2 R l l' ->
  (forall a b, In b l' -> R a b -> R' a b) ->
  Forall2 R' l l'.
Proof.
  induction 1 as [|a b l l' Hab _ IH]; intros Himp; constructor.
  - apply Himp; [now left | exact Hab].
  - apply IH. intros a' b' Hin. apply Himp. now right.
Qed.

Lemma concat_bound (w : nat) (texts : list string) :
  length texts
  <= String.length
       (String.concat "" (map (fun c => spaces w +:+ c +:+ "," +:+ nl) texts))
  /\ forall x, In x texts ->
       String.length x
       <= String.length
            (String.concat ""
               (map (fun c => spaces w +:+ c +:+ "," +:+ nl) texts)).
Proof.
  induction texts as [|y texts [IHn IHx]].
  - split; [cbn; lia | intros x []].
  - cbn [map]. rewrite concat_cons, !length_append. cbn [length String.length].
    split; [lia|]. intros x [->|Hin]; [lia|]. specialize (IHx x Hin). lia.
Qed.

Lemma block_bound (u : nat) (o c : string) (texts : list string) (n : nat) :
  texts <> [] ->
  String.length (block_at u o c texts) <= n ->
  String.length o + 1
  + String.length
      (String.concat ""
         (map (fun c => spaces (u + 2) +:+ c +:+ "," +:+ nl) texts))
  + String.length c <= n.
Proof.
  intros Hne. destruct texts as [|x xs]; [contradiction|].
  unfold block_at. rewrite !length_append. cbn [String.length nl]. lia.
Qed.

Lemma block_started (u : nat) (o : ascii) (c : string) (texts : list string) :
  value_start o = true ->
  started value_start (block_at u (String o "") c texts).
Proof.
  intros Ho. destruct texts as [|x xs]; eexists o, _; (split; [|exact Ho]);
    unfold block_at; rewrite append_cons, append_nil_l; reflexivity.
Qed.

Lemma atom_text_no_lf (a : PyAtom) (u : nat) :
  plain_atom a = true -> hang u (atom_text a) = atom_text a.
Proof.
  intros Hp. unfold atom_text.
  destruct (atom_round_trip a Hp) as (c & x & -> & _ & Hlf & _).
  now apply hang_no_lf.
Qed.

Lemma members_texts (u : nat) (l : list PyVal) :
  Forall (fun v => plain v = true -> forall u, exists x, reads_back u v x) l ->
  forallb plain l = true ->
  exists texts, Forall2 (reads_back u) l texts.
Proof.
  induction 1 as [|v l Hv _ IH]; intros Hp.
  - exists []. constructor.
  - cbn [forallb] in Hp. apply andb_prop in Hp as [Hpv Hpl].
    destruct (Hv Hpv u) as [x Hx]. destruct (IH Hpl) as [texts Htexts].
    exists (x :: texts). now constructor.
Qed.

Lemma pairs_texts (u : nat) (d : list (PyAtom * PyVal)) :
  Forall (fun kv => plain (snd kv) = true ->
                    forall u, exists x, reads_back u (snd kv) x) d ->
  forallb (fun kv => plain_atom (fst kv) && plain (snd kv)) d = true ->
  exists es, Forall2 (pair_back u) d es.
Proof.
  induction 1 as [|kv d Hv _ IH]; intros Hp.
  - exists []. constructor.
  - cbn [forallb] in Hp. apply andb_prop in Hp as [Hpv Hpl].
    apply andb_prop in Hpv as [Hk Hpv].
    destruct (Hv Hpv u) as [x Hx]. destruct (IH Hpl) as [es Hes].
    exists ((atom_text (fst kv) +:+ ": " +:+ x) :: es).
    constructor; [|exact Hes]. now exists x.
Qed.

Lemma somes_reads_back (u : nat) (l : list PyVal) (texts : list string) :
  Forall2 (reads_back u) l texts ->
  somes (map (render_at u) (map tree_of l)) = texts.
Proof.
  induction 1 as [|v x l texts (Hr & _) _ IH]; [reflexivity|].
  cbn [map]. rewrite Hr. cbn [somes]. now rewrite IH.
Qed.

Lemma somes_pair_back (u : nat) (d : list (PyAtom * PyVal))
      (es : list string) :
  Forall2 (pair_back u) d es ->
  somes (map (fun kv => option_map (fun o => hang u (fst kv) +:+ ": " +:+ o)
                                   (render_at u (snd kv)))
             (map (fun kv => (atom_text (fst kv), tree_of (snd kv))) d))
  = es.
Proof.
  induction 1 as [|kv e d es (x & -> & Hk & Hr & _) _ IH]; [reflexivity|].
  cbn [map fst snd]. rewrite Hr. cbn [option_map somes].
  rewrite (atom_text_no_lf _ _ Hk). now rewrite IH.
Qed.

(** The rendering of a plain value at any indentation reads back as the
    value, whatever follows it, if what follows can follow a value. *)
Lemma reads_back_plain (v : PyVal) :
  plain v = true -> forall u, exists x, reads_back u v x.
Proof.
  induction v as [a|l IH|d IH] using PyVal_ind'; intros Hp u.
  - cbn [plain] in Hp. exists (atom_text a). unfold reads_back.
    cbn [tree_of render_at]. rewrite (atom_text_no_lf a u Hp).
    split; [reflexivity|]. unfold atom_text.
    destruct (atom_round_trip a Hp) as (c & x & -> & Hc & _ & Hread).
    apply atom_start_inv in Hc as (Hc & Hl & Hd).
    split; [now exists c, x|]. intros n rest Hn Hrest.
    destruct n as [|n]; [cbn [String.length] in Hn; lia|].
    pose proof Hc as Hv. apply value_start_inv in Hv as (Hsp & _).
    rewrite parse_S, append_cons, (skip_ws_start _ _ Hsp), Hl, Hd.
    rewrite <- append_cons, (Hread rest Hrest). reflexivity.
  - cbn [plain] in Hp.
    destruct (members_texts (u + 2) l IH Hp) as [texts Htexts].
    exists (block_at u "[" "]" texts). unfold reads_back.
    cbn [tree_of render_at]. rewrite (somes_reads_back _ _ _ Htexts).
    split; [reflexivity|]. split; [now apply block_started|].
    intros n rest Hn Hrest.
    destruct texts as [|x xs].
    + inversion Htexts; subst.
      change (String.length (block_at u "[" "]" [])) with 2 in Hn.
      destruct n as [|[|n]]; [lia | lia|].
      unfold block_at. rewrite append_assoc, parse_S.
      change (skip_ws ("[" +:+ ?Y)) with (String "["%char Y). cbv iota.
      change (Ascii.eqb "[" "[") with true. cbv iota.
      pose proof (items_close (parse (S n)) n 0 rest) as Hclose.
      cbn [spaces] in Hclose. rewrite append_nil_l in Hclose.
      now rewrite Hclose.
    + apply block_bound in Hn; [|discriminate].
      cbn [String.length] in Hn.
      destruct (concat_bound (u + 2) (x :: xs)) as [Hlen Hxs].
      destruct n as [|n]; [lia|].
      unfold block_at. rewrite !append_assoc, parse_S.
      change (skip_ws ("[" +:+ ?Y)) with (String "["%char Y). cbv iota.
      change (Ascii.eqb "[" "[") with true. cbv iota.
      rewrite (items_entries (parse n) (u + 2) u rest l (x :: xs)).
      * reflexivity.
      * apply (Forall2_weaken_in _ _ _ _ Htexts).
        intros v y Hin (_ & Hst & Hread). split; [exact Hst|].
        intros r Hr. apply Hread; [|exact Hr].
        specialize (Hxs y Hin). lia.
      * rewrite (Forall2_length _ _ _ Htexts). lia.
  - cbn [plain] in Hp. apply andb_prop in Hp as [Hall Hdis].
    destruct (pairs_texts (u + 2) d IH Hall) as [es Hes].
    exists (block_at u "{" "}" es). unfold reads_back.
    cbn [tree_of render_at]. rewrite (somes_pair_back _ _ _ Hes).
    split; [reflexivity|]. split; [now apply block_started|].
    intros n rest Hn Hrest.
    destruct es as [|e es].
    + inversion Hes; subst.
      change (String.length (block_at u "{" "}" [])) with 2 in Hn.
      destruct n as [|[|n]]; [lia | lia|].
      unfold block_at. rewrite append_assoc, parse_S.
      change (skip_ws ("{" +:+ ?Y)) with (String "{"%char Y). cbv iota.
      change (Ascii.eqb "{" "[") with false.
      change (Ascii.eqb "{" "{") with true. cbv iota.
      pose proof (pairs_close (parse (S n)) n 0 rest) as Hclose.
      cbn [spaces] in Hclose. rewrite append_nil_l in Hclose.
      now rewrite Hclose.
    + apply block_bound in Hn; [|discriminate].
      cbn [String.length] in Hn.
      destruct (concat_bound (u + 2) (e :: es)) as [Hlen Hxs].
      destruct n as [|n]; [lia|].
      unfold block_at. rewrite !append_assoc, parse_S.
      change (skip_ws ("{" +:+ ?Y)) with (String "{"%char Y). cbv iota.
      change (Ascii.eqb "{" "[") with false.
      change (Ascii.eqb "{" "{") with true. cbv iota.
      rewrite (pairs_entries (parse n) (u + 2) u rest d (e :: es)).
      * reflexivity.
      * apply (Forall2_weaken_in _ _ _ _ Hes).
        intros kv y Hin (x' & -> & Hk & _ & _ & Hread).
        exists x'. split; [reflexivity|]. split; [exact Hk|].
        intros r Hr. rewrite parse_space. apply Hread; [|exact Hr].
        specialize (Hxs _ Hin). rewrite !length_append in Hxs. lia.
      * rewrite (Forall2_length _ _ _ Hes). lia.
Qed.

End RoundTrip.

(** * The claims *)

(** ** Literals and arguments *)

(** C4: [convert_direct] maps every string to the atom made of the string
    between double quotes, each double quote of the string with a backslash
    in front of it and every other character as it was; and on every value
    that is not null, a boolean, an integer, a string, a sequence or a
    mapping it raises an exception whose message carries the debug
    representation of the value. *)
Theorem convert_direct_string_or_unsupported :
  (forall (s : string) (st : store),
      convert_direct (PyStr s) st
      = Ok (Atom (quoted (Spec.escape_quotes s)), st))
  /\ (forall (v : PyVal) (st : store),
         Spec.is_literal v = false ->
         convert_direct v st
         = Raise (Exception ("unhandled python value: " +:+ Spec.debug_repr v))).
Proof.
  split.
  - exact convert_direct_str.
  - intros v st Hv. destruct v as [[| | | |r t]| |]; try discriminate Hv.
    reflexivity.
Qed.

Lemma convert_direct_string_or_unsupported_witness :
  Spec.is_literal (PyOther "set()" false) = false
  /\ convert_direct (PyOther "set()" false) []
     = Raise (Exception "unhandled python value: set()").
Proof.
  split; [reflexivity|].
  exact (proj2 convert_direct_string_or_unsupported
               (PyA (PyOther "set()" false)) [] eq_refl).
Defined.

(** C5: on a string that starts with the magic prefix, [convert_arg] gives
    the constant [targets.magic_args.NAME] of the table when the string is
    a key of the table (and every key of the table is such a string), and
    raises a lookup error when it is not; on every other string it gives
    what [convert_direct] gives, the quoted string. *)
Theorem convert_arg_magic (arg : string) (st : store) :
  (forall name : string,
      In (arg, name) _MAGIC_ARG_MAPPING ->
      startswith arg Spec.MAGIC_PREFIX = true
      /\ convert_arg (PyStr arg) st
         = Ok (Atom ("targets.magic_args." +:+ name), st))
  /\ (startswith arg Spec.MAGIC_PREFIX = true ->
      (forall name : string, ~ In (arg, name) _MAGIC_ARG_MAPPING) ->
      convert_arg (PyStr arg) st = Raise (KeyError arg))
  /\ (startswith arg Spec.MAGIC_PREFIX = false ->
      convert_arg (PyStr arg) st = convert_direct (PyStr arg) st
      /\ convert_arg (PyStr arg) st
         = Ok (Atom (quoted (Spec.escape_quotes arg)), st)).
Proof.
  split; [|split].
  - intros name Hin. unfold _MAGIC_ARG_MAPPING in Hin. cbn [In] in Hin.
    repeat (destruct Hin as [Hin|Hin];
            [injection Hin as <- <-; split; reflexivity|]).
    contradiction.
  - intros Hp Hn. unfold convert_arg. unfold Spec.MAGIC_PREFIX in Hp.
    rewrite Hp. now rewrite (dict_get_None _ _ Hn).
  - intros Hp. unfold convert_arg. unfold Spec.MAGIC_PREFIX in Hp.
    rewrite Hp. split; [reflexivity|]. apply convert_direct_str.
Qed.

Lemma convert_arg_magic_witness :
  convert_arg (PyStr "$$MAGIC_SUBSTITUTION_GPUParallelJobs") []
  = Ok (Atom "targets.magic_args.GPU_PARALLEL_JOBS", [])
  /\ convert_arg (PyStr "$$MAGIC_SUBSTITUTION_Unknown") []
     = Raise (KeyError "$$MAGIC_SUBSTITUTION_Unknown")
  /\ convert_arg (PyStr "--foo") [] = Ok (Atom (quoted "--foo"), []).
Proof.
  split; [|split].
  - apply (proj1 (convert_arg_magic "$$MAGIC_SUBSTITUTION_GPUParallelJobs" [])
                 "GPU_PARALLEL_JOBS").
    unfold _MAGIC_ARG_MAPPING. cbn [In].
    do 5 right. left. reflexivity.
  - apply (proj1 (proj2 (convert_arg_magic "$$MAGIC_SUBSTITUTION_Unknown" []))).
    + reflexivity.
    + intros name H. unfold _MAGIC_ARG_MAPPING in H. cbn [In] in H.
      repeat (destruct H as [H|H]; [discriminate H|]). exact H.
  - apply (proj2 (proj2 (convert_arg_magic "--foo" []))). reflexivity.
Defined.

(** ** The elision law *)







(** ** Unknown keys *)

Lemma stops_transfer {A B T U : Type} (m_pre : M A) (m_bad : M B)
      (d_pre : result T) (d_bad : result U) (s : store)
      (R : A -> store -> T -> Prop) (R' : B -> store -> U -> Prop)
      (e : PyExc) :
  sim m_pre d_pre s R -> sim m_bad d_bad s R' ->
  (forall t, d_pre = Ok t -> d_bad = Raise e) ->
  (exists r, m_pre s = Ok r) -> m_bad s = Raise e.
Proof.
  intros Hpre Hbad Hd ([a s'] & Hok).
  destruct (sim_ok _ _ _ _ _ _ Hpre Hok) as (t & Ht & _).
  exact (sim_raise _ _ _ _ _ Hbad (Hd t Ht)).
Qed.





(** ** The tests of a basic suite *)

Lemma test_of_shape (keys : list (PyAtom * PyVal)) (t : Tree) :
  Den.test_of (PyDict keys) = Ok t ->
  exists st, Den.fold_r keys Den.init_test Den.test_key = Ok st
             /\ t = Den.test_tree st.
Proof.
  unfold Den.test_of. cbn [py_items Den.rbind].
  destruct (Den.fold_r keys Den.init_test Den.test_key) as [st|e];
    cbn [Den.rbind]; [|discriminate].
  intros [= <-]. now exists st.
Qed.

Lemma names_of_iter (names : list string) (ms : list PyVal) (ts : list Tree) :
  py_iter (Spec.names_of names) = Ok ms ->
  Den.map_r Den.direct ms = Ok ts ->
  ts = map (fun n => TAtom (Spec.literal n)) names.
Proof.
  cbn [Spec.names_of py_iter]. intros [= <-]. rewrite direct_names.
  now intros [= <-].
Qed.

Lemma render_atoms (texts : list string) :
  somes (map render (map TAtom texts)) = texts.
Proof.
  induction texts as [|x texts IH]; [reflexivity|].
  cbn [map somes render]. now rewrite IH.
Qed.


(** C6: whatever the length of the [remove_mixins] list of a test
    definition, the [remove_mixins] parameter of the per-test modification
    builder of that test is a list whose first element is the guard
    string, followed by the converted names in their order. *)
Theorem remove_mixins_guard_first
        (tests : list (string * PyVal)) (s s' : store) (bs : nat * nat)
        (name : string) (keys : list (PyAtom * PyVal)) (names : list string) :
  NoDup (map fst tests) ->
  In (name, PyDict keys) tests ->
  NoDup (map fst keys) ->
  In (PyStr "remove_mixins", Spec.names_of names) keys ->
  build_basic_suite (Spec.suite_of tests) s = Ok (bs, s') ->
  exists items ps,
    snapshot (length s') s' (Ref (snd bs)) = Some (TDict items)
    /\ dict_get (Spec.literal name) items
       = Some (TCall "targets.per_test_modification" ps (Some "mixins"))
    /\ dict_get "remove_mixins" ps
       = Some (TList (TAtom remove_mixins_guard
                            :: map (fun n => TAtom (Spec.literal n)) names)).
Proof.
  intros Hnd Hin Hndk Hrm Hrun.
  destruct (build_basic_suite_tests tests s s' bs Hnd Hrun)
    as (_ & items & HD & Hall).
  destruct (Hall _ _ Hin) as (t & Ht & Hget).
  destruct (test_of_shape keys t Ht) as (st & Hfold & ->).
  destruct (fold_keys_shape keys _ _ Hfold Hndk) as (_ & _ & _ & _ & H5).
  destruct (H5 _ Hrm) as (ms & ts & Hms & Hts & Hmods).
  rewrite (names_of_iter names ms ts Hms Hts) in Hmods.
  exists items, (dict_set "mixins" (Den.mixins_tree st) (Den.mods st)).
  split; [exact HD|]. split; [exact Hget|].
  rewrite dict_get_set_ne by discriminate. rewrite Hmods.
  apply dict_get_set_eq.
Qed.

Lemma remove_mixins_guard_first_witness :
  exists bs s' items ps,
    build_basic_suite
      (Spec.suite_of [("test2", PyDict [(PyStr "remove_mixins",
                                         Spec.names_of [])])]) []
    = Ok (bs, s')
    /\ snapshot (length s') s' (Ref (snd bs)) = Some (TDict items)
    /\ dict_get (Spec.literal "test2") items
       = Some (TCall "targets.per_test_modification" ps (Some "mixins"))
    /\ dict_get "remove_mixins" ps
       = Some (TList [TAtom remove_mixins_guard]).
Proof.
  destruct (build_basic_suite
              (Spec.suite_of [("test2", PyDict [(PyStr "remove_mixins",
                                                 Spec.names_of [])])]) [])
    as [[bs s']|e] eqn:Hrun; [|vm_compute in Hrun; discriminate Hrun].
  exists bs, s'.
  destruct (remove_mixins_guard_first
              [("test2", PyDict [(PyStr "remove_mixins", Spec.names_of [])])]
              [] s' bs "test2" [(PyStr "remove_mixins", Spec.names_of [])] [])
    as (items & ps & H1 & H2 & H3).
  - repeat constructor. intros H. inversion H.
  - left. reflexivity.
  - repeat constructor. intros H. inversion H.
  - left. reflexivity.
  - exact Hrun.
  - exists items, ps. split; [reflexivity|]. split; [exact H1|].
    split; [exact H2 | exact H3].
Defined.





(** ** The matrix compound suite *)

Lemma fold_r_ext {A S : Type} (xs : list A) (st : S)
      (body body' : S -> A -> result S) :
  (forall st x, body st x = body' st x) ->
  Den.fold_r xs st body = Den.fold_r xs st body'.
Proof.
  intros H. revert st. induction xs as [|x xs IH]; intros st; [reflexivity|].
  cbn [Den.fold_r]. rewrite H. destruct (body' st x); cbn [Den.rbind];
    [apply IH | reflexivity].
Qed.

Lemma matrix_config_key_eq (ps : list (string * Tree)) (kv : PyAtom * PyVal) :
  Den.assign Den.matrix_param ps kv = SpecTrees.matrix_config_key ps kv.
Proof.
  rewrite assign_eq. unfold Den.matrix_param, SpecTrees.matrix_config_key,
                     Spec.matrix_keys.
  now destruct (key_in (fst kv) _).
Qed.

Lemma matrix_entry_target (acc : list Tree)
      (entry : PyAtom * list (PyAtom * PyVal)) :
  Den.matrix_entry acc (fst entry, PyDict (snd entry))
  = Den.rbind (SpecTrees.matrix_target entry) (fun t => Ok (acc ++ [t])).
Proof.
  unfold Den.matrix_entry, SpecTrees.matrix_target. cbn [fst snd].
  destruct (convert_atom (fst entry)) as [name|e]; cbn [Den.rbind];
    [|reflexivity].
  destruct (snd entry) as [|kv config]; [reflexivity|].
  cbn [py_truthy negb]. unfold Den.call_of. cbn [py_items Den.rbind].
  rewrite (fold_r_ext _ _ _ _ matrix_config_key_eq).
  now destruct (Den.fold_r _ _ _).
Qed.

Lemma matrix_fold_targets (entries : list (PyAtom * list (PyAtom * PyVal))) :
  forall acc,
    Den.fold_r (map (fun e => (fst e, PyDict (snd e))) entries) acc
               Den.matrix_entry
    = Den.rbind (SpecTrees.matrix_targets entries) (fun ts => Ok (acc ++ ts)).
Proof.
  unfold SpecTrees.matrix_targets.
  induction entries as [|entry entries IH]; intros acc.
  - cbn. now rewrite app_nil_r.
  - cbn [map Den.fold_r]. rewrite matrix_entry_target, map_r_cons.
    destruct (SpecTrees.matrix_target entry) as [t|e]; cbn [Den.rbind];
      [|reflexivity].
    rewrite IH. destruct (Den.map_r SpecTrees.matrix_target entries);
      cbn [Den.rbind]; [|reflexivity].
    now rewrite <- app_assoc.
Qed.

(** C9: [convert_matrix_compound_suite] goes through the entries in their
    order; an entry with an empty config puts the converted suite name
    into the targets list, an entry with another config a [targets.bundle]
    call that starts with [targets = <converted suite name>] and takes the
    keys [mixins] and [variants] through the literal converter; any other
    key makes the conversion fail.  The result has the one key [targets],
    the rendering of that list. *)
Theorem convert_matrix_compound_suite_targets
        (entries : list (PyAtom * list (PyAtom * PyVal))) (s : store) :
  match SpecTrees.matrix_targets entries with
  | Ok ts =>
      exists T s',
        build_matrix_compound_suite (SpecTrees.matrix_of entries) s = Ok (T, s')
        /\ snapshot (length s') s' (Ref T) = Some (TList ts)
        /\ convert_matrix_compound_suite (SpecTrees.matrix_of entries) s
           = Ok ([("targets", render (TList ts))], s')
  | Raise e =>
      convert_matrix_compound_suite (SpecTrees.matrix_of entries) s = Raise e
  end.
Proof.
  pose proof (build_matrix_compound_suite_sim
                (SpecTrees.matrix_of entries) s) as Hb.
  unfold sim, Den.matrix_compound_suite, SpecTrees.matrix_of in Hb.
  cbn [py_items Den.rbind] in Hb.
  rewrite matrix_fold_targets in Hb.
  unfold convert_matrix_compound_suite, SpecTrees.matrix_of.
  destruct (SpecTrees.matrix_targets entries) as [ts|e];
    cbn [Den.rbind app] in Hb; [|now rewrite (bind_raise _ _ _ _ Hb)].
  destruct Hb as (T & s' & Hrun & _ & HT).
  exists T, s'. split; [exact Hrun|]. split; [exact HT|].
  rewrite (bind_ok _ _ _ _ _ Hrun).
  now rewrite (bind_ok _ _ _ _ _ (to_output_snapshot _ _ _ HT)).
Qed.

(** The scenario of [test_convert_matrix_compound_suite]. *)
Example convert_matrix_compound_suite_example :
  call (convert_matrix_compound_suite
          (SpecTrees.matrix_of
             [(PyStr "suite1", []);
              (PyStr "suite2", [(PyStr "mixins", Spec.names_of ["mixin1"]);
                                (PyStr "variants", Spec.names_of ["variant1"])])]))
  = Ok [("targets",
         Some (lines ["[";
                      "  " +:+ quoted "suite1" +:+ ",";
                      "  targets.bundle(";
                      "    targets = " +:+ quoted "suite2" +:+ ",";
                      "    mixins = [";
                      "      " +:+ quoted "mixin1" +:+ ",";
                      "    ],";
                      "    variants = [";
                      "      " +:+ quoted "variant1" +:+ ",";
                      "    ],";
                      "  ),";
                      "]"]))].
Proof. reflexivity. Qed.

(** ** The output format *)

Lemma list_output (ts : list Tree) :
  exists x, render (TList ts) = Some x
            /\ SpecTrees.render_at 0 (TList ts) = Some x
            /\ SpecTrees.ends_with_newline x = false.
Proof.
  eexists. split; [reflexivity|]. split; [apply render_at_0|].
  now apply ends_with_newline_block.
Qed.

Lemma dict_output (kts : list (string * Tree)) :
  exists x, render (TDict kts) = Some x
            /\ SpecTrees.render_at 0 (TDict kts) = Some x
            /\ SpecTrees.ends_with_newline x = false.
Proof.
  eexists. split; [reflexivity|]. split; [apply render_at_0|].
  now apply ends_with_newline_block.
Qed.

Lemma basic_suite_trees (suite : PyVal) (tT tD : Tree) :
  Den.basic_suite suite = Ok (tT, tD) ->
  exists ts kts, tT = TList ts /\ tD = TDict kts.
Proof.
  unfold Den.basic_suite. destruct (py_items suite); cbn [Den.rbind];
    [|discriminate].
  destruct (Den.fold_r _ _ _) as [acc|]; cbn [Den.rbind]; [|discriminate].
  intros [= <- <-]. now eexists _, _.
Qed.

Lemma matrix_suite_tree (suite : PyVal) (t : Tree) :
  Den.matrix_compound_suite suite = Ok t -> exists ts, t = TList ts.
Proof.
  unfold Den.matrix_compound_suite. destruct (py_items suite); cbn [Den.rbind];
    [|discriminate].
  destruct (Den.fold_r _ _ _) as [acc|]; cbn [Den.rbind]; [|discriminate].
  intros [= <-]. now eexists.
Qed.

Lemma direct_list_tree (l : list PyVal) (t : Tree) :
  Den.direct (PyList l) = Ok t -> exists ts, t = TList ts.
Proof.
  cbn [Den.direct]. destruct (Den.map_r Den.direct l); cbn [Den.rbind];
    [|discriminate].
  intros [= <-]. now eexists.
Qed.

(** C8: whenever an entry point returns, each string of its result is the
    rendering at indentation 0 of the builder it stands for, under the
    contract of [render_at]: two more spaces per nesting level, a comma
    after every element, pair and parameter; and it does not end with a
    line end.  [convert_compound_suite(["s1", "s2"])] returns the one key
    [targets] with the list of the two converted names in their order. *)
Theorem output_format (suite : PyVal) (s : store) :
  (forall bs s',
      build_basic_suite suite s = Ok (bs, s') ->
      exists tT tD xT xD,
        snapshot (length s') s' (Ref (fst bs)) = Some tT
        /\ snapshot (length s') s' (Ref (snd bs)) = Some tD
        /\ SpecTrees.render_at 0 tT = Some xT
        /\ SpecTrees.render_at 0 tD = Some xD
        /\ SpecTrees.ends_with_newline xT = false
        /\ SpecTrees.ends_with_newline xD = false
        /\ convert_basic_suite suite s
           = Ok ([("targets", Some xT); ("per_test_modifications", Some xD)],
                 s'))
  /\ (forall l x s',
         suite = PyList l ->
         convert_direct suite s = Ok (x, s') ->
         exists t text,
           snapshot (length s') s' x = Some t
           /\ SpecTrees.render_at 0 t = Some text
           /\ SpecTrees.ends_with_newline text = false
           /\ convert_compound_suite suite s = Ok ([("targets", Some text)], s'))
  /\ (forall T s',
         build_matrix_compound_suite suite s = Ok (T, s') ->
         exists t text,
           snapshot (length s') s' (Ref T) = Some t
           /\ SpecTrees.render_at 0 t = Some text
           /\ SpecTrees.ends_with_newline text = false
           /\ convert_matrix_compound_suite suite s
              = Ok ([("targets", Some text)], s'))
  /\ call (convert_compound_suite (Spec.names_of ["s1"; "s2"]))
     = Ok [("targets",
            Some (lines ["["; "  " +:+ quoted "s1" +:+ ",";
                         "  " +:+ quoted "s2" +:+ ","; "]"]))].
Proof.
  split; [|split; [|split; [|reflexivity]]].
  - intros bs s' Hrun.
    destruct (sim_ok _ _ _ _ _ _ (build_basic_suite_sim suite s) Hrun)
      as ([tT tD] & Hden & _ & HT & HD). cbn [fst snd] in HT, HD.
    destruct (basic_suite_trees _ _ _ Hden) as (ts & kts & -> & ->).
    destruct (list_output ts) as (xT & HrT & HaT & HeT).
    destruct (dict_output kts) as (xD & HrD & HaD & HeD).
    exists (TList ts), (TDict kts), xT, xD.
    repeat (split; [assumption|]).
    unfold convert_basic_suite. rewrite (bind_ok _ _ _ _ _ Hrun).
    rewrite (bind_ok _ _ _ _ _ (to_output_snapshot _ _ _ HT)).
    rewrite (bind_ok _ _ _ _ _ (to_output_snapshot _ _ _ HD)).
    now rewrite HrT, HrD.
  - intros l x s' -> Hrun.
    destruct (sim_ok _ _ _ _ _ _ (convert_direct_sim (PyList l) s) Hrun)
      as (t & Hden & d & -> & Hsnap).
    destruct (direct_list_tree _ _ Hden) as (ts & ->).
    destruct (list_output ts) as (xT & HrT & HaT & HeT).
    assert (Ht : snapshot (length (s ++ d)) (s ++ d) x = Some (TList ts)).
    { eapply snapshot_in_snapshot.
      eapply snapshot_in_mono; [exact Hsnap | apply Nat.le_refl | |
                                apply agree_refl].
      rewrite length_app. lia. }
    exists (TList ts), xT. repeat (split; [assumption|]).
    unfold convert_compound_suite. rewrite (bind_ok _ _ _ _ _ Hrun).
    rewrite (bind_ok _ _ _ _ _ (to_output_snapshot _ _ _ Ht)).
    now rewrite HrT.
  - intros T s' Hrun.
    destruct (sim_ok _ _ _ _ _ _ (build_matrix_compound_suite_sim suite s) Hrun)
      as (t & Hden & _ & HT).
    destruct (matrix_suite_tree _ _ Hden) as (ts & ->).
    destruct (list_output ts) as (xT & HrT & HaT & HeT).
    exists (TList ts), xT. repeat (split; [assumption|]).
    unfold convert_matrix_compound_suite. rewrite (bind_ok _ _ _ _ _ Hrun).
    rewrite (bind_ok _ _ _ _ _ (to_output_snapshot _ _ _ HT)).
    now rewrite HrT.
Qed.

Lemma output_format_witness :
  exists tT tD s',
    convert_basic_suite
      (Spec.suite_of
         [("test1", PyDict [(PyStr "script", PyA (PyStr "test1.py"));
                            (PyStr "args", Spec.names_of ["--arg1"]);
                            (PyStr "swarming",
                             PyDict [(PyStr "shards", PyA (PyInt 2))])])]) []
    = Ok ([("targets", Some (lines ["["; "  " +:+ quoted "test1" +:+ ","; "]"]));
           ("per_test_modifications",
            Some (lines ["{";
                         "  " +:+ quoted "test1" +:+ ": targets.mixin(";
                         "    args = [";
                         "      " +:+ quoted "--arg1" +:+ ",";
                         "    ],";
                         "    swarming = targets.swarming(";
                         "      shards = 2,";
                         "    ),";
                         "  ),";
                         "}"]))], s')
    /\ SpecTrees.render_at 0 tT
       = Some (lines ["["; "  " +:+ quoted "test1" +:+ ","; "]"])
    /\ SpecTrees.render_at 0 tD
       = Some (lines ["{";
                      "  " +:+ quoted "test1" +:+ ": targets.mixin(";
                      "    args = [";
                      "      " +:+ quoted "--arg1" +:+ ",";
                      "    ],";
                      "    swarming = targets.swarming(";
                      "      shards = 2,";
                      "    ),";
                      "  ),";
                      "}"]).
Proof.
  set (suite := Spec.suite_of
         [("test1", PyDict [(PyStr "script", PyA (PyStr "test1.py"));
                            (PyStr "args", Spec.names_of ["--arg1"]);
                            (PyStr "swarming",
                             PyDict [(PyStr "shards", PyA (PyInt 2))])])]).
  destruct (build_basic_suite suite []) as [[bs s']|e] eqn:Hrun;
    [|vm_compute in Hrun; discriminate Hrun].
  destruct (proj1 (output_format suite []) bs s' Hrun)
    as (tT & tD & xT & xD & HT & HD & HaT & HaD & _ & _ & Hconv).
  exists tT, tD, s'.
  vm_compute in Hrun. injection Hrun as <- <-.
  vm_compute in HT. injection HT as <-.
  vm_compute in HD. injection HD as <-.
  vm_compute in HaT. injection HaT as <-.
  vm_compute in HaD. injection HaD as <-.
  split; [exact Hconv|]. split; reflexivity.
Defined.

(** ** C7: the round trip *)

(** C7, for the plain values: if every string of [v] is free of
    backslashes and line ends (and the keys of each of its dicts differ,
    as the keys of a Python dict do), then [convert_direct v] returns in
    every store, the value it returns renders to a text, and reading that
    text under the literal grammar gives [v] back. *)
Theorem literal_round_trip (v : PyVal) (s : store) :
  Starlark.plain v = true ->
  exists x s' text,
    convert_direct v s = Ok (x, s')
    /\ to_output x s' = Ok (Some text, s')
    /\ Starlark.parse_text text = Some v.
Proof.
  intros Hp. pose proof (convert_direct_sim v s) as Hsim.
  rewrite (direct_plain v Hp) in Hsim.
  destruct Hsim as (x & s' & Hrun & d & -> & Hsnap).
  assert (Ht : snapshot (length (s ++ d)) (s ++ d) x = Some (Lex.tree_of v)).
  { eapply snapshot_in_snapshot.
    eapply snapshot_in_mono; [exact Hsnap | apply Nat.le_refl | |
                              apply agree_refl].
    rewrite length_app. lia. }
  destruct (reads_back_plain v Hp 0) as (text & Hrender & _ & Hread).
  rewrite render_at_0 in Hrender.
  exists x, (s ++ d), text. split; [exact Hrun|]. split.
  - rewrite (to_output_snapshot _ _ _ Ht). now rewrite Hrender.
  - unfold Starlark.parse_text.
    specialize (Hread (String.length text) "" (Nat.le_refl _) eq_refl).
    rewrite append_nil_r in Hread. now rewrite Hread.
Qed.

Lemma literal_round_trip_witness :
  Starlark.plain
    (PyDict [(PyStr "a",
              PyList [PyA (PyInt (-5)); PyA PyNone; PyA (PyBool true);
                      PyList []; PyDict []]);
             (PyInt 3, PyA (PyStr (String DQ "y")))]) = true
  /\ exists x s' text,
      convert_direct
        (PyDict [(PyStr "a",
                  PyList [PyA (PyInt (-5)); PyA PyNone; PyA (PyBool true);
                          PyList []; PyDict []]);
                 (PyInt 3, PyA (PyStr (String DQ "y")))]) [] = Ok (x, s')
      /\ to_output x s' = Ok (Some text, s')
      /\ Starlark.parse_text text
         = Some (PyDict [(PyStr "a",
                          PyList [PyA (PyInt (-5)); PyA PyNone;
                                  PyA (PyBool true); PyList []; PyDict []]);
                         (PyInt 3, PyA (PyStr (String DQ "y")))]).
Proof.
  split; [reflexivity|]. apply literal_round_trip. reflexivity.
Defined.

(** A string that is one backslash is literal-convertible, and
    [convert_direct] puts it between two double quotes unchanged: in the
    rendered text the backslash takes the closing quote with it, the
    literal never ends, and no value is read back.  A string that is one
    line end breaks the literal in the same way. *)
Lemma literal_round_trip_counterexample :
  Spec.is_literal (PyA (PyStr (String BS ""))) = true
  /\ Starlark.rendered (PyA (PyStr (String BS "")))
     = Ok (Some (quoted (String BS "")))
  /\ Starlark.parse_text (quoted (String BS "")) = None
  /\ Starlark.rendered (PyA (PyStr nl)) = Ok (Some (quoted nl))
  /\ Starlark.parse_text (quoted nl) = None.
Proof. repeat split. Qed.

(** ** Further properties: test arguments and compound suites *)

Lemma convert_arg_known (a : string) (s : store) :
  Cover.known_arg a = true ->
  convert_arg (PyStr a) s = Ok (Atom (Cover.arg_text a), s).
Proof.
  unfold Cover.known_arg, Cover.arg_text, Spec.MAGIC_PREFIX, convert_arg.
  destruct (startswith a "$$MAGIC_SUBSTITUTION_").
  - destruct (dict_get a _MAGIC_ARG_MAPPING); [reflexivity | discriminate].
  - intros _. apply convert_direct_str.
Qed.

Lemma map_m_ok_cons {A B : Type} (f : A -> M B) (x : A) (xs : list A)
      (y : B) (ys : list B) (s : store) :
  f x s = Ok (y, s) -> map_m f xs s = Ok (ys, s) ->
  map_m f (x :: xs) s = Ok (y :: ys, s).
Proof.
  intros Hx Hxs. rewrite map_m_cons, (bind_ok _ _ _ _ _ Hx).
  now rewrite (bind_ok _ _ _ _ _ Hxs).
Qed.

Lemma map_m_args (args : list string) (s : store) :
  forallb Cover.known_arg args = true ->
  map_m convert_arg (map (fun n => PyA (PyStr n)) args) s
  = Ok (map (fun a => Atom (Cover.arg_text a)) args, s).
Proof.
  induction args as [|a args IH]; [reflexivity|]. cbn [forallb map].
  intros H. apply andb_prop in H as [Ha Hargs].
  apply map_m_ok_cons; [now apply convert_arg_known | now apply IH].
Qed.

Lemma map_m_names (names : list string) (s : store) :
  map_m convert_direct (map (fun n => PyA (PyStr n)) names) s
  = Ok (map (fun n => Atom (Spec.literal n)) names, s).
Proof.
  induction names as [|n names IH]; [reflexivity|]. cbn [map].
  apply map_m_ok_cons; [apply convert_direct_str | exact IH].
Qed.

Lemma map_m_raise {A B : Type} (f : A -> M B) (pre : list A) (x : A)
      (post : list A) (e : PyExc) (s : store) :
  Forall (fun p => exists y, f p s = Ok (y, s)) pre -> f x s = Raise e ->
  map_m f (pre ++ x :: post) s = Raise e.
Proof.
  intros Hpre Hx. induction Hpre as [|p pre [y Hp] _ IH].
  - cbn [app]. rewrite map_m_cons. now apply bind_raise.
  - cbn [app]. rewrite map_m_cons, (bind_ok _ _ _ _ _ Hp).
    now apply bind_raise.
Qed.

Lemma new_list_ok (es : list Value) (s : store) :
  new_list es s = Ok (length s, s ++ [ListValueBuilder es]).
Proof. reflexivity. Qed.

Lemma snapshot_atoms (n : nat) (s : store) (texts : list string) :
  mapM (snapshot n s) (map Atom texts) = Some (map TAtom texts).
Proof.
  induction texts as [|t texts IH]; [reflexivity|].
  cbn [map mapM]. rewrite IH. now destruct n.
Qed.

Lemma snapshot_new_list (s : store) (texts : list string) :
  snapshot (length (s ++ [ListValueBuilder (map Atom texts)]))
           (s ++ [ListValueBuilder (map Atom texts)]) (Ref (length s))
  = Some (TList (map TAtom texts)).
Proof.
  rewrite length_app. cbn [length]. rewrite Nat.add_1_r. cbn [snapshot].
  rewrite lookup_snoc. now rewrite snapshot_atoms.
Qed.

Lemma to_output_new_list (s : store) (texts : list string) :
  to_output (Ref (length s)) (s ++ [ListValueBuilder (map Atom texts)])
  = Ok (Some (block "[" "]" texts),
        s ++ [ListValueBuilder (map Atom texts)]).
Proof.
  unfold to_output. rewrite snapshot_new_list. cbn [render].
  now rewrite render_atoms.
Qed.

Lemma convert_args_list (l : list PyVal) (es : list Value) (s : store) :
  map_m convert_arg l s = Ok (es, s) ->
  convert_args (PyList l) s
  = Ok (Ref (length s), s ++ [ListValueBuilder es]).
Proof.
  intros Hm. unfold convert_args. cbn [py_iter]. rewrite bind_lift_ok.
  rewrite (bind_ok _ _ _ _ _ Hm). reflexivity.
Qed.

Lemma known_arg_plain (a : string) :
  startswith a Spec.MAGIC_PREFIX = false ->
  Cover.known_arg a = true /\ Cover.arg_text a = Spec.literal a.
Proof. unfold Cover.known_arg, Cover.arg_text. now intros ->. Qed.

Lemma startswith_char (c : ascii) :
  startswith (String c "") Spec.MAGIC_PREFIX = false.
Proof.
  unfold startswith, Spec.MAGIC_PREFIX. cbn [String.prefix].
  now destruct (ascii_dec "$" c).
Qed.

Lemma map_m_chars (a : string) (s : store) :
  map_m convert_arg (chars a) s
  = Ok (map (fun c => Atom (Spec.literal (String c "")))
            (list_ascii_of_string a), s).
Proof.
  induction a as [|c a IH]; [reflexivity|].
  cbn [chars list_ascii_of_string map].
  apply map_m_ok_cons; [|exact IH].
  destruct (known_arg_plain _ (startswith_char c)) as [Hk <-].
  now apply convert_arg_known.
Qed.

(** X1: [convert_args] on a list of strings each of which is a key of the
    magic table or does not start with the magic prefix makes one new
    list builder that holds, in the order of the list, the constant of
    the table for a magic string and the quoted string for any other;
    and the first string that starts with the prefix without being in
    the table aborts the conversion with a [KeyError] that names it. *)
Theorem convert_args_atoms (args : list string) (s : store) :
  (forallb Cover.known_arg args = true ->
   convert_args (Spec.names_of args) s
   = Ok (Ref (length s),
         s ++ [ListValueBuilder
                 (map (fun a => Atom (Cover.arg_text a)) args)]))
  /\ (forall (pre : list string) (a : string) (post : list string),
         args = pre ++ a :: post ->
         forallb Cover.known_arg pre = true ->
         Cover.known_arg a = false ->
         convert_args (Spec.names_of args) s = Raise (KeyError a)).
Proof.
  split.
  - intros Hk. apply convert_args_list. now apply map_m_args.
  - intros pre a post -> Hpre Ha. unfold Spec.names_of, convert_args.
    cbn [py_iter]. rewrite bind_lift_ok, map_app. cbn [map].
    apply bind_raise. apply map_m_raise.
    + apply Forall_forall. intros p Hp.
      apply list_elem_of_In, in_map_iff in Hp as (n & <- & Hn).
      rewrite forallb_forall in Hpre.
      eexists. apply convert_arg_known. now apply Hpre.
    + unfold Cover.known_arg, Spec.MAGIC_PREFIX in Ha. unfold convert_arg.
      destruct (startswith a "$$MAGIC_SUBSTITUTION_"); [|discriminate Ha].
      now destruct (dict_get a _MAGIC_ARG_MAPPING).
Qed.

Lemma convert_args_atoms_witness :
  convert_args
    (Spec.names_of
       ["foo"; "$$MAGIC_SUBSTITUTION_AndroidDesktopTelemetryRemote"]) []
  = Ok (Ref 0,
        [ListValueBuilder
           [Atom (quoted "foo");
            Atom "targets.magic_args.ANDROID_DESKTOP_TELEMETRY_REMOTE"]])
  /\ convert_args
       (Spec.names_of ["foo"; "$$MAGIC_SUBSTITUTION_Unknown"; "bar"]) []
     = Raise (KeyError "$$MAGIC_SUBSTITUTION_Unknown").
Proof.
  split.
  - exact (proj1 (convert_args_atoms
                    ["foo";
                     "$$MAGIC_SUBSTITUTION_AndroidDesktopTelemetryRemote"] [])
                 eq_refl).
  - exact (proj2 (convert_args_atoms
                    ["foo"; "$$MAGIC_SUBSTITUTION_Unknown"; "bar"] [])
                 ["foo"] "$$MAGIC_SUBSTITUTION_Unknown" ["bar"]
                 eq_refl eq_refl eq_refl).
Defined.

(** X2: on a list of strings none of which starts with the magic prefix,
    [convert_args] does what [convert_direct] does: the same builder in
    the same store. *)
Theorem convert_args_plain (args : list string) (s : store) :
  forallb (fun a => negb (startswith a Spec.MAGIC_PREFIX)) args = true ->
  convert_args (Spec.names_of args) s = convert_direct (Spec.names_of args) s.
Proof.
  intros Hp. unfold Spec.names_of.
  assert (Hm : map_m convert_arg (map (fun n => PyA (PyStr n)) args) s
               = Ok (map (fun n => Atom (Spec.literal n)) args, s)).
  { rewrite map_m_args.
    - f_equal. f_equal. apply map_ext_in. intros a Ha.
      rewrite forallb_forall in Hp. specialize (Hp a Ha).
      apply negb_true_iff in Hp. now destruct (known_arg_plain a Hp) as [_ ->].
    - apply forallb_forall. intros a Ha.
      rewrite forallb_forall in Hp. specialize (Hp a Ha).
      apply negb_true_iff in Hp. now destruct (known_arg_plain a Hp). }
  rewrite (convert_args_list _ _ _ Hm). cbn [convert_direct].
  now rewrite (bind_ok _ _ _ _ _ (map_m_names args s)).
Qed.

Lemma convert_args_plain_witness :
  convert_args (Spec.names_of ["--arg1"; "$MAGIC"]) []
  = convert_direct (Spec.names_of ["--arg1"; "$MAGIC"]) [].
Proof. apply convert_args_plain. reflexivity. Defined.

(** X3: [convert_args] does not ask for a list: given one string, it goes
    through the characters of the string and makes a list builder with
    one quoted one-character string for each of them. *)
Theorem convert_args_of_string (a : string) (s : store) :
  convert_args (PyA (PyStr a)) s
  = Ok (Ref (length s),
        s ++ [ListValueBuilder
                (map (fun c => Atom (Spec.literal (String c "")))
                     (list_ascii_of_string a))]).
Proof.
  unfold convert_args. cbn [py_iter]. rewrite bind_lift_ok.
  now rewrite (bind_ok _ _ _ _ _ (map_m_chars a s)).
Qed.

(** X4: for every list of suite names, [convert_compound_suite] makes one
    list builder with the quoted names in their order and returns the one
    key [targets] with the rendering of that list. *)
Theorem convert_compound_suite_names (names : list string) (s : store) :
  convert_compound_suite (Spec.names_of names) s
  = Ok ([("targets", Some (block "[" "]" (map Spec.literal names)))],
        s ++ [ListValueBuilder (map (fun n => Atom (Spec.literal n)) names)]).
Proof.
  unfold convert_compound_suite, Spec.names_of. cbn [convert_direct].
  rewrite (bind_ok _ _ _ _ _ (bind_ok _ _ _ _ _ (map_m_names names s))).
  cbn [new_list alloc bind ret].
  rewrite <- (map_map Spec.literal Atom).
  now rewrite (bind_ok _ _ _ _ _ (to_output_new_list s _)).
Qed.

(** ** Further properties: keys that change nothing *)

Lemma bind_ext {A B : Type} (m m' : M A) (k k' : A -> M B) (s : store) :
  m s = m' s -> (forall a s', k a s' = k' a s') -> bind m k s = bind m' k' s.
Proof.
  intros Hm Hk. unfold bind. rewrite Hm.
  destruct (m' s) as [[a s']|e]; [apply Hk | reflexivity].
Qed.

Lemma fold_m_strip (a m : nat) (keys : list (PyAtom * PyVal)) :
  forall (st : option nat) (s : store),
    fold_m keys st (test_key a m) s
    = fold_m (Cover.strip keys) st (test_key a m) s.
Proof.
  induction keys as [|kv keys IH]; intros st s; [reflexivity|].
  unfold Cover.strip. cbn [List.filter]. fold (Cover.strip keys).
  destruct (key_in (fst kv) Cover.ignored_keys) eqn:Hk; cbn [negb].
  - rewrite fold_m_cons. unfold test_key at 1.
    unfold Cover.ignored_keys in Hk. rewrite Hk. apply IH.
  - rewrite !fold_m_cons. apply bind_ext; [reflexivity|].
    intros st' s'. apply IH.
Qed.

Lemma suite_test_strip (T D : nat) (name : PyAtom)
      (keys : list (PyAtom * PyVal)) (s : store) :
  suite_test T D (name, PyDict keys) s
  = suite_test T D (name, PyDict (Cover.strip keys)) s.
Proof.
  unfold suite_test. cbn [fst snd py_items].
  apply bind_ext; [reflexivity|]. intros test_name s1.
  apply bind_ext; [reflexivity|]. intros _ s2.
  apply bind_ext; [reflexivity|]. intros a s3.
  apply bind_ext; [reflexivity|]. intros m s4.
  apply bind_ext; [reflexivity|]. intros _ s5.
  rewrite !bind_lift_ok. apply bind_ext; [apply fold_m_strip | reflexivity].
Qed.

Lemma for_each_strip (T D : nat)
      (tests : list (PyAtom * list (PyAtom * PyVal))) :
  forall s,
    for_each (map (fun e => (fst e, PyDict (snd e))) tests) (suite_test T D) s
    = for_each (map (fun e => (fst e, PyDict (snd e)))
                    (map (fun e => (fst e, Cover.strip (snd e))) tests))
               (suite_test T D) s.
Proof.
  induction tests as [|[name keys] tests IH]; intros s; [reflexivity|].
  cbn [map fst snd]. rewrite !for_each_cons.
  apply bind_ext; [apply suite_test_strip|]. intros _ s'. apply IH.
Qed.

(** X5: the keys [results_handler], [script], [telemetry_test_name],
    [test] and [test_common] of a test definition change nothing:
    [convert_basic_suite] gives the same result, output or exception, and
    leaves the same store, as on the suite without them. *)
Theorem ignored_keys_no_effect
        (tests : list (PyAtom * list (PyAtom * PyVal))) (s : store) :
  convert_basic_suite (Cover.suite_items tests) s
  = convert_basic_suite
      (Cover.suite_items (map (fun e => (fst e, Cover.strip (snd e))) tests))
      s.
Proof.
  unfold convert_basic_suite, build_basic_suite, Cover.suite_items.
  cbn [py_items]. apply bind_ext; [|reflexivity].
  apply bind_ext; [reflexivity|]. intros T s1.
  apply bind_ext; [reflexivity|]. intros D s2.
  rewrite !bind_lift_ok. apply bind_ext; [apply for_each_strip | reflexivity].
Qed.

Lemma for_each_middle {A : Type} (body : A -> M unit) (x y : A)
      (pre post : list A) :
  body x = body y ->
  forall s, for_each (pre ++ x :: post) body s
            = for_each (pre ++ y :: post) body s.
Proof.
  intros Hxy. induction pre as [|p pre IH]; intros s; cbn [app].
  - now rewrite !for_each_cons, Hxy.
  - rewrite !for_each_cons. apply bind_ext; [reflexivity|].
    intros _ s'. apply IH.
Qed.

(** X6: [convert_matrix_compound_suite] tests the config of a suite for
    truth, not for being an empty dict: with [None], [False], zero, an
    empty string or an empty list for a config it does what it does with
    the empty dict, and the suite goes into the targets by its name
    alone. *)
Theorem falsy_matrix_config (name : PyAtom) (config : PyVal)
        (pre post : list (PyAtom * PyVal)) (s : store) :
  py_truthy config = false ->
  convert_matrix_compound_suite (PyDict (pre ++ (name, config) :: post)) s
  = convert_matrix_compound_suite (PyDict (pre ++ (name, PyDict []) :: post))
                                  s.
Proof.
  intros Hf. unfold convert_matrix_compound_suite, build_matrix_compound_suite.
  cbn [py_items]. apply bind_ext; [|reflexivity].
  apply bind_ext; [reflexivity|]. intros T s1. rewrite !bind_lift_ok.
  apply bind_ext; [|reflexivity]. apply for_each_middle.
  unfold matrix_entry. cbn [fst snd py_truthy]. now rewrite Hf.
Qed.

Lemma falsy_matrix_config_witness :
  py_truthy PyNone = false
  /\ convert_matrix_compound_suite
       (PyDict [(PyStr "suite1", PyA PyNone);
                (PyStr "suite2", PyDict [(PyStr "mixins", PyList [])])]) []
     = convert_matrix_compound_suite
         (PyDict [(PyStr "suite1", PyDict []);
                  (PyStr "suite2", PyDict [(PyStr "mixins", PyList [])])]) [].
Proof.
  split; [reflexivity|].
  exact (falsy_matrix_config (PyStr "suite1") PyNone []
           [(PyStr "suite2", PyDict [(PyStr "mixins", PyList [])])] []
           eq_refl).
Defined.

(** ** Further properties: what [convert_direct] makes of a value *)

Lemma str_of_int_inj (z z' : Z) : str_of_int z = str_of_int z' -> z = z'.
Proof.
  intros Heq.
  destruct (int_text z) as (c & ds & Hz & _ & _ & Hr).
  destruct (int_text z') as (c' & ds' & Hz' & _ & _ & Hr').
  rewrite <- Hz in Hr. rewrite <- Hz', <- Heq in Hr'.
  rewrite Hr in Hr'. injection Hr' as Hi.
  rewrite <- (DecimalZ.of_to z), <- (DecimalZ.of_to z'). now rewrite Hi.
Qed.

(** The first character of the atom of a scalar tells its type. *)
Lemma convert_atom_head (a : PyAtom) (t : string) :
  convert_atom a = Ok t ->
  exists c x,
    t = String c x
    /\ match a with
       | PyNone => c = "N"%char
       | PyBool true => c = "T"%char
       | PyBool false => c = "F"%char
       | PyInt _ => c = "-"%char \/ Starlark.is_digit c = true
       | PyStr _ => c = DQ
       | PyOther _ _ => False
       end.
Proof.
  destruct a as [|[|]|z|s|r tr]; cbn [convert_atom py_str]; intros [= <-].
  - now eexists _, _.
  - now eexists _, _.
  - now eexists _, _.
  - destruct (int_text z) as (c & ds & -> & Hc & _). now exists c, ds.
  - eexists DQ, _. split; [|reflexivity].
    unfold dq. now rewrite append_cons, append_nil_l.
Qed.

Lemma convert_atom_inj (a b : PyAtom) (t : string) :
  convert_atom a = Ok t -> convert_atom b = Ok t -> a = b.
Proof.
  intros Ha Hb.
  destruct (convert_atom_head a t Ha) as (c & x & -> & Hca).
  destruct (convert_atom_head b _ Hb) as (c' & x' & [= <- <-] & Hcb).
  destruct a as [|[|]|z|s|r tr], b as [|[|]|z'|s'|r' tr'];
    try reflexivity; try contradiction;
    try (subst c; first [discriminate Hcb
                        | destruct Hcb as [Hcb|Hcb]; discriminate Hcb]);
    try (destruct Hca as [Hca|Hca]; subst c; discriminate).
  - f_equal. apply str_of_int_inj. cbn [convert_atom py_str] in Ha, Hb.
    congruence.
  - f_equal. apply literal_inj. unfold Spec.literal.
    rewrite !convert_atom_str in *. congruence.
Qed.

(** X7: [convert_direct] gives different scalars different atoms: the
    texts of [None], of a boolean, of an integer and of a string are never
    the same, and neither are the texts of two integers or of two
    strings.  So two keys of a dict never become one key of the dict
    builder. *)
Theorem convert_direct_scalar_injective (a b : PyAtom) (ta tb : string) :
  a <> b -> convert_atom a = Ok ta -> convert_atom b = Ok tb -> ta <> tb.
Proof.
  intros Hne Ha Hb Heq. subst tb. apply Hne.
  exact (convert_atom_inj a b ta Ha Hb).
Qed.

Lemma convert_direct_scalar_injective_witness :
  PyInt 1 <> PyStr "1"
  /\ convert_atom (PyInt 1) = Ok "1"
  /\ convert_atom (PyStr "1") = Ok (quoted "1")
  /\ "1" <> quoted "1".
Proof.
  assert (Hne : PyInt 1 <> PyStr "1") by discriminate.
  split; [exact Hne|]. split; [reflexivity|]. split; [reflexivity|].
  exact (convert_direct_scalar_injective (PyInt 1) (PyStr "1") "1"
           (quoted "1") Hne eq_refl eq_refl).
Defined.

Lemma first_unsupported_cons (x : PyVal) (l : list PyVal) :
  Cover.first_unsupported (PyList (x :: l))
  = match Cover.first_unsupported x with
    | Some r => Some r
    | None => Cover.first_unsupported (PyList l)
    end.
Proof. reflexivity. Qed.

Lemma first_unsupported_item (kv : PyAtom * PyVal)
      (d : list (PyAtom * PyVal)) :
  Cover.first_unsupported (PyDict (kv :: d))
  = match Cover.unsupported_atom (fst kv) with
    | Some r => Some r
    | None =>
        match Cover.first_unsupported (snd kv) with
        | Some r => Some r
        | None => Cover.first_unsupported (PyDict d)
        end
    end.
Proof. reflexivity. Qed.

Lemma convert_atom_result (a : PyAtom) :
  match Cover.unsupported_atom a with
  | Some r => convert_atom a = Raise (Exception ("unhandled python value: " +:+ r))
  | None => convert_atom a = Ok (Lex.atom_text a)
  end.
Proof. now destruct a. Qed.





Example convert_direct_first_unsupported_example :
  convert_direct
    (PyList [PyA (PyInt 1);
             PyDict [(PyStr "a", PyList [PyA (PyOther "{1}" true)]);
                     (PyOther "(1, 2)" true, PyA PyNone)]]) []
  = Raise (Exception "unhandled python value: {1}").
Proof. reflexivity. Qed.

Lemma first_unsupported_list (l : list PyVal) :
  Cover.first_unsupported (PyList l) = None ->
  forall x, In x l -> Cover.first_unsupported x = None.
Proof.
  induction l as [|y l IH]; intros Hn x Hin; [destruct Hin|].
  rewrite first_unsupported_cons in Hn.
  destruct (Cover.first_unsupported y) eqn:Hy; [discriminate Hn|].
  destruct Hin as [<-|Hin]; [exact Hy | now apply IH].
Qed.

Lemma first_unsupported_dict (d : list (PyAtom * PyVal)) :
  Cover.first_unsupported (PyDict d) = None ->
  forall kv, In kv d ->
             Cover.unsupported_atom (fst kv) = None
             /\ Cover.first_unsupported (snd kv) = None.
Proof.
  induction d as [|y d IH]; intros Hn kv Hin; [destruct Hin|].
  rewrite first_unsupported_item in Hn.
  destruct (Cover.unsupported_atom (fst y)) eqn:Hk; [discriminate Hn|].
  destruct (Cover.first_unsupported (snd y)) eqn:Hv; [discriminate Hn|].
  destruct Hin as [<-|Hin]; [now split | now apply IH].
Qed.

Lemma convert_atom_supported (a : PyAtom) :
  Cover.unsupported_atom a = None -> convert_atom a = Ok (Lex.atom_text a).
Proof.
  intros Hn. pose proof (convert_atom_result a) as Ha. now rewrite Hn in Ha.
Qed.

Lemma comprehension_r_supported (g : PyVal -> result Tree)
      (d : list (PyAtom * PyVal)) :
  (forall kv, In kv d ->
              Cover.unsupported_atom (fst kv) = None
              /\ g (snd kv) = Ok (Lex.tree_of (snd kv))) ->
  Starlark.distinct (map fst d) = true ->
  forall acc,
    (forall kv, In kv d -> ~ In (Lex.atom_text (fst kv)) (map fst acc)) ->
    Den.comprehension_r g acc d
    = Ok (acc ++ map (fun kv => (Lex.atom_text (fst kv),
                                 Lex.tree_of (snd kv))) d).
Proof.
  induction d as [|kv d IH]; intros Hall Hdis acc Hacc.
  - cbn [Den.comprehension_r map]. now rewrite app_nil_r.
  - cbn [map Starlark.distinct] in Hdis. apply andb_prop in Hdis as [Hk Hdis].
    apply negb_true_iff in Hk.
    destruct (Hall kv (or_introl eq_refl)) as [Hpk Hg].
    rewrite comprehension_r_cons, (convert_atom_supported _ Hpk), Hg.
    cbn [Den.rbind]. rewrite dict_set_fresh by (apply Hacc; now left).
    rewrite IH.
    + cbn [map]. now rewrite <- app_assoc.
    + intros kv' Hin. apply Hall. now right.
    + exact Hdis.
    + intros kv' Hin. rewrite map_app, in_app_iff. cbn [map fst In].
      intros [Hold|[Heq|[]]].
      * apply (Hacc kv'); [now right | exact Hold].
      * assert (Hsame : fst kv = fst kv').
        { destruct (Hall kv' (or_intror Hin)) as [Hpk' _].
          apply (convert_atom_inj _ _ (Lex.atom_text (fst kv))).
          - now apply convert_atom_supported.
          - rewrite Heq. now apply convert_atom_supported. }
        assert (Hex : existsb (Starlark.atom_eqb (fst kv)) (map fst d) = true);
          [|congruence].
        apply existsb_exists. exists (fst kv'). split.
        -- apply in_map. exact Hin.
        -- rewrite Hsame. apply atom_eqb_refl.
Qed.

Lemma direct_supported (v : PyVal) :
  Cover.first_unsupported v = None -> Cover.keyed v = true ->
  Den.direct v = Ok (Lex.tree_of v).
Proof.
  induction v as [a|l IH|d IH] using PyVal_ind'; intros Hn Hk.
  - cbn [Cover.first_unsupported] in Hn. cbn [Den.direct Lex.tree_of].
    now rewrite (convert_atom_supported a Hn).
  - cbn [Cover.keyed] in Hk. cbn [Den.direct Lex.tree_of].
    rewrite map_r_plain; [reflexivity|].
    intros v Hin. rewrite Forall_forall in IH. apply IH.
    + now apply list_elem_of_In.
    + now apply (first_unsupported_list l Hn).
    + rewrite forallb_forall in Hk. now apply Hk.
  - cbn [Cover.keyed] in Hk. apply andb_prop in Hk as [Hall Hdis].
    cbn [Den.direct Lex.tree_of].
    rewrite (comprehension_r_supported Den.direct d);
      [reflexivity| |exact Hdis|].
    + intros kv Hin.
      destruct (first_unsupported_dict d Hn kv Hin) as [Hkey Hval].
      split; [exact Hkey|]. rewrite Forall_forall in IH.
      apply (IH kv); [now apply list_elem_of_In | exact Hval|].
      rewrite forallb_forall in Hall. now apply Hall.
    + intros kv _ [].
Qed.

Lemma fresh_snapshot (s s' : store) (x : Value) (t : Tree) :
  fresh s x s' t ->
  exists d, s' = s ++ d /\ snapshot (length s') s' x = Some t.
Proof.
  intros (d & -> & Hsnap). exists d. split; [reflexivity|].
  eapply snapshot_in_snapshot.
  eapply snapshot_in_mono; [exact Hsnap | apply Nat.le_refl | |
                            apply agree_refl].
  rewrite length_app. lia.
Qed.

(** X9: on a value that holds nothing unsupported, the keys of each of
    its dicts differing, [convert_direct] only adds builders to the store,
    and what it returns reads back as the value itself: a list builder
    with the converted elements in their order for a list, a dict builder
    with one pair for each item, in the order of the items, the key
    converted, for a dict. *)
Theorem convert_direct_shape (v : PyVal) (s : store) :
  Cover.first_unsupported v = None ->
  Cover.keyed v = true ->
  exists x d,
    convert_direct v s = Ok (x, s ++ d)
    /\ snapshot (length (s ++ d)) (s ++ d) x = Some (Lex.tree_of v).
Proof.
  intros Hn Hk. pose proof (convert_direct_sim v s) as Hsim.
  rewrite (direct_supported v Hn Hk) in Hsim.
  destruct Hsim as (x & s' & Hrun & Hfresh).
  destruct (fresh_snapshot _ _ _ _ Hfresh) as (d & -> & Hsnap).
  now exists x, d.
Qed.

Lemma convert_direct_shape_witness :
  exists x d,
    convert_direct
      (PyDict [(PyStr "pool", PyA (PyStr "default"));
               (PyInt 2, PyList [PyA PyNone; PyA (PyBool false)])]) []
    = Ok (x, [] ++ d)
    /\ snapshot (length ([] ++ d)) ([] ++ d) x
       = Some (TDict [(quoted "pool", TAtom (quoted "default"));
                      ("2", TList [TAtom "None"; TAtom "False"])]).
Proof.
  exact (convert_direct_shape
           (PyDict [(PyStr "pool", PyA (PyStr "default"));
                    (PyInt 2, PyList [PyA PyNone; PyA (PyBool false)])]) []
           eq_refl eq_refl).
Defined.

(** ** Further properties: the parameters of [targets.swarming] *)

Lemma swarming_param_name (k : string) :
  In k Spec.swarming_keys ->
  Den.swarming_param (PyStr k) = Ok (Cover.swarming_name k).
Proof.
  unfold Spec.swarming_keys. cbn [In]. intros H.
  repeat (destruct H as [<-|H]; [reflexivity|]). contradiction.
Qed.

Lemma swarming_name_inj (k k' : string) :
  In k Spec.swarming_keys -> In k' Spec.swarming_keys ->
  Cover.swarming_name k = Cover.swarming_name k' -> k = k'.
Proof.
  unfold Spec.swarming_keys. cbn [In]. intros H H'.
  repeat (destruct H as [<-|H]; [|]); try contradiction;
    repeat (destruct H' as [<-|H']; [|]); try contradiction;
    intros Heq; try reflexivity; vm_compute in Heq; discriminate Heq.
Qed.

Lemma swarming_fold (items : list (string * PyVal)) :
  NoDup (map fst items) ->
  Forall (fun kv => In (fst kv) Spec.swarming_keys
                    /\ Cover.first_unsupported (snd kv) = None
                    /\ Cover.keyed (snd kv) = true) items ->
  forall acc,
    (forall kv, In kv items ->
                ~ In (Cover.swarming_name (fst kv)) (map fst acc)) ->
    Den.fold_r (map (fun kv => (PyStr (fst kv), snd kv)) items) acc
               (Den.assign Den.swarming_param)
    = Ok (acc ++ map (fun kv => (Cover.swarming_name (fst kv),
                                 Lex.tree_of (snd kv))) items).
Proof.
  induction items as [|[k v] items IH]; intros Hnd Hall acc Hacc.
  - cbn. now rewrite app_nil_r.
  - cbn [map fst snd] in *. apply NoDup_cons in Hnd as [Hk Hnd].
    apply Forall_cons in Hall as [(Hin & Hn & Hkd) Hall].
    cbn [fst snd] in Hin, Hn, Hkd.
    cbn [Den.fold_r]. unfold Den.assign at 1. cbn [fst snd].
    rewrite (swarming_param_name k Hin), (direct_supported v Hn Hkd).
    cbn [Den.rbind].
    rewrite dict_set_fresh by (apply (Hacc (k, v)); now left).
    rewrite (IH Hnd Hall).
    + now rewrite <- app_assoc.
    + intros [k' v'] Hin'. cbn [fst]. rewrite map_app, in_app_iff.
      cbn [map fst In]. intros [Hold|[Heq|[]]].
      * apply (Hacc (k', v')); [now right | exact Hold].
      * apply Hk. rewrite Forall_forall in Hall.
        destruct (Hall (k', v')) as (Hin2 & _);
          [now apply list_elem_of_In|].
        cbn [fst] in Hin2.
        rewrite (swarming_name_inj k k' Hin Hin2 Heq).
        apply list_elem_of_In. change k' with (fst (k', v')).
        now apply in_map.
Qed.

(** X10: on a swarming dict whose keys are keys of the schema and whose
    values convert, [convert_swarming] returns a [targets.swarming] call
    with one parameter for each item, in the order of the items: the
    parameter has the name of the key, with [_sec] behind it for
    [expiration], [hard_timeout] and [io_timeout], and the converted
    value.  No two keys share a parameter. *)
Theorem convert_swarming_params (items : list (string * PyVal)) (s : store) :
  NoDup (map fst items) ->
  Forall (fun kv => In (fst kv) Spec.swarming_keys
                    /\ Cover.first_unsupported (snd kv) = None
                    /\ Cover.keyed (snd kv) = true) items ->
  exists x d,
    convert_swarming (PyDict (map (fun kv => (PyStr (fst kv), snd kv)) items))
                     s
    = Ok (x, s ++ d)
    /\ snapshot (length (s ++ d)) (s ++ d) x
       = Some (TCall "targets.swarming"
                     (map (fun kv => (Cover.swarming_name (fst kv),
                                      Lex.tree_of (snd kv))) items)
                     None).
Proof.
  intros Hnd Hall.
  pose proof (convert_swarming_sim
                (PyDict (map (fun kv => (PyStr (fst kv), snd kv)) items)) s)
    as Hsim.
  unfold Den.swarming, Den.call_of in Hsim. cbn [py_items Den.rbind] in Hsim.
  rewrite (swarming_fold items Hnd Hall []) in Hsim by (intros kv _ []).
  cbn [Den.rbind app] in Hsim.
  destruct Hsim as (x & s' & Hrun & Hfresh).
  destruct (fresh_snapshot _ _ _ _ Hfresh) as (d & -> & Hsnap).
  now exists x, d.
Qed.

Lemma convert_swarming_params_witness :
  exists x d,
    convert_swarming
      (PyDict [(PyStr "shards", PyA (PyInt 2));
               (PyStr "hard_timeout", PyA (PyInt 60));
               (PyStr "dimensions",
                PyDict [(PyStr "pool", PyA (PyStr "default"))])]) []
    = Ok (x, [] ++ d)
    /\ snapshot (length ([] ++ d)) ([] ++ d) x
       = Some (TCall "targets.swarming"
                     [("shards", TAtom "2");
                      ("hard_timeout_sec", TAtom "60");
                      ("dimensions",
                       TDict [(quoted "pool", TAtom (quoted "default"))])]
                     None).
Proof.
  refine (convert_swarming_params
            [("shards", PyA (PyInt 2)); ("hard_timeout", PyA (PyInt 60));
             ("dimensions", PyDict [(PyStr "pool", PyA (PyStr "default"))])]
            [] _ _).
  - apply NoDup_ListNoDup.
    repeat (constructor; [cbn [In map fst]; intuition discriminate|]).
    constructor.
  - repeat (constructor; [cbn; intuition|]). constructor.
Defined.

(** ** Further properties: the basic suite *)



(** X12: whenever [convert_basic_suite] returns, the value of [targets]
    is the rendering of the list of the quoted test names, one for each
    test of the suite, in the order of the suite; a test all of whose
    keys are passed over is listed like any other. *)
Theorem basic_suite_targets
        (tests : list (string * PyVal)) (s s' : store)
        (out : list (string * option string)) :
  NoDup (map fst tests) ->
  convert_basic_suite (Spec.suite_of tests) s = Ok (out, s') ->
  dict_get "targets" out
  = Some (Some (block "[" "]" (map Spec.literal (map fst tests)))).
Proof.
  intros Hnd Hconv. unfold convert_basic_suite in Hconv.
  destruct (build_basic_suite (Spec.suite_of tests) s) as [[bs s1]|e] eqn:Hrun;
    [|now rewrite (bind_raise _ _ _ _ Hrun) in Hconv].
  rewrite (bind_ok _ _ _ _ _ Hrun) in Hconv.
  destruct (build_basic_suite_tests tests s s1 bs Hnd Hrun)
    as (HT & items & HD & _).
  rewrite (bind_ok _ _ _ _ _ (to_output_snapshot _ _ _ HT)) in Hconv.
  rewrite (bind_ok _ _ _ _ _ (to_output_snapshot _ _ _ HD)) in Hconv.
  injection Hconv as <- _. cbn [dict_get String.eqb Ascii.eqb Bool.eqb].
  replace (map (fun e : string * PyVal => TAtom (Spec.literal (fst e))) tests)
    with (map (fun n => TAtom (Spec.literal n)) (map fst tests))
    by (now rewrite List.map_map).
  do 3 f_equal. rewrite <- (render_atoms (map Spec.literal (map fst tests))).
  now rewrite (List.map_map Spec.literal TAtom).
Qed.

Lemma basic_suite_targets_witness :
  exists out s',
    convert_basic_suite
      (Spec.suite_of
         [("test1", PyDict [(PyStr "script", PyA (PyStr "test1.py"))]);
          ("test2", PyDict [(PyStr "ci_only", PyA (PyBool true))])]) []
    = Ok (out, s')
    /\ dict_get "targets" out
       = Some (Some (lines ["["; "  " +:+ quoted "test1" +:+ ",";
                            "  " +:+ quoted "test2" +:+ ","; "]"])).
Proof.
  set (tests := [("test1", PyDict [(PyStr "script", PyA (PyStr "test1.py"))]);
                 ("test2", PyDict [(PyStr "ci_only", PyA (PyBool true))])]).
  destruct (convert_basic_suite (Spec.suite_of tests) [])
    as [[out s']|e] eqn:Hrun; [|vm_compute in Hrun; discriminate Hrun].
  exists out, s'. split; [reflexivity|].
  refine (basic_suite_targets tests [] s' out _ Hrun).
  unfold tests. cbn [map fst]. apply NoDup_ListNoDup.
  repeat (constructor; [cbn [In]; intuition discriminate|]). constructor.
Defined.

(** ** Further properties: where the key [mixins] stands *)

Lemma test_key_mixins (st : Den.test_state) (v : PyVal) :
  Den.test_key st (PyStr "mixins", v)
  = Den.rbind (py_iter v) (fun es =>
    Den.rbind (Den.map_r Den.direct es) (fun ts =>
      Ok {| Den.anon := Den.anon st; Den.mods := Den.mods st;
            Den.named := Some ts |})).
Proof. reflexivity. Qed.

(** The key [mixins] and a key before it can change places. *)
Lemma test_key_mixins_front (st a b : Den.test_state) (p : PyAtom * PyVal)
      (v : PyVal) :
  fst p <> PyStr "mixins" ->
  Den.test_key st p = Ok a -> Den.test_key a (PyStr "mixins", v) = Ok b ->
  exists a', Den.test_key st (PyStr "mixins", v) = Ok a'
             /\ Den.test_key a' p = Ok b.
Proof.
  intros Hne Hp Hm. rewrite test_key_mixins in *.
  destruct (py_iter v) as [es|e]; [|discriminate Hm]. cbn [Den.rbind] in *.
  destruct (Den.map_r Den.direct es) as [ts|e]; [|discriminate Hm].
  cbn [Den.rbind] in *. injection Hm as <-.
  eexists. split; [reflexivity|].
  unfold Den.test_key in *.
  destruct (Den.classify (fst p)) as [[|n c| |]|e] eqn:Hc;
    cbn [Den.rbind] in *; try discriminate Hp.
  - now injection Hp as <-.
  - destruct (Den.conv_den c (snd p)); [|discriminate Hp].
    cbn [Den.rbind] in *. now injection Hp as <-.
  - now apply classify_mixins in Hc.
  - destruct (py_iter (snd p)) as [ms|e']; [|discriminate Hp].
    cbn [Den.rbind] in *.
    destruct (Den.map_r Den.direct ms); [|discriminate Hp].
    cbn [Den.rbind] in *. now injection Hp as <-.
Qed.

Lemma test_key_mixins_back (st a' b : Den.test_state) (p : PyAtom * PyVal)
      (v : PyVal) :
  fst p <> PyStr "mixins" ->
  Den.test_key st (PyStr "mixins", v) = Ok a' -> Den.test_key a' p = Ok b ->
  exists a, Den.test_key st p = Ok a
            /\ Den.test_key a (PyStr "mixins", v) = Ok b.
Proof.
  intros Hne Hm Hp. rewrite test_key_mixins in Hm.
  setoid_rewrite test_key_mixins.
  destruct (py_iter v) as [es|e]; [|discriminate Hm]. cbn [Den.rbind] in *.
  destruct (Den.map_r Den.direct es) as [ts|e]; [|discriminate Hm].
  cbn [Den.rbind] in *. injection Hm as <-.
  unfold Den.test_key in *.
  destruct (Den.classify (fst p)) as [[|n c| |]|e] eqn:Hc;
    cbn [Den.rbind] in *; try discriminate Hp.
  - injection Hp as <-. now eexists.
  - destruct (Den.conv_den c (snd p)); [|discriminate Hp].
    cbn [Den.rbind] in *. injection Hp as <-. now eexists.
  - now apply classify_mixins in Hc.
  - destruct (py_iter (snd p)) as [ms|e']; [|discriminate Hp].
    cbn [Den.rbind] in *.
    destruct (Den.map_r Den.direct ms); [|discriminate Hp].
    cbn [Den.rbind] in *. injection Hp as <-. now eexists.
Qed.

Lemma fold_mixins_position (v : PyVal) (pre post : list (PyAtom * PyVal)) :
  (forall kv, In kv pre -> fst kv <> PyStr "mixins") ->
  forall st fin,
    Den.fold_r (pre ++ (PyStr "mixins", v) :: post) st Den.test_key = Ok fin
    <-> Den.fold_r ((PyStr "mixins", v) :: pre ++ post) st Den.test_key
        = Ok fin.
Proof.
  induction pre as [|p pre IH]; intros Hpre st fin; [reflexivity|].
  assert (Hp : fst p <> PyStr "mixins") by (apply Hpre; now left).
  assert (Hpre' : forall kv, In kv pre -> fst kv <> PyStr "mixins")
    by (intros kv Hin; apply Hpre; now right).
  specialize (IH Hpre'). cbn [app Den.fold_r] in *. split.
  - destruct (Den.test_key st p) as [a|e] eqn:Ha; [|discriminate].
    cbn [Den.rbind]. intros H. apply IH in H.
    destruct (Den.test_key a (PyStr "mixins", v)) as [b|e] eqn:Hb;
      [|discriminate H].
    cbn [Den.rbind] in H.
    destruct (test_key_mixins_front st a b p v Hp Ha Hb) as (a' & -> & Hb').
    cbn [Den.rbind]. now rewrite Hb'.
  - destruct (Den.test_key st (PyStr "mixins", v)) as [a'|e] eqn:Ha;
      [|discriminate].
    cbn [Den.rbind].
    destruct (Den.test_key a' p) as [b|e] eqn:Hb; [|discriminate].
    cbn [Den.rbind]. intros H.
    destruct (test_key_mixins_back st a' b p v Hp Ha Hb) as (a & -> & Hb').
    cbn [Den.rbind]. apply IH. now rewrite Hb'.
Qed.

Lemma fold_r_middle {A S : Type} (body : S -> A -> result S) (x y : A)
      (before after : list A) :
  (forall acc acc', body acc x = Ok acc' -> body acc y = Ok acc') ->
  forall st fin,
    Den.fold_r (before ++ x :: after) st body = Ok fin ->
    Den.fold_r (before ++ y :: after) st body = Ok fin.
Proof.
  intros Hxy. induction before as [|p before IH]; intros st fin;
    cbn [app Den.fold_r].
  - destruct (body st x) as [acc'|e] eqn:Hx; [|discriminate].
    now rewrite (Hxy _ _ Hx).
  - destruct (body st p) as [acc'|e]; [|discriminate]. cbn [Den.rbind].
    apply IH.
Qed.

Lemma basic_suite_middle (name : PyAtom) (d1 d2 : PyVal)
      (before after : list (PyAtom * PyVal)) (ts : Tree * Tree) :
  (forall t, Den.test_of d1 = Ok t -> Den.test_of d2 = Ok t) ->
  Den.basic_suite (PyDict (before ++ (name, d1) :: after)) = Ok ts ->
  Den.basic_suite (PyDict (before ++ (name, d2) :: after)) = Ok ts.
Proof.
  intros Hd. unfold Den.basic_suite. cbn [py_items Den.rbind].
  destruct (Den.fold_r (before ++ (name, d1) :: after) ([], []) Den.suite_test)
    as [acc|e] eqn:Hfold; [|discriminate].
  rewrite (fold_r_middle Den.suite_test (name, d1) (name, d2) before after)
    with (fin := acc); [trivial| |exact Hfold].
  intros a a'. unfold Den.suite_test. cbn [fst snd].
  destruct (convert_atom name); [|discriminate]. cbn [Den.rbind].
  destruct (Den.test_of d1) as [t|e'] eqn:Ht; [|discriminate].
  now rewrite (Hd t eq_refl).
Qed.

Lemma convert_basic_suite_same (suite1 suite2 : PyVal) (s s1 : store)
      (out : list (string * option string)) :
  (forall ts, Den.basic_suite suite1 = Ok ts -> Den.basic_suite suite2 = Ok ts) ->
  convert_basic_suite suite1 s = Ok (out, s1) ->
  exists s2, convert_basic_suite suite2 s = Ok (out, s2).
Proof.
  intros Hsame Hrun.
  destruct (sim_ok _ _ _ _ _ _ (convert_basic_suite_den suite1 s) Hrun)
    as (ts & Hden & _ & ->).
  pose proof (convert_basic_suite_den suite2 s) as Hsim.
  rewrite (Hsame ts Hden) in Hsim.
  destruct Hsim as (out2 & s2 & Hrun2 & _ & ->). now exists s2.
Qed.

(** X13: where the key [mixins] stands among the keys of a test
    definition makes no difference: as the list of mixins holds the
    anonymous mixin builder itself, not a copy, the fields assigned after
    the list was made are in it all the same.  [convert_basic_suite]
    returns an output on the suite with [mixins] behind the keys [pre] if
    and only if it returns the same output with [mixins] in front of
    them. *)
Theorem mixins_key_position
        (name : PyAtom) (v : PyVal) (pre post before after : list (PyAtom * PyVal))
        (s : store) (out : list (string * option string)) :
  (forall kv, In kv pre -> fst kv <> PyStr "mixins") ->
  (exists s1,
      convert_basic_suite
        (PyDict (before
                   ++ (name, PyDict (pre ++ (PyStr "mixins", v) :: post))
                   :: after)) s = Ok (out, s1))
  <-> (exists s2,
          convert_basic_suite
            (PyDict (before
                       ++ (name, PyDict ((PyStr "mixins", v) :: pre ++ post))
                       :: after)) s = Ok (out, s2)).
Proof.
  intros Hpre.
  assert (Htest : forall t,
             Den.test_of (PyDict (pre ++ (PyStr "mixins", v) :: post)) = Ok t
             <-> Den.test_of (PyDict ((PyStr "mixins", v) :: pre ++ post))
                 = Ok t).
  { intros t. unfold Den.test_of. cbn [py_items Den.rbind].
    pose proof (fold_mixins_position v pre post Hpre Den.init_test) as Hf.
    destruct (Den.fold_r (pre ++ (PyStr "mixins", v) :: post) Den.init_test
                         Den.test_key) as [st|e] eqn:H1.
    - now rewrite (proj1 (Hf st) eq_refl).
    - destruct (Den.fold_r ((PyStr "mixins", v) :: pre ++ post) Den.init_test
                           Den.test_key) as [st|e'] eqn:H2.
      + discriminate (proj2 (Hf st) eq_refl).
      + cbn [Den.rbind]. split; discriminate. }
  split; intros [s' Hrun].
  - refine (convert_basic_suite_same _ _ _ _ _ _ Hrun).
    intros ts. apply basic_suite_middle. intros t. apply Htest.
  - refine (convert_basic_suite_same _ _ _ _ _ _ Hrun).
    intros ts. apply basic_suite_middle. intros t. apply Htest.
Qed.

Lemma mixins_key_position_witness :
  exists out s1 s2,
    convert_basic_suite
      (PyDict [(PyStr "test1",
                PyDict [(PyStr "ci_only", PyA (PyBool true));
                        (PyStr "mixins", Spec.names_of ["m"])])]) []
    = Ok (out, s1)
    /\ convert_basic_suite
         (PyDict [(PyStr "test1",
                   PyDict [(PyStr "mixins", Spec.names_of ["m"]);
                           (PyStr "ci_only", PyA (PyBool true))])]) []
       = Ok (out, s2).
Proof.
  destruct (convert_basic_suite
              (PyDict [(PyStr "test1",
                        PyDict [(PyStr "ci_only", PyA (PyBool true));
                                (PyStr "mixins", Spec.names_of ["m"])])]) [])
    as [[out s1]|e] eqn:Hrun; [|vm_compute in Hrun; discriminate Hrun].
  exists out, s1.
  destruct (proj1 (mixins_key_position
                     (PyStr "test1") (Spec.names_of ["m"])
                     [(PyStr "ci_only", PyA (PyBool true))] [] [] [] [] out
                     ltac:(intros kv [<-|[]]; discriminate))
                  (ex_intro _ s1 Hrun)) as [s2 Hrun2].
  exists s2. split; [reflexivity | exact Hrun2].
Defined.

(** ** Further properties: the exceptions of the sub-converters *)

Lemma sim_raise_inv {A T : Type} (m : M A) (d : result T) (s : store)
      (e : PyExc) (R : A -> store -> T -> Prop) :
  sim m d s R -> m s = Raise e -> d = Raise e.
Proof.
  unfold sim. destruct d as [t|e'].
  - intros (a & s' & Hrun & _) H. congruence.
  - intros Hrun H. congruence.
Qed.

Lemma field_converter_classify (k : PyAtom) (conv : PyVal -> M Value) :
  Cover.field_converter k = Some conv ->
  exists n c, Den.classify k = Ok (Den.Field n c) /\ conv = Den.conv_m c.
Proof.
  unfold Cover.field_converter, Cover.ignored_keys, Den.classify.
  repeat match goal with
         | |- context [if ?c then _ else _] => destruct c
         end; intros [= <-]; now eexists _, _.
Qed.

Lemma test_key_field_raise (st : Den.test_state) (k : PyAtom) (v : PyVal)
      (conv : PyVal -> M Value) (s0 : store) (e : PyExc) :
  Cover.field_converter k = Some conv -> conv v s0 = Raise e ->
  Den.test_key st (k, v) = Raise e.
Proof.
  intros Hf Hrun.
  destruct (field_converter_classify k conv Hf) as (n & c & Hc & ->).
  unfold Den.test_key. cbn [fst snd]. rewrite Hc. cbn [Den.rbind].
  now rewrite (sim_raise_inv _ _ _ _ _ (conv_sim c v s0) Hrun).
Qed.

(** X14: an exception of a sub-converter comes out of
    [convert_basic_suite] as it is.  When the value of a key of a test
    definition goes to [convert_direct], [convert_args],
    [convert_resultdb], [convert_swarming] or [convert_skylab] and that
    converter raises on it, and the tests and keys before it convert,
    then [convert_basic_suite] raises the same exception, whatever comes
    after the key. *)
Theorem field_error_propagates
        (k name : PyAtom) (v : PyVal) (conv : PyVal -> M Value)
        (pre post before after : list (PyAtom * PyVal))
        (s s0 : store) (e : PyExc) :
  Cover.field_converter k = Some conv ->
  conv v s0 = Raise e ->
  (exists r, convert_basic_suite (PyDict (before ++ [(name, PyDict pre)])) s
             = Ok r) ->
  convert_basic_suite
    (PyDict (before ++ (name, PyDict (pre ++ (k, v) :: post)) :: after)) s
  = Raise e.
Proof.
  intros Hf Hrun.
  eapply stops_transfer;
    [apply convert_basic_suite_den | apply convert_basic_suite_den|].
  intros t. unfold Den.basic_suite. cbn [py_items Den.rbind].
  apply suite_stops. intros acc acc'. unfold Den.suite_test. cbn [fst snd].
  destruct (convert_atom name) as [n|e']; cbn [Den.rbind]; [|discriminate].
  unfold Den.test_of. cbn [py_items Den.rbind].
  destruct (Den.fold_r pre Den.init_test Den.test_key) as [st|e'] eqn:Hpre;
    cbn [Den.rbind]; [|discriminate].
  intros _.
  now rewrite (fold_r_stops pre post (k, v) _ st _ e Hpre
                            (test_key_field_raise st k v conv s0 e Hf Hrun)).
Qed.

Lemma field_error_propagates_witness :
  convert_basic_suite
    (PyDict [(PyStr "test1",
              PyDict [(PyStr "ci_only", PyA (PyBool true));
                      (PyStr "android_swarming",
                       PyDict [(PyStr "bogus", PyA (PyInt 1))]);
                      (PyStr "unhandled_key", PyA PyNone)])]) []
  = Raise (Exception ("unhandled key in swarming: " +:+ quoted "bogus")).
Proof.
  refine (field_error_propagates
            (PyStr "android_swarming") (PyStr "test1")
            (PyDict [(PyStr "bogus", PyA (PyInt 1))]) convert_swarming
            [(PyStr "ci_only", PyA (PyBool true))]
            [(PyStr "unhandled_key", PyA PyNone)] [] [] [] [] _
            eq_refl eq_refl _).
  eexists. reflexivity.
Defined.

(** ** Further properties: one entry for each test *)

Lemma test_key_mods (st st' : Den.test_state) (kv : PyAtom * PyVal) :
  Den.test_key st kv = Ok st' ->
  (Den.mods st = [] \/ exists r, Den.mods st = [("remove_mixins", r)]) ->
  Den.mods st' = [] \/ exists r, Den.mods st' = [("remove_mixins", r)].
Proof.
  unfold Den.test_key.
  destruct (Den.classify (fst kv)) as [[|n c| |]|e]; cbn [Den.rbind];
    try discriminate.
  - now intros [= <-].
  - destruct (Den.conv_den c (snd kv)); [|discriminate]. cbn [Den.rbind].
    now intros [= <-].
  - destruct (py_iter (snd kv)) as [es|e]; [|discriminate]. cbn [Den.rbind].
    destruct (Den.map_r Den.direct es); [|discriminate]. cbn [Den.rbind].
    now intros [= <-].
  - destruct (py_iter (snd kv)) as [ms|e]; [|discriminate]. cbn [Den.rbind].
    destruct (Den.map_r Den.direct ms); [|discriminate]. cbn [Den.rbind].
    intros [= <-] [->|[r ->]]; right; cbn [Den.mods dict_set];
      now eexists.
Qed.

Lemma fold_mods (keys : list (PyAtom * PyVal)) :
  forall st st',
    Den.fold_r keys st Den.test_key = Ok st' ->
    (Den.mods st = [] \/ exists r, Den.mods st = [("remove_mixins", r)]) ->
    Den.mods st' = [] \/ exists r, Den.mods st' = [("remove_mixins", r)].
Proof.
  induction keys as [|kv keys IH]; intros st st'; cbn [Den.fold_r].
  - now intros [= <-].
  - destruct (Den.test_key st kv) as [st1|e] eqn:H1; [|discriminate].
    cbn [Den.rbind]. intros Hfold Hst.
    exact (IH _ _ Hfold (test_key_mods _ _ _ H1 Hst)).
Qed.

Lemma test_of_modification (v : PyVal) (t : Tree) :
  Den.test_of v = Ok t -> Cover.modification_shape t.
Proof.
  unfold Den.test_of. destruct (py_items v) as [kvs|e]; [|discriminate].
  cbn [Den.rbind].
  destruct (Den.fold_r kvs Den.init_test Den.test_key) as [st|e] eqn:Hfold;
    [|discriminate].
  cbn [Den.rbind]. intros [= <-].
  exists (Den.mixins_tree st). unfold Den.test_tree.
  destruct (fold_mods kvs _ _ Hfold (or_introl eq_refl)) as [->|[r ->]].
  - now left.
  - right. now exists r.
Qed.

Lemma suite_fold_entries (tests : list (string * PyVal)) :
  forall acc acc' : list Tree * list (string * Tree),
    Den.fold_r (map (fun e => (PyStr (fst e), snd e)) tests) acc Den.suite_test
    = Ok acc' ->
    NoDup (map fst tests) ->
    (forall n, In n (map fst tests) ->
               ~ In (Spec.literal n) (map fst (snd acc))) ->
    exists its,
      snd acc' = snd acc ++ its
      /\ map fst its = map Spec.literal (map fst tests)
      /\ Forall (fun it => Cover.modification_shape (snd it)) its.
Proof.
  induction tests as [|[n v] tests IH]; intros acc acc'; cbn [map fst snd].
  - cbn [Den.fold_r]. intros [= <-] _ _. exists []. rewrite app_nil_r.
    repeat split. constructor.
  - cbn [Den.fold_r]. unfold Den.suite_test at 1. cbn [fst snd].
    rewrite convert_atom_str. cbn [Den.rbind].
    destruct (Den.test_of v) as [t|e] eqn:Ht; [|discriminate].
    cbn [Den.rbind]. intros Hfold Hnd Hacc.
    apply NoDup_cons in Hnd as [Hn Hnd].
    rewrite dict_set_fresh in Hfold by (apply Hacc; now left).
    destruct (IH _ _ Hfold Hnd) as (its & Hits & Hkeys & Hshape).
    + intros n' Hin'. cbn [snd]. rewrite map_app, in_app_iff.
      cbn [map fst In]. intros [Hold|[Heq|[]]].
      * apply (Hacc n'); [now right | exact Hold].
      * apply literal_inj in Heq. subst n'. apply Hn.
        now apply list_elem_of_In.
    + exists ((Spec.literal n, t) :: its). cbn [snd] in Hits.
      rewrite Hits, <- app_assoc. split; [reflexivity|].
      cbn [map fst]. rewrite Hkeys. split; [reflexivity|].
      constructor; [|exact Hshape]. cbn [snd].
      exact (test_of_modification v t Ht).
Qed.

(** X15: when the two builders of [convert_basic_suite] are made, the
    dict of per-test modifications holds one pair for each test of the
    suite, in the order of the suite, under the quoted test name; and
    each value is a [targets.per_test_modification] call, with [mixins]
    for an elision parameter, whose parameters are [mixins] alone or
    [remove_mixins] and then [mixins]. *)
Theorem basic_suite_entries
        (tests : list (string * PyVal)) (s s' : store) (bs : nat * nat) :
  NoDup (map fst tests) ->
  build_basic_suite (Spec.suite_of tests) s = Ok (bs, s') ->
  exists items,
    snapshot (length s') s' (Ref (snd bs)) = Some (TDict items)
    /\ map fst items = map Spec.literal (map fst tests)
    /\ Forall (fun it => Cover.modification_shape (snd it)) items.
Proof.
  intros Hnd Hrun.
  destruct (sim_ok _ _ _ _ _ _ (build_basic_suite_sim _ s) Hrun)
    as ([tT tD] & Hden & _ & _ & HD). cbn [snd] in HD.
  unfold Den.basic_suite, Spec.suite_of in Hden.
  cbn [py_items Den.rbind] in Hden.
  destruct (Den.fold_r (map (fun e => (PyStr (fst e), snd e)) tests) ([], [])
                       Den.suite_test) as [acc|e] eqn:Hfold;
    [|discriminate Hden].
  cbn [Den.rbind] in Hden. injection Hden as <- <-.
  destruct (suite_fold_entries tests _ _ Hfold Hnd) as (its & Hits & Hk & Hs);
    [intros n _ []|].
  cbn [snd app] in Hits. exists (snd acc). rewrite Hits.
  split; [now rewrite <- Hits|]. split; assumption.
Qed.

Lemma basic_suite_entries_witness :
  exists bs s' items,
    build_basic_suite
      (Spec.suite_of
         [("test1", PyDict [(PyStr "script", PyA (PyStr "test1.py"))]);
          ("test2", PyDict [(PyStr "remove_mixins", Spec.names_of ["m"])])])
      []
    = Ok (bs, s')
    /\ snapshot (length s') s' (Ref (snd bs)) = Some (TDict items)
    /\ map fst items = [quoted "test1"; quoted "test2"]
    /\ Forall (fun it => Cover.modification_shape (snd it)) items.
Proof.
  set (tests := [("test1", PyDict [(PyStr "script", PyA (PyStr "test1.py"))]);
                 ("test2",
                  PyDict [(PyStr "remove_mixins", Spec.names_of ["m"])])]).
  destruct (build_basic_suite (Spec.suite_of tests) [])
    as [[bs s']|e] eqn:Hrun; [|vm_compute in Hrun; discriminate Hrun].
  exists bs, s'.
  destruct (basic_suite_entries tests [] s' bs) as (items & H1 & H2 & H3).
  - unfold tests. cbn [map fst]. apply NoDup_ListNoDup.
    repeat (constructor; [cbn [In]; intuition discriminate|]). constructor.
  - exact Hrun.
  - exists items. split; [reflexivity|]. split; [exact H1|].
    split; [exact H2 | exact H3].
Defined.

(** ** Further properties: a value that is not a dict where one is due *)

Lemma py_items_not_dict (v : PyVal) :
  (forall d, v <> PyDict d) -> py_items v = Raise AttributeError.
Proof. intros Hv. destruct v as [a|l|d]; try reflexivity. now destruct (Hv d). Qed.

(** X16: the converters that go through the items of a dict raise an
    [AttributeError] on a value that is not a dict.  The three
    sub-converters do so at once.  [convert_basic_suite] does so for a
    test whose definition is not a dict, and
    [convert_matrix_compound_suite] for a suite whose config is not a
    dict and not false, when the suite converts with an empty dict in
    the place of that value. *)
Theorem not_a_dict (v : PyVal) (s : store) :
  (forall d, v <> PyDict d) ->
  convert_resultdb v s = Raise AttributeError
  /\ convert_swarming v s = Raise AttributeError
  /\ convert_skylab v s = Raise AttributeError
  /\ (forall (name : PyAtom) (before after : list (PyAtom * PyVal)),
         (exists r, convert_basic_suite
                      (PyDict (before ++ [(name, PyDict [])])) s = Ok r) ->
         convert_basic_suite (PyDict (before ++ (name, v) :: after)) s
         = Raise AttributeError)
  /\ (forall (name : PyAtom) (before after : list (PyAtom * PyVal)),
         py_truthy v = true ->
         (exists r, convert_matrix_compound_suite
                      (PyDict (before ++ [(name, PyDict [])])) s = Ok r) ->
         convert_matrix_compound_suite (PyDict (before ++ (name, v) :: after))
                                       s
         = Raise AttributeError).
Proof.
  intros Hv. pose proof (py_items_not_dict v Hv) as Hitems.
  split; [|split; [|split; [|split]]].
  - unfold convert_resultdb, bind, new_call, alloc, lift. now rewrite Hitems.
  - unfold convert_swarming, bind, new_call, alloc, lift. now rewrite Hitems.
  - unfold convert_skylab, bind, new_call, alloc, lift. now rewrite Hitems.
  - intros name before after.
    eapply stops_transfer;
      [apply convert_basic_suite_den | apply convert_basic_suite_den|].
    intros t. unfold Den.basic_suite. cbn [py_items Den.rbind].
    apply suite_stops. intros acc acc'. unfold Den.suite_test. cbn [fst snd].
    destruct (convert_atom name) as [n|e']; cbn [Den.rbind]; [|discriminate].
    intros _. unfold Den.test_of. now rewrite Hitems.
  - intros name before after Ht.
    eapply stops_transfer;
      [apply convert_matrix_compound_suite_den
      |apply convert_matrix_compound_suite_den|].
    intros t. unfold Den.matrix_compound_suite. cbn [py_items Den.rbind].
    apply suite_stops. intros acc acc'. unfold Den.matrix_entry.
    cbn [fst snd]. rewrite Ht.
    destruct (convert_atom name) as [n|e']; cbn [Den.rbind negb];
      [|discriminate].
    intros _. unfold Den.call_of. now rewrite Hitems.
Qed.

Lemma not_a_dict_witness :
  convert_swarming (PyList []) [] = Raise AttributeError
  /\ convert_basic_suite
       (PyDict [(PyStr "test1", PyA (PyStr "test1.py"))]) []
     = Raise AttributeError
  /\ convert_matrix_compound_suite
       (PyDict [(PyStr "suite1", PyList [PyA (PyStr "mixin1")])]) []
     = Raise AttributeError.
Proof.
  split; [|split].
  - refine (proj1 (proj2 (not_a_dict (PyList []) [] _))). discriminate.
  - refine (proj1 (proj2 (proj2 (proj2
              (not_a_dict (PyA (PyStr "test1.py")) [] _))))
              (PyStr "test1") [] [] _); [discriminate|].
    eexists. reflexivity.
  - refine (proj2 (proj2 (proj2 (proj2
              (not_a_dict (PyList [PyA (PyStr "mixin1")]) [] _))))
              (PyStr "suite1") [] [] eq_refl _); [discriminate|].
    eexists. reflexivity.
Defined.
